(** * The manifest, tag-list, catalog and referrers handlers of the registry

    A shallow embedding of [internal/registry/manifest.go].  The handlers are
    glue between an HTTP request/response pair and four collaborators
    (manifest store, blob store, authorizer, auditor).  They are embedded as
    programs of a small state monad whose state carries the collaborators'
    world, the response under construction and the list of collaborator calls
    made so far. *)

From Stdlib Require Import String Ascii List ZArith Bool Lia.
Import ListNotations.
Local Open Scope string_scope.
Local Open Scope Z_scope.
#[local] Set Warnings "-register-all".


(* ===================================================================== *)
(** ** Go values used by the handlers *)
(* ===================================================================== *)

(** A Go [[]byte]; Go strings are byte strings as well, which is what
    [string] is here. *)
Definition bytes := list ascii.

Definition blen (b : bytes) : Z := Z.of_nat (List.length b).

Definition slen (s : string) : Z := Z.of_nat (String.length s).

(** [fmt.Sprint] of a Go [int]. *)
Fixpoint digits_of (fuel : nat) (n : Z) (acc : string) : string :=
  match fuel with
  | O => acc
  | S fuel' =>
      let d := ascii_of_nat (Z.to_nat (48 + n mod 10)) in
      if n <? 10 then String d acc else digits_of fuel' (n / 10) (String d acc)
  end.

Definition Sprint_int (n : Z) : string :=
  if n <? 0 then String "-" (digits_of (S (Z.to_nat (Z.log2 (- n)))) (- n) "")
  else digits_of (S (Z.to_nat (Z.log2 n))) n "".

(* --------------------------------------------------------------------- *)
(** *** [strings.Split(s, "/")] and [strings.Join(elems, "/")] *)

Fixpoint split_slash_aux (s : string) (cur : string) : list string :=
  match s with
  | EmptyString => [cur]
  | String c rest =>
      if Ascii.eqb c "/" then cur :: split_slash_aux rest ""
      else split_slash_aux rest (cur ++ String c "")
  end.

Definition Split_slash (s : string) : list string := split_slash_aux s "".

Fixpoint Join_slash (l : list string) : string :=
  match l with
  | [] => ""
  | [x] => x
  | x :: rest => x ++ "/" ++ Join_slash rest
  end.

(** Go's [elem[lo:hi]]; out of range it panics, which is [None] here. *)
Definition slice {A} (l : list A) (lo hi : Z) : option (list A) :=
  if (0 <=? lo) && (lo <=? hi) && (hi <=? Z.of_nat (List.length l))
  then Some (firstn (Z.to_nat (hi - lo)) (skipn (Z.to_nat lo) l))
  else None.

(** Go's [elem[i]]. *)
Definition index {A} (l : list A) (i : Z) : option A :=
  if (0 <=? i) then nth_error l (Z.to_nat i) else None.

(* --------------------------------------------------------------------- *)
(** *** Errors

    Go [error] values as far as the handlers look into them: sentinels that
    [errors.Is] finds through wrapping, the blob store's redirect directive
    that [errors.As] finds, [strconv]'s [*NumError], and
    [multierr.Combine] of two failures. *)

Inductive sentinel :=
| ErrAccessDenied          (* authz.ErrAccessDenied *)
| ErrInvalidArtifactName   (* registryerror.ErrInvalidArtifactName *)
| ErrNameUnknown           (* manifest.ErrNameUnknown *)
| ErrManifestUnknown       (* manifest.ErrManifestUnknown *)
| ErrQuotaExceeded.        (* apierrors.ErrQuotaExceeded *)

Inductive error :=
| Sentinel (k : sentinel)
| RedirectError (Location : string) (Code : Z)     (* blob.RedirectError *)
| NumError (Func Num : string) (out_of_range : bool) (* strconv.NumError *)
| ErrorNew (msg : string)                          (* errors.New *)
| Wrap (msg : string) (inner : error)              (* fmt.Errorf("...%w") *)
| Multi (first second : error).                    (* multierr *)

Definition sentinel_eqb (a b : sentinel) : bool :=
  match a, b with
  | ErrAccessDenied, ErrAccessDenied
  | ErrInvalidArtifactName, ErrInvalidArtifactName
  | ErrNameUnknown, ErrNameUnknown
  | ErrManifestUnknown, ErrManifestUnknown
  | ErrQuotaExceeded, ErrQuotaExceeded => true
  | _, _ => false
  end.

(** [errors.Is(err, target)] for a sentinel target. *)
Fixpoint errors_Is (e : error) (k : sentinel) : bool :=
  match e with
  | Sentinel k' => sentinel_eqb k' k
  | Wrap _ inner => errors_Is inner k
  | Multi a b => errors_Is a k || errors_Is b k
  | _ => false
  end.

(** [errors.Is] on a possibly nil error. *)
Definition errors_Is_opt (e : option error) (k : sentinel) : bool :=
  match e with
  | Some e' => errors_Is e' k
  | None => false
  end.

(** [errors.As(err, &rerr)] with [rerr] a [blob.RedirectError]. *)
Fixpoint errors_As_Redirect (e : error) : option (string * Z) :=
  match e with
  | RedirectError l c => Some (l, c)
  | Wrap _ inner => errors_As_Redirect inner
  | Multi a b =>
      match errors_As_Redirect a with
      | Some r => Some r
      | None => errors_As_Redirect b
      end
  | _ => None
  end.

(** [multierr.Combine(e1, e2)]: nil when both are nil. *)
Definition multierr_Combine (e1 e2 : option error) : option error :=
  match e1, e2 with
  | None, None => None
  | Some a, None => Some a
  | None, Some b => Some b
  | Some a, Some b => Some (Multi a b)
  end.

(* --------------------------------------------------------------------- *)
(** *** [strconv.Atoi] on a 64-bit target

    Written after the standard library: a fast path for short inputs, and
    [ParseInt(s, 10, 0)] for the rest.  As in Go the function returns a
    value together with the error: 0 on a syntax error, and the nearest
    representable integer on a range error. *)

Definition intSize : Z := 64.
Definition maxUint64 : Z := 2 ^ 64 - 1.

Definition digit_val (c : ascii) : option Z :=
  let n := Z.of_nat (nat_of_ascii c) in
  if (48 <=? n) && (n <=? 57) then Some (n - 48) else None.

Inductive uint_result :=
| UintOk (n : Z)
| UintSyntax
| UintRange.

(** The digit loop of [ParseUint(s, 10, 64)]. *)
Fixpoint ParseUint_loop (s : string) (n : Z) : uint_result :=
  match s with
  | EmptyString => UintOk n
  | String c rest =>
      match digit_val c with
      | None => UintSyntax
      | Some d =>
          if n >=? maxUint64 / 10 + 1 then UintRange
          else
            let n1 := n * 10 + d in
            if n1 >? maxUint64 then UintRange else ParseUint_loop rest n1
      end
  end.

Definition ParseUint (s : string) : uint_result :=
  match s with
  | EmptyString => UintSyntax
  | _ => ParseUint_loop s 0
  end.

Definition ParseInt (fn : string) (s0 : string) : Z * option error :=
  match s0 with
  | EmptyString => (0, Some (NumError fn s0 false))
  | String c rest =>
      let neg := Ascii.eqb c "-" in
      let s := if Ascii.eqb c "+" || neg then rest else s0 in
      let cutoff := 2 ^ (intSize - 1) in
      match ParseUint s with
      | UintSyntax => (0, Some (NumError fn s0 false))
      | UintRange =>
          if neg then (- cutoff, Some (NumError fn s0 true))
          else (cutoff - 1, Some (NumError fn s0 true))
      | UintOk un =>
          if negb neg && (un >=? cutoff) then (cutoff - 1, Some (NumError fn s0 true))
          else if neg && (un >? cutoff) then (- cutoff, Some (NumError fn s0 true))
          else (if neg then - un else un, None)
      end
  end.

(** The loop of the fast path: no overflow is possible below 19 bytes. *)
Fixpoint Atoi_fast_loop (s : string) (n : Z) : option Z :=
  match s with
  | EmptyString => Some n
  | String c rest =>
      match digit_val c with
      | None => None
      | Some d => Atoi_fast_loop rest (n * 10 + d)
      end
  end.

Definition Atoi (s0 : string) : Z * option error :=
  let sLen := slen s0 in
  if (0 <? sLen) && (sLen <? 19) then
    match s0 with
    | EmptyString => (0, Some (NumError "Atoi" s0 false))
    | String c rest =>
        let signed := Ascii.eqb c "-" || Ascii.eqb c "+" in
        let s := if signed then rest else s0 in
        if signed && (slen s <? 1) then (0, Some (NumError "Atoi" s0 false))
        else
          match Atoi_fast_loop s 0 with
          | None => (0, Some (NumError "Atoi" s0 false))
          | Some n => (if Ascii.eqb c "-" then - n else n, None)
          end
    end
  else ParseInt "Atoi" s0.

(* --------------------------------------------------------------------- *)
(** *** Digests, media types and manifests *)

(** [v1.Hash]. *)
Record Hash := { Algorithm : string; Hex : string }.

(** [Hash.String()]. *)
Definition Hash_String (h : Hash) : string := Algorithm h ++ ":" ++ Hex h.

(** The media types of [go-containerregistry/pkg/v1/types] the handlers
    ask about. *)
Definition OCIImageIndex := "application/vnd.oci.image.index.v1+json".
Definition OCIManifestSchema1 := "application/vnd.oci.image.manifest.v1+json".
Definition DockerManifestSchema2 := "application/vnd.docker.distribution.manifest.v2+json".
Definition DockerManifestList := "application/vnd.docker.distribution.manifest.list.v2+json".
Definition DockerForeignLayer := "application/vnd.docker.image.rootfs.foreign.diff.tar.gzip".
Definition OCIRestrictedLayer := "application/vnd.oci.image.layer.nondistributable.v1.tar+gzip".
Definition OCIUncompressedRestrictedLayer := "application/vnd.oci.image.layer.nondistributable.v1.tar".

Definition IsIndex (m : string) : bool :=
  String.eqb m OCIImageIndex || String.eqb m DockerManifestList.

Definition IsImage (m : string) : bool :=
  String.eqb m OCIManifestSchema1 || String.eqb m DockerManifestSchema2.

Definition IsDistributable (m : string) : bool :=
  negb (String.eqb m DockerForeignLayer || String.eqb m OCIRestrictedLayer
        || String.eqb m OCIUncompressedRestrictedLayer).

(** [manifest.Blob] and [manifest.Manifest], the record of the manifest
    store. *)
Record Blob := { Blob_Digest : Hash; Blob_Size : Z }.

Record Manifest := { ContentType : string; Manifest_Blob : Blob }.

(** [v1.Descriptor], [v1.IndexManifest] and [v1.Manifest] with the fields
    the handlers read or write. *)
Record v1_Descriptor := {
  MediaType : string;
  Size : Z;
  Digest : Hash;
  ArtifactType : string
}.

Record v1_IndexManifest := {
  SchemaVersion : Z;
  Index_MediaType : string;
  Manifests : list v1_Descriptor
}.

Record v1_Manifest := {
  Config : v1_Descriptor;
  Layers : list v1_Descriptor;
  Subject : option v1_Descriptor
}.

Record catalog := { Repos : list string }.

Record listTags := { Name : string; Tags : list string }.

(** A JSON value as [encoding/json] scans it: object members are kept in
    order and with their duplicates. *)
Inductive json :=
| JNull
| JBool (b : bool)
| JNumber (literal : string)
| JString (s : string)
| JArray (elems : list json)
| JObject (members : list (string * json)).

(* --------------------------------------------------------------------- *)
(** *** Registry errors *)

Record regError := { Status : Z; Code : string; Message : string }.

Definition StatusOK : Z := 200.
Definition StatusCreated : Z := 201.
Definition StatusBadRequest : Z := 400.
Definition StatusForbidden : Z := 403.
Definition StatusNotFound : Z := 404.
Definition StatusMethodNotAllowed : Z := 405.
Definition StatusInternalServerError : Z := 500.

(** Modelled from the spec: [regErrDenied] is declared in another file of
    the package; status and code are those of the error table (access
    denied: 403, DENIED), the message is the table's condition. *)
Definition regErrDenied : regError :=
  {| Status := StatusForbidden; Code := "DENIED"; Message := "Access denied" |}.

(** Modelled from the spec: [regErrDeniedQuotaExceeded], declared in another
    file of the package (quota exceeded: 403, DENIED, the message indicates
    the quota). *)
Definition regErrDeniedQuotaExceeded : regError :=
  {| Status := StatusForbidden; Code := "DENIED"; Message := "Quota exceeded" |}.

(** Modelled from the spec: [regErrNameInvalid], declared in another file of
    the package (invalid artifact/repo name: 400, NAME_INVALID). *)
Definition regErrNameInvalid : regError :=
  {| Status := StatusBadRequest; Code := "NAME_INVALID";
     Message := "Invalid artifact/repo name" |}.

(** Modelled from the spec: [regErrNameUnknown], declared in another file of
    the package (unknown repo: 404, NAME_UNKNOWN). *)
Definition regErrNameUnknown : regError :=
  {| Status := StatusNotFound; Code := "NAME_UNKNOWN"; Message := "Unknown repo" |}.

(** Modelled from the spec: [regErrManifestUnknown], declared in another file
    of the package (unknown manifest: 404, MANIFEST_UNKNOWN). *)
Definition regErrManifestUnknown : regError :=
  {| Status := StatusNotFound; Code := "MANIFEST_UNKNOWN"; Message := "Unknown manifest" |}.

(** Modelled from the spec: [regErrMethodUnknown], declared in another file
    of the package (unsupported HTTP method: 405, METHOD_UNKNOWN). *)
Definition regErrMethodUnknown : regError :=
  {| Status := StatusMethodNotAllowed; Code := "METHOD_UNKNOWN";
     Message := "Unsupported HTTP method" |}.

(* --------------------------------------------------------------------- *)
(** *** Requests and responses *)

(** An [io.Reader] over a finite stream: the bytes it delivers and the error
    that ends it ([None] for [io.EOF]). *)
Record Reader := { delivered : bytes; read_err : option error }.

(** [io.Copy(&buf, r)] into a fresh buffer. *)
Definition io_Copy (r : Reader) : bytes * option error :=
  (delivered r, read_err r).

(** [url.Values] and [http.Header] as association lists. *)
Definition Values := list (string * list string).

Fixpoint Values_lookup (v : Values) (key : string) : list string :=
  match v with
  | [] => []
  | (k, vs) :: rest => if String.eqb k key then vs else Values_lookup rest key
  end.

(** [Values.Get]: the first value of the key, or the empty string. *)
Definition Values_Get (v : Values) (key : string) : string :=
  match Values_lookup v key with
  | [] => ""
  | x :: _ => x
  end.

Definition HeaderMap := list (string * string).

Fixpoint Header_lookup (h : HeaderMap) (key : string) : option string :=
  match h with
  | [] => None
  | (k, v) :: rest => if String.eqb k key then Some v else Header_lookup rest key
  end.

(** [Header.Get]. *)
Definition Header_Get (h : HeaderMap) (key : string) : string :=
  match Header_lookup h key with
  | Some v => v
  | None => ""
  end.

(** [Header.Set]. *)
Definition Header_Set (h : HeaderMap) (key v : string) : HeaderMap :=
  (key, v) :: filter (fun kv => negb (String.eqb (fst kv) key)) h.

Record Request := {
  Method : string;
  URL_Path : string;
  URL_Query : Values;
  Header : HeaderMap;
  Body : Reader
}.

Definition MethodGet := "GET".
Definition MethodHead := "HEAD".
Definition MethodPut := "PUT".

(** An [http.ResponseWriter]: the header map being filled, what
    [WriteHeader] has sent (status and a snapshot of the headers; only the
    first call counts), the body written so far, and the error every [Write]
    on this connection returns ([None] on a healthy connection). *)
Record Response := {
  resp_Header : HeaderMap;
  sent : option (Z * HeaderMap);
  written : bytes;
  conn_err : option error
}.

Definition new_Response (conn : option error) : Response :=
  {| resp_Header := []; sent := None; written := []; conn_err := conn |}.

Definition Response_Set (k v : string) (r : Response) : Response :=
  {| resp_Header := Header_Set (resp_Header r) k v; sent := sent r;
     written := written r; conn_err := conn_err r |}.

Definition Response_WriteHeader (code : Z) (r : Response) : Response :=
  match sent r with
  | Some _ => r
  | None =>
      {| resp_Header := resp_Header r; sent := Some (code, resp_Header r);
         written := written r; conn_err := conn_err r |}
  end.

(** [io.Copy(resp, r)] from an in-memory reader: nothing is written for an
    empty source; otherwise one [Write], which sends the header with 200 if
    none was sent. *)
Definition Response_Copy (data : bytes) (r : Response) : option error * Response :=
  match data with
  | [] => (None, r)
  | _ =>
      match conn_err r with
      | Some e => (Some e, r)
      | None =>
          let r' := Response_WriteHeader StatusOK r in
          (None, {| resp_Header := resp_Header r'; sent := sent r';
                    written := (written r' ++ data)%list; conn_err := conn_err r' |})
      end
  end.

(** The status and one header of the response as sent. *)
Definition sent_status (r : Response) : option Z :=
  match sent r with
  | Some (c, _) => Some c
  | None => None
  end.

Definition sent_header (r : Response) (key : string) : option string :=
  match sent r with
  | Some (_, h) => Header_lookup h key
  | None => None
  end.

(* ===================================================================== *)
(** ** Libraries and collaborators *)
(* ===================================================================== *)

(** The library functions the handlers call and whose code is not the
    registry's: digesting, JSON scanning and (un)marshalling, error
    rendering, quoting, URL joining and [http.Redirect]. *)
Class Lib := {
  (** [v1.SHA256] of an in-memory reader (which cannot fail). *)
  SHA256 : bytes -> Hash;
  (** [v1.NewHash]. *)
  NewHash : string -> error + Hash;
  (** [v1.ParseIndexManifest] and [v1.ParseManifest]. *)
  ParseIndexManifest : bytes -> error + v1_IndexManifest;
  ParseManifest : bytes -> error + v1_Manifest;
  (** The scanner of [json.Unmarshal]: the whole input as one JSON value,
      or a syntax error. *)
  json_scan : bytes -> error + json;
  (** Whether an object key selects the struct field of the given JSON
      name (exact or case-folded match). *)
  json_key_matches : string -> string -> bool;
  (** Whether [strconv.ParseFloat(lit, 64)] returns an error for a JSON
      number literal, which it does when the value is out of the range of
      [float64]. *)
  ParseFloat_fails : string -> bool;
  (** What [json.Unmarshal] stores in [refPointer.Subject] and in
      [imageAsArtifact.Config.MediaType]; [None] when it leaves the field
      as it was. *)
  Unmarshal_Subject : bytes -> option v1_Descriptor;
  Unmarshal_Config_MediaType : bytes -> option string;
  (** [json.Marshal] of the three response bodies. *)
  Marshal_listTags : listTags -> error + bytes;
  Marshal_catalog : catalog -> error + bytes;
  Marshal_IndexManifest : v1_IndexManifest -> error + bytes;
  (** [err.Error()] and [strconv.Quote] (the [%q] verb). *)
  Error : error -> string;
  Quote : string -> string;
  (** [req.URL.JoinPath(elem).Path] as a function of the request path. *)
  URL_JoinPath : string -> string -> string;
  (** [http.Redirect(resp, req, location, code)]. *)
  http_Redirect : Request -> string -> Z -> Response -> Response
}.

Inductive Action := ActionRead | ActionStat | ActionWrite.

(** The collaborators over a world [W] they share.  Look-ups answer from the
    current world; [Put]s and the audit change it.  The blob store's [Stat]
    and [Put] are optional capabilities, probed by a type assertion. *)
Class Backend (W : Type) := {
  authz_Authorize : string -> Action -> W -> option error;
  authz_AuthorizeReference : string -> string -> Action -> W -> option error;
  manifestHandler_Get : string -> string -> W -> error + Manifest;
  manifestHandler_Put :
    string -> string -> Manifest -> list Blob -> W -> option error * W;
  manifestHandler_ListTags : string -> Z -> string -> W -> error + list string;
  manifestHandler_ListDigests : string -> W -> error + list Hash;
  manifestHandler_List : Z -> W -> error + list string;
  blobHandler_Get : string -> Hash -> bool -> W -> error + Reader;
  blobHandler_Stat : option (string -> Hash -> W -> error + Z);
  blobHandler_Put :
    option (string -> Hash -> string -> bytes -> W -> option error * W);
  audit_AuditPull : string -> string -> W -> option error * W
}.

(** The calls a handler makes to its collaborators, the transaction marks
    and the logger. *)
Inductive Call :=
| CAuthorize (repo : string) (a : Action)
| CAuthorizeReference (repo target : string) (a : Action)
| CManifestGet (repo reference : string)
| CManifestPut (repo reference : string) (m : Manifest) (deps : list Blob)
| CListTags (repo : string) (n : Z) (last : string)
| CListDigests (repo : string)
| CList (n : Z)
| CBlobGet (repo : string) (d : Hash) (allowRedirect : bool)
| CBlobStat (repo : string) (d : Hash)
| CBlobPut (repo : string) (d : Hash) (contentType : string) (data : bytes)
| CAuditPull (repo target : string)
| CTxBegin
| CTxCommit
| CTxRollback
| CLogWarn (msg : string).

Definition is_store_write (c : Call) : bool :=
  match c with
  | CManifestPut _ _ _ _ | CBlobPut _ _ _ _ => true
  | _ => false
  end.

Definition is_store_call (c : Call) : bool :=
  match c with
  | CManifestGet _ _ | CManifestPut _ _ _ _ | CListTags _ _ _
  | CListDigests _ | CList _ => true
  | _ => false
  end.

(* ===================================================================== *)
(** ** The handler monad *)
(* ===================================================================== *)

Record St (W : Type) := mkSt {
  world : W;
  resp : Response;
  calls : list Call
}.
Arguments mkSt {W}.
Arguments world {W}.
Arguments resp {W}.
Arguments calls {W}.

(** A handler step: [None] is a run-time panic, which ends the handler. *)
Definition M (W A : Type) : Type := St W -> option A * St W.

Definition ret {W A} (a : A) : M W A := fun s => (Some a, s).

Definition bind {W A B} (m : M W A) (k : A -> M W B) : M W B :=
  fun s =>
    match m s with
    | (Some a, s') => k a s'
    | (None, s') => (None, s')
    end.

Definition panic {W A} : M W A := fun s => (None, s).

Notation "x <- m ;; k" := (bind m (fun x => k))
  (at level 61, m at next level, right associativity).
Notation "m ;;; k" := (bind m (fun _ => k))
  (at level 61, right associativity).

Definition log_call {W} (c : Call) : M W unit :=
  fun s => (Some tt, mkSt (world s) (resp s) (calls s ++ [c])%list).

(** A look-up of a collaborator. *)
Definition query {W A} (c : Call) (f : W -> A) : M W A :=
  log_call c ;;; (fun s => (Some (f (world s)), s)).

(** A call that may change the world. *)
Definition command {W A} (c : Call) (f : W -> A * W) : M W A :=
  log_call c ;;;
  (fun s => let (a, w') := f (world s) in (Some a, mkSt w' (resp s) (calls s))).

Definition on_resp {W} (f : Response -> Response) : M W unit :=
  fun s => (Some tt, mkSt (world s) (f (resp s)) (calls s)).

Definition resp_Copy {W} (data : bytes) : M W (option error) :=
  fun s =>
    let (e, r') := Response_Copy data (resp s) in
    (Some e, mkSt (world s) r' (calls s)).

(** Go's bounds checks. *)
Definition checked {W A} (o : option A) : M W A :=
  match o with
  | Some a => ret a
  | None => panic
  end.

(** Modelled from the spec: [db.RunTx], which is not among the sources,
    "executes fn atomically": when [fn] fails the world is the one before,
    otherwise its effects are kept. *)
Definition RunTx {W} (fn : M W (option error)) : M W (option error) :=
  fun s =>
    match (log_call CTxBegin ;;; fn) s with
    | (Some None, s') => (log_call CTxCommit ;;; ret None) s'
    | (Some (Some e), s') =>
        (log_call CTxRollback ;;; ret (Some e)) (mkSt (world s) (resp s') (calls s'))
    | (None, s') => (None, s')
    end.

(* ===================================================================== *)
(** ** The handlers *)
(* ===================================================================== *)

(* --------------------------------------------------------------------- *)
(** *** The URL classifier *)

(** [elems := strings.Split(path, "/"); elems = elems[1:]]. *)
Definition path_elems (path : string) : list string := tl (Split_slash path).

Definition penultimate_is (path : string) (word : string) : bool :=
  let elems := path_elems path in
  if Z.of_nat (List.length elems) <? 4 then false
  else
    match index elems (Z.of_nat (List.length elems) - 2) with
    | Some e => String.eqb e word
    | None => false
    end.

Definition isManifest (req : Request) : bool := penultimate_is (URL_Path req) "manifests".

Definition isTags (req : Request) : bool := penultimate_is (URL_Path req) "tags".

Definition isReferrers (req : Request) : bool := penultimate_is (URL_Path req) "referrers".

Definition isCatalog (req : Request) : bool :=
  let elems := path_elems (URL_Path req) in
  if Z.of_nat (List.length elems) <? 2 then false
  else
    match index elems (Z.of_nat (List.length elems) - 1) with
    | Some e => String.eqb e "_catalog"
    | None => false
    end.

(** [target := elem[len(elem)-1]]. *)
Definition path_target (path : string) : option string :=
  let elem := path_elems path in
  index elem (Z.of_nat (List.length elem) - 1).

(** [repo := strings.Join(elem[1:len(elem)-2], "/")]. *)
Definition path_repo (path : string) : option string :=
  let elem := path_elems path in
  match slice elem 1 (Z.of_nat (List.length elem) - 2) with
  | Some mid => Some (Join_slash mid)
  | None => None
  end.

(* --------------------------------------------------------------------- *)
(** *** The non-compliance check *)

(** The number literal [convertNumber] refuses while a value is decoded into
    an [any]: every number literal becomes a [float64] through
    [strconv.ParseFloat], also inside arrays and objects, whose elements and
    member values are decoded in order; the first literal refused is the one
    reported.  Strings, booleans and [null] decode without error. *)
Fixpoint valueInterface_refused `{L : Lib} (j : json) : option string :=
  match j with
  | JNumber lit => if ParseFloat_fails lit then Some lit else None
  | JArray elems =>
      (fix arrayInterface (l : list json) : option string :=
         match l with
         | [] => None
         | x :: rest =>
             match valueInterface_refused x with
             | Some lit => Some lit
             | None => arrayInterface rest
             end
         end) elems
  | JObject members =>
      (fix objectInterface (l : list (string * json)) : option string :=
         match l with
         | [] => None
         | (_, x) :: rest =>
             match valueInterface_refused x with
             | Some lit => Some lit
             | None => objectInterface rest
             end
         end) members
  | _ => None
  end.

(** The [UnmarshalTypeError] of a number inside the [blobs] array that does
    not fit a [float64]. *)
Definition number_error (lit : string) : error :=
  ErrorNew ("json: cannot unmarshal number " ++ lit
            ++ " into Go struct field .blobs of type float64").

(** [json.Unmarshal] of a scanned value into [struct { Blobs []any }]: the
    members that select the field are decoded in order.  An array replaces
    the slice, element by element, and a number in it (at any depth) that
    does not fit a [float64] is a type error; a null empties the slice; any
    other value is a type error and leaves the slice as it was.  A type
    error is kept (the first one) while decoding goes on, and returned at the
    end. *)
Definition decode_Blobs_member `{L : Lib} (st : option error * list json)
    (kv : string * json) : option error * list json :=
  if json_key_matches "blobs" (fst kv) then
    match snd kv with
    | JArray elems =>
        (match fst st with
         | Some e => Some e
         | None => option_map number_error (valueInterface_refused (JArray elems))
         end, elems)
    | JNull => (fst st, [])
    | _ =>
        (match fst st with
         | Some e => Some e
         | None => Some (ErrorNew "json: cannot unmarshal value into Go struct field .blobs")
         end, snd st)
    end
  else st.

Definition decode_Blobs `{L : Lib} (j : json) : option error * list json :=
  match j with
  | JNull => (None, [])
  | JObject members => fold_left decode_Blobs_member members (None, [])
  | _ => (Some (ErrorNew "json: cannot unmarshal value into Go value of type struct"), [])
  end.

Definition json_Unmarshal_Blobs `{L : Lib} (data : bytes) : option error * list json :=
  match json_scan data with
  | inl e => (Some e, [])
  | inr j => decode_Blobs j
  end.

(** Modelled from the spec: [regErrInternal], declared in another file of
    the package (other failures: 500, the internal error); the message is the
    error's text. *)
Definition regErrInternal `{L : Lib} (err : error) : regError :=
  {| Status := StatusInternalServerError; Code := "INTERNAL"; Message := Error err |}.

(** Modelled from the spec: [regErrManifestInvalid], declared in another file
    of the package (malformed manifest: 400, MANIFEST_INVALID); the message
    is the error's text. *)
Definition regErrManifestInvalid `{L : Lib} (err : error) : regError :=
  {| Status := StatusBadRequest; Code := "MANIFEST_INVALID"; Message := Error err |}.

Definition checkIncompatibleManifest `{L : Lib} (data : bytes) : option regError :=
  match json_Unmarshal_Blobs data with
  | (Some err, _) => Some (regErrManifestInvalid err)
  | (None, Blobs) =>
      if Z.of_nat (List.length Blobs) >? 0 then
        Some (regErrManifestInvalid
                (ErrorNew "non-compliant manifest with blobs entry detected"))
      else None
  end.

Section Handlers.

Context {W : Type} `{L : Lib} `{B : Backend W}.

(** The answer to an error of the authorizer, the same at every entry
    point. *)
Definition authz_regError (err : error) : regError :=
  if errors_Is err ErrAccessDenied then regErrDenied
  else if errors_Is err ErrInvalidArtifactName then regErrNameInvalid
  else regErrInternal err.

(** The audit of a pull; its failure is only logged. *)
Definition audit_pull (repo target : string) : M W unit :=
  e <- command (CAuditPull repo target) (audit_AuditPull repo target) ;;
  match e with
  | Some _ => log_call (CLogWarn "failed to audit-log pull")
  | None => ret tt
  end.

(** The look-up both [handleGet] and [handleHead] start with. *)
Definition manifest_lookup_regError (err : error) : regError :=
  if errors_Is err ErrNameUnknown then regErrNameUnknown
  else if errors_Is err ErrManifestUnknown then regErrManifestUnknown
  else regErrInternal err.

Definition handleGet (req : Request) (repo target : string) : M W (option regError) :=
  r <- query (CManifestGet repo target) (manifestHandler_Get repo target) ;;
  match r with
  | inl err => ret (Some (manifest_lookup_regError err))
  | inr m =>
      let d := Blob_Digest (Manifest_Blob m) in
      b <- query (CBlobGet repo d true) (blobHandler_Get repo d true) ;;
      match b with
      | inl err =>
          match errors_As_Redirect err with
          | Some (location, code) =>
              audit_pull repo target ;;;
              on_resp (http_Redirect req location code) ;;;
              ret None
          | None => ret (Some regErrManifestUnknown)
          end
      | inr rd =>
          match io_Copy rd with
          | (_, Some err) => ret (Some (regErrInternal err))
          | (buf, None) =>
              on_resp (Response_Set "Docker-Content-Digest" (Hash_String d)) ;;;
              on_resp (Response_Set "Content-Type" (ContentType m)) ;;;
              on_resp (Response_Set "Content-Length" (Sprint_int (blen buf))) ;;;
              on_resp (Response_WriteHeader StatusOK) ;;;
              e <- resp_Copy buf ;;
              match e with
              | Some err => ret (Some (regErrInternal err))
              | None => audit_pull repo target ;;; ret None
              end
          end
      end
  end.

Definition handleHead (req : Request) (repo target : string) : M W (option regError) :=
  r <- query (CManifestGet repo target) (manifestHandler_Get repo target) ;;
  match r with
  | inl err => ret (Some (manifest_lookup_regError err))
  | inr m =>
      let d := Blob_Digest (Manifest_Blob m) in
      match blobHandler_Stat with
      | None => ret (Some (regErrInternal (ErrorNew "cannot stat blob")))
      | Some Stat =>
          l <- query (CBlobStat repo d) (Stat repo d) ;;
          match l with
          | inl _ => ret (Some regErrManifestUnknown)
          | inr l =>
              audit_pull repo target ;;;
              on_resp (Response_Set "Docker-Content-Digest" (Hash_String d)) ;;;
              on_resp (Response_Set "Content-Type" (ContentType m)) ;;;
              on_resp (Response_Set "Content-Length" (Sprint_int l)) ;;;
              on_resp (Response_WriteHeader StatusOK) ;;;
              ret None
          end
      end
  end.

(** The closure of [handlePut] for an index: every distributable
    sub-manifest that is an image or an index must be on record. *)
Fixpoint index_dependencies (repo : string) (descs : list v1_Descriptor)
    (blobs : list Blob) : M W (regError + list Blob) :=
  match descs with
  | [] => ret (inr blobs)
  | desc :: rest =>
      if negb (IsDistributable (MediaType desc)) then
        index_dependencies repo rest blobs
      else if IsIndex (MediaType desc) || IsImage (MediaType desc) then
        r <- query (CManifestGet repo (Hash_String (Digest desc)))
               (manifestHandler_Get repo (Hash_String (Digest desc))) ;;
        match r with
        | inl _ =>
            ret (inl {| Status := StatusNotFound; Code := "MANIFEST_UNKNOWN";
                        Message := "Sub-manifest " ++ Quote (Hash_String (Digest desc))
                                   ++ " not found" |})
        | inr _ =>
            index_dependencies repo rest
              (blobs ++ [{| Blob_Digest := Digest desc; Blob_Size := Size desc |}])%list
        end
      else
        log_call (CLogWarn ("TODO: Check blobs for " ++ Quote (Hash_String (Digest desc))
                            ++ " (MediaType: " ++ MediaType desc ++ ")")) ;;;
        index_dependencies repo rest blobs
  end.

Definition blob_of (desc : v1_Descriptor) : Blob :=
  {| Blob_Digest := Digest desc; Blob_Size := Size desc |}.

(** The closure of [handlePut] for an image: config, subject and the
    distributable layers. *)
Definition image_dependencies (m : v1_Manifest) : list Blob :=
  ([blob_of (Config m)]
   ++ match Subject m with
      | Some subject => [blob_of subject]
      | None => []
      end
   ++ map blob_of (filter (fun desc => IsDistributable (MediaType desc)) (Layers m)))%list.

(** The dependencies of the manifest by its Content-Type: those of an index,
    those of an image, or none. *)
Definition collect_dependencies (repo contentType : string) (data : bytes)
  : M W (regError + list Blob) :=
  if IsIndex contentType then
    match ParseIndexManifest data with
    | inl err => ret (inl (regErrManifestInvalid err))
    | inr im => index_dependencies repo (Manifests im) []
    end
  else if IsImage contentType then
    match ParseManifest data with
    | inl err => ret (inl (regErrManifestInvalid err))
    | inr m => ret (inr (image_dependencies m))
    end
  else ret (inr []).

(** [handlePut]: buffer and digest the body, collect the dependencies, run
    the non-compliance check, put the blob, and record the manifest under
    its digest and under the target in one transaction.  Digesting the
    buffered bytes cannot fail, so the error branch of [v1.SHA256] has no
    counterpart here. *)
Definition handlePut (req : Request) (repo target : string) : M W (option regError) :=
  match io_Copy (Body req) with
  | (_, Some err) => ret (Some (regErrInternal err))
  | (buf, None) =>
      let mf := {| ContentType := Header_Get (Header req) "Content-Type";
                   Manifest_Blob := {| Blob_Digest := SHA256 buf; Blob_Size := blen buf |} |} in
      let d := Blob_Digest (Manifest_Blob mf) in
      deps <- collect_dependencies repo (ContentType mf) buf ;;
      match deps with
      | inl err => ret (Some err)
      | inr blobs =>
          match checkIncompatibleManifest buf with
          | Some err => ret (Some err)
          | None =>
              match blobHandler_Put with
              | None =>
                  ret (Some (regErrInternal
                               (ErrorNew "blob handler is not a BlobPutHandler")))
              | Some Put =>
                  e <- command (CBlobPut repo d (ContentType mf) buf)
                         (Put repo d (ContentType mf) buf) ;;
                  match e with
                  | Some err => ret (Some (regErrInternal err))
                  | None =>
                      err <- RunTx
                               (e1 <- command (CManifestPut repo (Hash_String d) mf blobs)
                                        (manifestHandler_Put repo (Hash_String d) mf blobs) ;;
                                e2 <- command (CManifestPut repo target mf blobs)
                                        (manifestHandler_Put repo target mf blobs) ;;
                                ret (multierr_Combine e1 e2)) ;;
                      if errors_Is_opt err ErrQuotaExceeded then
                        ret (Some regErrDeniedQuotaExceeded)
                      else
                        match err with
                        | Some err => ret (Some (regErrInternal err))
                        | None =>
                            on_resp (Response_Set "Docker-Content-Digest" (Hash_String d)) ;;;
                            on_resp (Response_Set "OCI-Subject" (Hash_String d)) ;;;
                            on_resp (Response_Set "Location"
                                       (URL_JoinPath (URL_Path req) (Hash_String d))) ;;;
                            on_resp (Response_WriteHeader StatusCreated) ;;;
                            ret None
                        end
                  end
              end
          end
      end
  end.

(** The entry point for [/v2/<repo>/manifests/<target>]. *)
Definition handle (req : Request) : M W (option regError) :=
  target <- checked (path_target (URL_Path req)) ;;
  repo <- checked (path_repo (URL_Path req)) ;;
  let authorized (a : Action) (k : M W (option regError)) : M W (option regError) :=
    e <- query (CAuthorizeReference repo target a) (authz_AuthorizeReference repo target a) ;;
    match e with
    | Some err => ret (Some (authz_regError err))
    | None => k
    end in
  if String.eqb (Method req) MethodGet then authorized ActionRead (handleGet req repo target)
  else if String.eqb (Method req) MethodHead then authorized ActionStat (handleHead req repo target)
  else if String.eqb (Method req) MethodPut then authorized ActionWrite (handlePut req repo target)
  else ret (Some regErrMethodUnknown).

(** The common tail of the three listing handlers: the marshalled body with
    its length. *)
Definition write_json (msg : bytes) (contentType : option string) : M W (option regError) :=
  on_resp (Response_Set "Content-Length" (Sprint_int (blen msg))) ;;;
  match contentType with
  | Some ct => on_resp (Response_Set "Content-Type" ct)
  | None => ret tt
  end ;;;
  on_resp (Response_WriteHeader StatusOK) ;;;
  e <- resp_Copy msg ;;
  match e with
  | Some err => ret (Some (regErrInternal err))
  | None => ret None
  end.

Definition handleTags (req : Request) : M W (option regError) :=
  repo <- checked (path_repo (URL_Path req)) ;;
  if String.eqb (Method req) MethodGet then
    e <- query (CAuthorize repo ActionRead) (authz_Authorize repo ActionRead) ;;
    match e with
    | Some err => ret (Some (authz_regError err))
    | None =>
        let last := Values_Get (URL_Query req) "last" in
        let ns := Values_Get (URL_Query req) "n" in
        let parsed :=
          if String.eqb ns "" then inr 10000
          else
            match Atoi ns with
            | (_, Some err) =>
                inl {| Status := StatusBadRequest; Code := "BAD_REQUEST";
                       Message := "parsing n: " ++ Error err |}
            | (parsed, None) => inr parsed
            end in
        match parsed with
        | inl err => ret (Some err)
        | inr n =>
            r <- query (CListTags repo n last) (manifestHandler_ListTags repo n last) ;;
            match r with
            | inl err =>
                if errors_Is err ErrNameUnknown then ret (Some regErrNameUnknown)
                else ret (Some (regErrInternal err))
            | inr references =>
                match Marshal_listTags {| Name := repo; Tags := references |} with
                | inl err => ret (Some (regErrInternal err))
                | inr msg => write_json msg None
                end
            end
        end
    end
  else ret (Some regErrMethodUnknown).

Definition handleCatalog (req : Request) : M W (option regError) :=
  let nStr := Values_Get (URL_Query req) "n" in
  let n := if String.eqb nStr "" then 10000 else fst (Atoi nStr) in
  if String.eqb (Method req) MethodGet then
    r <- query (CList n) (manifestHandler_List n) ;;
    match r with
    | inl err => ret (Some (regErrInternal err))
    | inr repos =>
        match Marshal_catalog {| Repos := repos |} with
        | inl err => ret (Some (regErrInternal err))
        | inr msg => write_json msg None
        end
    end
  else ret (Some regErrMethodUnknown).

(** The descriptor [handleReferrers] appends for a referrer. *)
Definition referrer_descriptor (reference : Hash) (manifest : Manifest) (buf : bytes)
  : v1_Descriptor :=
  {| MediaType := ContentType manifest;
     Size := blen buf;
     Digest := reference;
     ArtifactType := match Unmarshal_Config_MediaType buf with
                     | Some mt => mt
                     | None => ""
                     end |}.

(** The loop of [handleReferrers] over the digests of the repository. *)
Fixpoint referrers_loop (repo target : string) (digests : list Hash)
    (found : list v1_Descriptor) : M W (regError + list v1_Descriptor) :=
  match digests with
  | [] => ret (inr found)
  | reference :: rest =>
      r <- query (CManifestGet repo (Hash_String reference))
             (manifestHandler_Get repo (Hash_String reference)) ;;
      match r with
      | inl err => ret (inl (regErrInternal err))
      | inr manifest =>
          let d := Blob_Digest (Manifest_Blob manifest) in
          b <- query (CBlobGet repo d false) (blobHandler_Get repo d false) ;;
          match b with
          | inl err =>
              ret (inl {| Status := StatusNotFound; Code := "BAD_REQUEST";
                          Message := Error err |})
          | inr rd =>
              match io_Copy rd with
              | (_, Some err) => ret (inl (regErrInternal err))
              | (buf, None) =>
                  match Unmarshal_Subject buf with
                  | None => referrers_loop repo target rest found
                  | Some subject =>
                      if negb (String.eqb (Hash_String (Digest subject)) target) then
                        referrers_loop repo target rest found
                      else
                        referrers_loop repo target rest
                          (found ++ [referrer_descriptor reference manifest buf])%list
                  end
              end
          end
      end
  end.

Definition handleReferrers (req : Request) : M W (option regError) :=
  if negb (String.eqb (Method req) MethodGet) then ret (Some regErrMethodUnknown)
  else
    target <- checked (path_target (URL_Path req)) ;;
    repo <- checked (path_repo (URL_Path req)) ;;
    e <- query (CAuthorizeReference repo target ActionRead)
           (authz_AuthorizeReference repo target ActionRead) ;;
    match e with
    | Some err => ret (Some (authz_regError err))
    | None =>
        match NewHash target with
        | inl _ =>
            ret (Some {| Status := StatusBadRequest; Code := "UNSUPPORTED";
                         Message := "Target must be a valid digest" |})
        | inr _ =>
            r <- query (CListDigests repo) (manifestHandler_ListDigests repo) ;;
            match r with
            | inl err =>
                if errors_Is err ErrNameUnknown then ret (Some regErrNameUnknown)
                else ret (Some (regErrInternal err))
            | inr digests =>
                found <- referrers_loop repo target digests [] ;;
                match found with
                | inl err => ret (Some err)
                | inr descs =>
                    match Marshal_IndexManifest
                            {| SchemaVersion := 2; Index_MediaType := OCIImageIndex;
                               Manifests := descs |} with
                    | inl err => ret (Some (regErrInternal err))
                    | inr msg => write_json msg (Some OCIImageIndex)
                    end
                end
            end
        end
    end.

End Handlers.

(* ===================================================================== *)
(** ** A concrete library and an in-memory backend

    Instances of [Lib] and [Backend] on which the handlers run to a value:
    SHA-256 itself, a scanner for the JSON grammar with the decoders built on
    it, and stores kept as association lists.  The theorems below hold for
    every instance; these serve as their concrete cases. *)
(* ===================================================================== *)

Module SHA.


Definition w32 (x : Z) : Z := x mod 2 ^ 32.
Definition rotr (n x : Z) : Z := w32 (Z.lor (Z.shiftr x n) (Z.shiftl x (32 - n))).
Definition Ch (x y z : Z) : Z := Z.lxor (Z.land x y) (Z.land (2 ^ 32 - 1 - x) z).
Definition Maj (x y z : Z) : Z := Z.lxor (Z.lxor (Z.land x y) (Z.land x z)) (Z.land y z).
Definition Sigma0 (x : Z) : Z := Z.lxor (Z.lxor (rotr 2 x) (rotr 13 x)) (rotr 22 x).
Definition Sigma1 (x : Z) : Z := Z.lxor (Z.lxor (rotr 6 x) (rotr 11 x)) (rotr 25 x).
Definition sigma0 (x : Z) : Z := Z.lxor (Z.lxor (rotr 7 x) (rotr 18 x)) (Z.shiftr x 3).
Definition sigma1 (x : Z) : Z := Z.lxor (Z.lxor (rotr 17 x) (rotr 19 x)) (Z.shiftr x 10).

Definition primes : list Z :=
  [2; 3; 5; 7; 11; 13; 17; 19; 23; 29; 31; 37; 41; 43; 47; 53; 59; 61; 67; 71; 73; 79;
   83; 89; 97; 101; 103; 107; 109; 113; 127; 131; 137; 139; 149; 151; 157; 163; 167;
   173; 179; 181; 191; 193; 197; 199; 211; 223; 227; 229; 233; 239; 241; 251; 257;
   263; 269; 271; 277; 281; 283; 293; 307; 311].

(** The integer cube root, bit by bit. *)
Fixpoint icbrt (bits : nat) (n r : Z) : Z :=
  match bits with
  | O => r
  | S b =>
      let r' := r + 2 ^ Z.of_nat b in
      icbrt b n (if r' * r' * r' <=? n then r' else r)
  end.

(** The round constants: the fractional parts of the cube roots of the first
    64 primes; the initial state: those of the square roots of the first 8. *)
Definition K : list Z := map (fun p => w32 (icbrt 40 (p * 2 ^ 96) 0)) primes.
Definition H0 : list Z := map (fun p => w32 (Z.sqrt (p * 2 ^ 64))) (firstn 8 primes).

Definition pad (msg : list Z) : list Z :=
  let l := Z.of_nat (List.length msg) in
  let zeros := Z.to_nat ((55 - l) mod 64) in
  (msg ++ [128] ++ repeat 0 zeros
       ++ map (fun i => (8 * l / 2 ^ (8 * (7 - Z.of_nat i))) mod 256) (seq 0 8))%list.

Fixpoint words (fuel : nat) (bs : list Z) : list Z :=
  match fuel, bs with
  | S f, a :: b :: c :: d :: rest => (((a * 256 + b) * 256 + c) * 256 + d) :: words f rest
  | _, _ => []
  end.

(** The message schedule, most recent word first. *)
Fixpoint schedule (n : nat) (rev_w : list Z) : list Z :=
  match n with
  | O => rev_w
  | S n' =>
      let w := w32 (sigma1 (nth 1 rev_w 0) + nth 6 rev_w 0
                    + sigma0 (nth 14 rev_w 0) + nth 15 rev_w 0) in
      schedule n' (w :: rev_w)
  end.

Definition round (st : list Z) (kw : Z * Z) : list Z :=
  match st with
  | [a; b; c; d; e; f; g; h] =>
      let T1 := h + Sigma1 e + Ch e f g + fst kw + snd kw in
      let T2 := Sigma0 a + Maj a b c in
      [w32 (T1 + T2); a; b; c; w32 (d + T1); e; f; g]
  | _ => st
  end.

Definition compress (st : list Z) (block : list Z) : list Z :=
  let w := rev (schedule 48 (rev block)) in
  let st' := fold_left round (combine K w) st in
  map (fun p => w32 (fst p + snd p)) (combine st st').

Fixpoint blocks (fuel : nat) (ws : list Z) (st : list Z) : list Z :=
  match fuel, ws with
  | _, [] => st
  | O, _ => st
  | S f, _ => blocks f (skipn 16 ws) (compress st (firstn 16 ws))
  end.

Definition hex_digit (n : Z) : ascii :=
  ascii_of_nat (Z.to_nat (if n <? 10 then 48 + n else 87 + n)).

Fixpoint hex_of_word (digits : nat) (x : Z) (acc : string) : string :=
  match digits with
  | O => acc
  | S d => hex_of_word d (x / 16) (String (hex_digit (x mod 16)) acc)
  end.

Definition sum256 (msg : bytes) : string :=
  let bs := pad (map (fun c => Z.of_nat (nat_of_ascii c)) msg) in
  let ws := words (List.length bs) bs in
  let st := blocks (List.length ws) ws H0 in
  fold_right (fun x acc => hex_of_word 8 x acc) EmptyString st.

End SHA.

Module Mini.

Definition dquote : ascii := ascii_of_nat 34.

(** Request bodies are written with ['] where JSON has its double quote. *)
Definition text (s : string) : bytes :=
  map (fun c => if Ascii.eqb c "'" then dquote else c) (list_ascii_of_string s).

Definition SHA256 (data : bytes) : Hash :=
  {| Algorithm := "sha256"; Hex := SHA.sum256 data |}.

Definition is_lower_hex (c : ascii) : bool :=
  let n := nat_of_ascii c in
  ((48 <=? n) && (n <=? 57) || (97 <=? n) && (n <=? 102))%nat.

Fixpoint cut_colon (s : string) (before : string) : option (string * string) :=
  match s with
  | EmptyString => None
  | String c rest =>
      if Ascii.eqb c ":" then Some (before, rest)
      else cut_colon rest (before ++ String c "")
  end.

Definition NewHash (s : string) : error + Hash :=
  match cut_colon s "" with
  | Some (algo, body) =>
      if String.eqb algo "sha256" && (String.length body =? 64)%nat
         && forallb is_lower_hex (list_ascii_of_string body)
      then inr {| Algorithm := algo; Hex := body |}
      else inl (ErrorNew ("cannot parse hash: " ++ s))
  | None => inl (ErrorNew ("cannot parse hash: " ++ s))
  end.

(* --------------------------------------------------------------------- *)
(** *** A JSON scanner *)

Definition is_ws (c : ascii) : bool :=
  let n := nat_of_ascii c in
  ((n =? 32) || (n =? 9) || (n =? 10) || (n =? 13))%nat.

Fixpoint skip_ws (l : bytes) : bytes :=
  match l with
  | c :: rest => if is_ws c then skip_ws rest else l
  | [] => []
  end.

Definition is_digit (c : ascii) : bool :=
  let n := nat_of_ascii c in ((48 <=? n) && (n <=? 57))%nat.

Fixpoint take_digits (l : bytes) (acc : string) : string * bytes :=
  match l with
  | c :: rest => if is_digit c then take_digits rest (acc ++ String c "") else (acc, l)
  | [] => (acc, [])
  end.

(** A number literal: sign, integer part, fraction, exponent. *)
Definition scan_number (l : bytes) : option (string * bytes) :=
  let (sign, l1) :=
    match l with
    | c :: rest => if Ascii.eqb c "-" then ("-", rest) else ("", l)
    | [] => ("", l)
    end in
  let (int_part, l2) := take_digits l1 "" in
  if String.eqb int_part "" then None
  else if (1 <? String.length int_part)%nat && String.prefix "0" int_part then None
  else
    let '(frac, l3, ok3) :=
      match l2 with
      | c :: rest =>
          if Ascii.eqb c "." then
            let (ds, r) := take_digits rest "" in
            ("." ++ ds, r, negb (String.eqb ds ""))
          else ("", l2, true)
      | [] => ("", l2, true)
      end in
    let '(expo, l4, ok4) :=
      match l3 with
      | c :: rest =>
          if Ascii.eqb c "e" || Ascii.eqb c "E" then
            let (sg, r1) :=
              match rest with
              | c' :: r => if Ascii.eqb c' "+" || Ascii.eqb c' "-"
                           then (String c' "", r) else ("", rest)
              | [] => ("", rest)
              end in
            let (ds, r2) := take_digits r1 "" in
            (String c "" ++ sg ++ ds, r2, negb (String.eqb ds ""))
          else ("", l3, true)
      | [] => ("", l3, true)
      end in
    if ok3 && ok4 then Some (sign ++ int_part ++ frac ++ expo, l4) else None.

(** [strconv.ParseFloat(lit, 64)] on a JSON number literal rounds to the
    nearest [float64] and fails when that is infinite: when the magnitude of
    the literal is at least 2^1024 - 2^970, half-way between the largest
    [float64] and 2^1024.  The magnitude is the integer [m] of the digits
    times 10^[e]; the two quick answers keep the powers of ten small. *)
Fixpoint digits_value (s : string) (acc : Z) : Z :=
  match s with
  | EmptyString => acc
  | String c rest => digits_value rest (10 * acc + (Z.of_nat (nat_of_ascii c) - 48))
  end.

Definition ParseFloat_fails (lit : string) : bool :=
  let l := list_ascii_of_string lit in
  let l1 := match l with
            | c :: rest => if Ascii.eqb c "-" then rest else l
            | [] => l
            end in
  let (int_part, l2) := take_digits l1 "" in
  let (frac, l3) :=
    match l2 with
    | c :: rest => if Ascii.eqb c "." then take_digits rest "" else ("", l2)
    | [] => ("", l2)
    end in
  let expo :=
    match l3 with
    | c :: rest =>
        if Ascii.eqb c "e" || Ascii.eqb c "E" then
          match rest with
          | c' :: r =>
              if Ascii.eqb c' "-" then - digits_value (fst (take_digits r "")) 0
              else if Ascii.eqb c' "+" then digits_value (fst (take_digits r "")) 0
              else digits_value (fst (take_digits rest "")) 0
          | [] => 0
          end
        else 0
    | [] => 0
    end in
  let m := digits_value (int_part ++ frac) 0 in
  let e := expo - slen frac in
  let width := slen (int_part ++ frac) in
  let limit := 2 ^ 1024 - 2 ^ 970 in
  if m =? 0 then false
  else if 400 <? e then true
  else if e + width <? 300 then false
  else if 0 <=? e then limit <=? m * 10 ^ e
  else limit * 10 ^ (- e) <=? m.

Definition hex_val (c : ascii) : option nat :=
  let n := nat_of_ascii c in
  if ((48 <=? n) && (n <=? 57))%nat then Some (n - 48)%nat
  else if ((97 <=? n) && (n <=? 102))%nat then Some (n - 87)%nat
  else if ((65 <=? n) && (n <=? 70))%nat then Some (n - 55)%nat
  else None.

(** The UTF-8 bytes of a code point of the basic plane. *)
Definition utf8 (cp : nat) : string :=
  if (cp <? 128)%nat then String (ascii_of_nat cp) ""
  else if (cp <? 2048)%nat then
    String (ascii_of_nat (192 + cp / 64)) (String (ascii_of_nat (128 + cp mod 64)) "")
  else
    String (ascii_of_nat (224 + cp / 4096))
      (String (ascii_of_nat (128 + (cp / 64) mod 64))
         (String (ascii_of_nat (128 + cp mod 64)) "")).

(** The rest of a string literal after its opening quote. *)
Fixpoint scan_string (fuel : nat) (l : bytes) (acc : string) : option (string * bytes) :=
  match fuel with
  | O => None
  | S f =>
      match l with
      | [] => None
      | c :: rest =>
          if Ascii.eqb c dquote then Some (acc, rest)
          else if (nat_of_ascii c <? 32)%nat then None
          else if Ascii.eqb c "\" then
            match rest with
            | e :: rest' =>
                let plain (x : ascii) := scan_string f rest' (acc ++ String x "") in
                if Ascii.eqb e dquote then plain dquote
                else if Ascii.eqb e "\" then plain "\"%char
                else if Ascii.eqb e "/" then plain "/"%char
                else if Ascii.eqb e "b" then plain (ascii_of_nat 8)
                else if Ascii.eqb e "f" then plain (ascii_of_nat 12)
                else if Ascii.eqb e "n" then plain (ascii_of_nat 10)
                else if Ascii.eqb e "r" then plain (ascii_of_nat 13)
                else if Ascii.eqb e "t" then plain (ascii_of_nat 9)
                else if Ascii.eqb e "u" then
                  match rest' with
                  | h1 :: h2 :: h3 :: h4 :: rest'' =>
                      match hex_val h1, hex_val h2, hex_val h3, hex_val h4 with
                      | Some a, Some b, Some c', Some d =>
                          scan_string f rest''
                            (acc ++ utf8 (((a * 16 + b) * 16 + c') * 16 + d))
                      | _, _, _, _ => None
                      end
                  | _ => None
                  end
                else None
            | [] => None
            end
          else scan_string f rest (acc ++ String c "")
      end
  end.

Definition expect (word : string) (l : bytes) : option bytes :=
  let w := list_ascii_of_string word in
  if String.eqb (string_of_list_ascii (firstn (List.length w) l)) word
  then Some (skipn (List.length w) l) else None.

(** One JSON value at the head of the input (after white space), and the
    input that follows it. *)
Fixpoint scan_value (fuel : nat) (l : bytes) : option (json * bytes) :=
  match fuel with
  | O => None
  | S f =>
      match skip_ws l with
      | [] => None
      | c :: rest =>
          if Ascii.eqb c "n" then option_map (fun r => (JNull, r)) (expect "null" (c :: rest))
          else if Ascii.eqb c "t" then
            option_map (fun r => (JBool true, r)) (expect "true" (c :: rest))
          else if Ascii.eqb c "f" then
            option_map (fun r => (JBool false, r)) (expect "false" (c :: rest))
          else if Ascii.eqb c dquote then
            option_map (fun sr => (JString (fst sr), snd sr)) (scan_string f rest "")
          else if Ascii.eqb c "[" then
            match skip_ws rest with
            | c' :: rest' =>
                if Ascii.eqb c' "]" then Some (JArray [], rest')
                else option_map (fun er => (JArray (fst er), snd er)) (scan_elems f rest)
            | [] => None
            end
          else if Ascii.eqb c "{" then
            match skip_ws rest with
            | c' :: rest' =>
                if Ascii.eqb c' "}" then Some (JObject [], rest')
                else option_map (fun mr => (JObject (fst mr), snd mr)) (scan_members f rest)
            | [] => None
            end
          else option_map (fun nr => (JNumber (fst nr), snd nr)) (scan_number (c :: rest))
      end
  end
with scan_elems (fuel : nat) (l : bytes) : option (list json * bytes) :=
  match fuel with
  | O => None
  | S f =>
      match scan_value f l with
      | Some (v, rest) =>
          match skip_ws rest with
          | c :: rest' =>
              if Ascii.eqb c "," then
                option_map (fun er => (v :: fst er, snd er)) (scan_elems f rest')
              else if Ascii.eqb c "]" then Some ([v], rest')
              else None
          | [] => None
          end
      | None => None
      end
  end
with scan_members (fuel : nat) (l : bytes) : option (list (string * json) * bytes) :=
  match fuel with
  | O => None
  | S f =>
      match skip_ws l with
      | q :: l1 =>
          if Ascii.eqb q dquote then
            match scan_string f l1 "" with
            | Some (key, l2) =>
                match skip_ws l2 with
                | colon :: l3 =>
                    if Ascii.eqb colon ":" then
                      match scan_value f l3 with
                      | Some (v, rest) =>
                          match skip_ws rest with
                          | c :: rest' =>
                              if Ascii.eqb c "," then
                                option_map (fun mr => ((key, v) :: fst mr, snd mr))
                                  (scan_members f rest')
                              else if Ascii.eqb c "}" then Some ([(key, v)], rest')
                              else None
                          | [] => None
                          end
                      | None => None
                      end
                    else None
                | [] => None
                end
            | None => None
            end
          else None
      | [] => None
      end
  end.

Definition syntax_error : error := ErrorNew "invalid character in JSON input".

(** [json.NewDecoder(r).Decode]: the first value of the stream. *)
Definition json_first (data : bytes) : error + json :=
  match scan_value (2 * List.length data + 2) data with
  | Some (j, _) => inr j
  | None => inl syntax_error
  end.

(** [json.Unmarshal]: the whole input is one value. *)
Definition json_scan (data : bytes) : error + json :=
  match scan_value (2 * List.length data + 2) data with
  | Some (j, rest) =>
      match skip_ws rest with
      | [] => inr j
      | _ => inl syntax_error
      end
  | None => inl syntax_error
  end.

(* --------------------------------------------------------------------- *)
(** *** Decoders and encoders over scanned values *)

Definition lower (c : ascii) : ascii :=
  let n := nat_of_ascii c in
  if ((65 <=? n) && (n <=? 90))%nat then ascii_of_nat (n + 32) else c.

Fixpoint lower_string (s : string) : string :=
  match s with
  | EmptyString => EmptyString
  | String c rest => String (lower c) (lower_string rest)
  end.

Definition json_key_matches (field key : string) : bool :=
  String.eqb (lower_string field) (lower_string key).

(** The last member that selects a field. *)
Definition member (field : string) (members : list (string * json)) : option json :=
  option_map snd (find (fun kv => json_key_matches field (fst kv)) (rev members)).

Definition string_field (field : string) (members : list (string * json)) : string :=
  match member field members with
  | Some (JString s) => s
  | _ => ""
  end.

Definition descriptor_of (j : json) : error + v1_Descriptor :=
  match j with
  | JObject members =>
      let size :=
        match member "size" members with
        | Some (JNumber lit) => Atoi lit
        | Some JNull | None => (0, None)
        | Some _ => (0, Some (ErrorNew "json: cannot unmarshal value into Descriptor.size"))
        end in
      let digest :=
        match member "digest" members with
        | Some (JString s) => NewHash s
        | Some JNull | None => inr {| Algorithm := ""; Hex := "" |}
        | Some _ => inl (ErrorNew "json: cannot unmarshal value into Descriptor.digest")
        end in
      match size, digest with
      | (n, None), inr d =>
          inr {| MediaType := string_field "mediaType" members; Size := n; Digest := d;
                 ArtifactType := string_field "artifactType" members |}
      | (_, Some e), _ => inl e
      | _, inl e => inl e
      end
  | _ => inl (ErrorNew "json: cannot unmarshal value into Descriptor")
  end.

Fixpoint descriptors_of (l : list json) : error + list v1_Descriptor :=
  match l with
  | [] => inr []
  | j :: rest =>
      match descriptor_of j, descriptors_of rest with
      | inr d, inr ds => inr (d :: ds)
      | inl e, _ => inl e
      | _, inl e => inl e
      end
  end.

Definition descriptor_list (field : string) (members : list (string * json))
  : error + list v1_Descriptor :=
  match member field members with
  | Some (JArray l) => descriptors_of l
  | Some JNull | None => inr []
  | Some _ => inl (ErrorNew "json: cannot unmarshal value into a list of descriptors")
  end.

Definition ParseIndexManifest (data : bytes) : error + v1_IndexManifest :=
  match json_first data with
  | inl e => inl e
  | inr (JObject members) =>
      match descriptor_list "manifests" members with
      | inl e => inl e
      | inr ds =>
          inr {| SchemaVersion := 2; Index_MediaType := string_field "mediaType" members;
                 Manifests := ds |}
      end
  | inr JNull => inr {| SchemaVersion := 0; Index_MediaType := ""; Manifests := [] |}
  | inr _ => inl (ErrorNew "json: cannot unmarshal value into IndexManifest")
  end.

Definition empty_descriptor : v1_Descriptor :=
  {| MediaType := ""; Size := 0; Digest := {| Algorithm := ""; Hex := "" |};
     ArtifactType := "" |}.

Definition ParseManifest (data : bytes) : error + v1_Manifest :=
  match json_first data with
  | inl e => inl e
  | inr (JObject members) =>
      let config :=
        match member "config" members with
        | Some JNull | None => inr empty_descriptor
        | Some j => descriptor_of j
        end in
      let subject :=
        match member "subject" members with
        | Some JNull | None => inr None
        | Some j => match descriptor_of j with
                    | inr d => inr (Some d)
                    | inl e => inl e
                    end
        end in
      match config, descriptor_list "layers" members, subject with
      | inr c, inr ls, inr sj => inr {| Config := c; Layers := ls; Subject := sj |}
      | inl e, _, _ => inl e
      | _, inl e, _ => inl e
      | _, _, inl e => inl e
      end
  | inr JNull => inr {| Config := empty_descriptor; Layers := []; Subject := None |}
  | inr _ => inl (ErrorNew "json: cannot unmarshal value into Manifest")
  end.

Definition Unmarshal_Subject (data : bytes) : option v1_Descriptor :=
  match json_scan data with
  | inr (JObject members) =>
      match member "subject" members with
      | Some (JObject fields) =>
          match descriptor_of (JObject fields) with
          | inr d => Some d
          | inl _ => Some empty_descriptor
          end
      | _ => None
      end
  | _ => None
  end.

Definition Unmarshal_Config_MediaType (data : bytes) : option string :=
  match json_scan data with
  | inr (JObject members) =>
      match member "config" members with
      | Some (JObject fields) =>
          match member "mediaType" fields with
          | Some (JString s) => Some s
          | _ => None
          end
      | _ => None
      end
  | _ => None
  end.

(** [strconv.Quote] for text without control bytes. *)
Fixpoint escape (s : string) : string :=
  match s with
  | EmptyString => EmptyString
  | String c rest =>
      if Ascii.eqb c dquote || Ascii.eqb c "\" then String "\" (String c (escape rest))
      else String c (escape rest)
  end.

Definition Quote (s : string) : string :=
  String dquote (escape s ++ String dquote "").

Fixpoint comma_join (l : list string) : string :=
  match l with
  | [] => ""
  | [x] => x
  | x :: rest => x ++ "," ++ comma_join rest
  end.

Definition render_strings (l : list string) : string :=
  "[" ++ comma_join (map Quote l) ++ "]".

Definition key (k : string) : string := Quote k ++ ":".

Definition Marshal_listTags (t : listTags) : error + bytes :=
  inr (list_ascii_of_string
         ("{" ++ key "name" ++ Quote (Name t) ++ "," ++ key "tags"
              ++ render_strings (Tags t) ++ "}")).

Definition Marshal_catalog (c : catalog) : error + bytes :=
  inr (list_ascii_of_string ("{" ++ key "repositories" ++ render_strings (Repos c) ++ "}")).

Definition render_descriptor (d : v1_Descriptor) : string :=
  "{" ++ key "mediaType" ++ Quote (MediaType d) ++ "," ++ key "size" ++ Sprint_int (Size d)
      ++ "," ++ key "digest" ++ Quote (Hash_String (Digest d))
      ++ (if String.eqb (ArtifactType d) "" then ""
          else "," ++ key "artifactType" ++ Quote (ArtifactType d))
      ++ "}".

Definition Marshal_IndexManifest (im : v1_IndexManifest) : error + bytes :=
  inr (list_ascii_of_string
         ("{" ++ key "schemaVersion" ++ Sprint_int (SchemaVersion im) ++ ","
              ++ key "mediaType" ++ Quote (Index_MediaType im) ++ ","
              ++ key "manifests" ++ "[" ++ comma_join (map render_descriptor (Manifests im))
              ++ "]}")).

Definition sentinel_text (k : sentinel) : string :=
  match k with
  | ErrAccessDenied => "access denied"
  | ErrInvalidArtifactName => "invalid artifact name"
  | ErrNameUnknown => "name unknown"
  | ErrManifestUnknown => "manifest unknown"
  | ErrQuotaExceeded => "quota exceeded"
  end.

Fixpoint Error (e : error) : string :=
  match e with
  | Sentinel k => sentinel_text k
  | RedirectError l _ => "redirecting (" ++ l ++ ")"
  | NumError f n range =>
      "strconv." ++ f ++ ": parsing " ++ Quote n ++ ": "
      ++ (if range then "value out of range" else "invalid syntax")
  | ErrorNew msg => msg
  | Wrap msg inner => msg ++ ": " ++ Error inner
  | Multi a b => Error a ++ "; " ++ Error b
  end.

(** [JoinPath] for a clean path and one element. *)
Definition URL_JoinPath (path elem : string) : string := path ++ "/" ++ elem.

(** [http.Redirect] as far as status and [Location] go. *)
Definition http_Redirect (req : Request) (location : string) (code : Z) (r : Response)
  : Response :=
  Response_WriteHeader code (Response_Set "Location" location r).

#[export] Instance lib : Lib :=
  Build_Lib SHA256 NewHash ParseIndexManifest ParseManifest json_scan json_key_matches
    ParseFloat_fails Unmarshal_Subject Unmarshal_Config_MediaType Marshal_listTags Marshal_catalog
    Marshal_IndexManifest Error Quote URL_JoinPath http_Redirect.

End Mini.

Module Mem.

(** The stores as association lists, the pulls the auditor has recorded, the
    redirect directive the blob store answers with when redirects are allowed
    (as an object store with signed URLs does), the repositories the
    authorizer refuses and the number of references the quota allows. *)
Record World := {
  mem_manifests : list (string * string * Manifest);
  mem_blobs : list (string * Hash * bytes);
  mem_pulls : list (string * string);
  mem_redirect : option (string * Z);
  mem_denied : list string;
  mem_quota : option nat
}.

Definition empty : World :=
  {| mem_manifests := []; mem_blobs := []; mem_pulls := []; mem_redirect := None;
     mem_denied := []; mem_quota := None |}.

Definition Hash_eqb (a b : Hash) : bool :=
  String.eqb (Algorithm a) (Algorithm b) && String.eqb (Hex a) (Hex b).

Definition same_reference (repo reference : string) (e : string * string * Manifest) : bool :=
  String.eqb (fst (fst e)) repo && String.eqb (snd (fst e)) reference.

Definition in_repo (repo : string) (e : string * string * Manifest) : bool :=
  String.eqb (fst (fst e)) repo.

Definition Authorize (repo : string) (a : Action) (w : World) : option error :=
  if existsb (String.eqb repo) (mem_denied w) then Some (Sentinel ErrAccessDenied) else None.

Definition AuthorizeReference (repo target : string) (a : Action) (w : World)
  : option error := Authorize repo a w.

Definition Get (repo reference : string) (w : World) : error + Manifest :=
  match find (same_reference repo reference) (mem_manifests w) with
  | Some e => inr (snd e)
  | None =>
      if existsb (in_repo repo) (mem_manifests w) then inl (Sentinel ErrManifestUnknown)
      else inl (Sentinel ErrNameUnknown)
  end.

Definition with_manifests (w : World) (l : list (string * string * Manifest)) : World :=
  {| mem_manifests := l; mem_blobs := mem_blobs w; mem_pulls := mem_pulls w;
     mem_redirect := mem_redirect w; mem_denied := mem_denied w; mem_quota := mem_quota w |}.

Definition Put (repo reference : string) (m : Manifest) (deps : list Blob) (w : World)
  : option error * World :=
  let others := filter (fun e => negb (same_reference repo reference e)) (mem_manifests w) in
  match mem_quota w with
  | Some q =>
      if (q <=? List.length others)%nat then (Some (Sentinel ErrQuotaExceeded), w)
      else (None, with_manifests w ((repo, reference, m) :: others))
  | None => (None, with_manifests w ((repo, reference, m) :: others))
  end.

(** At most [n] elements from the front. *)
Fixpoint take {A} (n : Z) (l : list A) : list A :=
  match l with
  | [] => []
  | x :: rest => if n <=? 0 then [] else x :: take (n - 1) rest
  end.

Definition is_digest (reference : string) : bool :=
  match Mini.NewHash reference with
  | inr _ => true
  | inl _ => false
  end.

Definition known (repo : string) (w : World) : bool :=
  existsb (in_repo repo) (mem_manifests w).

Definition ListTags (repo : string) (n : Z) (last : string) (w : World)
  : error + list string :=
  if known repo w then
    inr (take n
           (filter (fun r => negb (is_digest r))
              (map (fun e => snd (fst e)) (filter (in_repo repo) (rev (mem_manifests w))))))
  else inl (Sentinel ErrNameUnknown).

Fixpoint digests_of (l : list (string * string * Manifest)) : list Hash :=
  match l with
  | [] => []
  | e :: rest =>
      match Mini.NewHash (snd (fst e)) with
      | inr h => h :: digests_of rest
      | inl _ => digests_of rest
      end
  end.

Definition ListDigests (repo : string) (w : World) : error + list Hash :=
  if known repo w then inr (digests_of (filter (in_repo repo) (rev (mem_manifests w))))
  else inl (Sentinel ErrNameUnknown).

Definition List (n : Z) (w : World) : error + list string :=
  inr (take n
         (nodup string_dec (map (fun e => fst (fst e)) (rev (mem_manifests w))))).

Definition same_blob (repo : string) (d : Hash) (e : string * Hash * bytes) : bool :=
  String.eqb (fst (fst e)) repo && Hash_eqb (snd (fst e)) d.

Definition blob_Get (repo : string) (d : Hash) (allowRedirect : bool) (w : World)
  : error + Reader :=
  match (if allowRedirect then mem_redirect w else None) with
  | Some (location, code) => inl (RedirectError (location ++ Hash_String d) code)
  | None =>
      match find (same_blob repo d) (mem_blobs w) with
      | Some e => inr {| delivered := snd e; read_err := None |}
      | None => inl (ErrorNew "blob not found")
      end
  end.

Definition blob_Stat (repo : string) (d : Hash) (w : World) : error + Z :=
  match find (same_blob repo d) (mem_blobs w) with
  | Some e => inr (blen (snd e))
  | None => inl (ErrorNew "blob not found")
  end.

Definition blob_Put (repo : string) (d : Hash) (contentType : string) (data : bytes)
    (w : World) : option error * World :=
  (None,
   {| mem_manifests := mem_manifests w;
      mem_blobs := (repo, d, data) :: filter (fun e => negb (same_blob repo d e)) (mem_blobs w);
      mem_pulls := mem_pulls w; mem_redirect := mem_redirect w;
      mem_denied := mem_denied w; mem_quota := mem_quota w |}).

Definition AuditPull (repo target : string) (w : World) : option error * World :=
  (None,
   {| mem_manifests := mem_manifests w; mem_blobs := mem_blobs w;
      mem_pulls := (mem_pulls w ++ [(repo, target)])%list; mem_redirect := mem_redirect w;
      mem_denied := mem_denied w; mem_quota := mem_quota w |}).

(** A backend whose blob store can stat and put. *)
Definition backend : Backend World :=
  @Build_Backend World Authorize AuthorizeReference Get Put ListTags ListDigests List blob_Get
    (Some blob_Stat) (Some blob_Put) AuditPull.

(** A backend whose blob store only serves [Get]. *)
Definition backend_get_only : Backend World :=
  @Build_Backend World Authorize AuthorizeReference Get Put ListTags ListDigests List blob_Get
    None None AuditPull.

(** A handler run from a fresh response on a healthy connection. *)
Definition start (w : World) : St World := mkSt w (new_Response None) [].

Definition request (method path : string) (query : Values) (contentType : string)
    (body : bytes) : Request :=
  {| Method := method; URL_Path := path; URL_Query := query;
     Header := [("Content-Type", contentType)];
     Body := {| delivered := body; read_err := None |} |}.

End Mem.

Module Fixture.

Definition repo := "acme/app".

(** An image manifest, an artifact that refers to it through [subject], and
    an index that lists it. *)
Definition image_body : bytes :=
  Mini.text "{'schemaVersion':2,'config':{'mediaType':'application/vnd.oci.image.config.v1+json','size':2,'digest':'sha256:44136fa355b3678a1146ad16f7e8649e94fb4fc21fe77e8310c060f61caaff8a'},'layers':[]}".

Definition image_digest : Hash := Mini.SHA256 image_body.

Definition artifact_body : bytes :=
  Mini.text ("{'schemaVersion':2,'config':{'mediaType':'application/vnd.example.sbom','size':2,'digest':'sha256:44136fa355b3678a1146ad16f7e8649e94fb4fc21fe77e8310c060f61caaff8a'},'layers':[],'subject':{'mediaType':'application/vnd.oci.image.manifest.v1+json','size':189,'digest':'"
             ++ Hash_String image_digest ++ "'}}").

Definition index_body : bytes :=
  Mini.text ("{'schemaVersion':2,'manifests':[{'mediaType':'application/vnd.oci.image.manifest.v1+json','size':189,'digest':'"
             ++ Hash_String image_digest ++ "'}]}").

Definition manifest_path (reference : string) : string :=
  "/v2/" ++ repo ++ "/manifests/" ++ reference.

Definition put (reference contentType : string) (body : bytes) : Request :=
  Mem.request MethodPut (manifest_path reference) [] contentType body.

Definition get (reference : string) : Request :=
  Mem.request MethodGet (manifest_path reference) [] "" [].

Definition head (reference : string) : Request :=
  Mem.request MethodHead (manifest_path reference) [] "" [].

Definition index_manifest : v1_IndexManifest :=
  {| SchemaVersion := 2; Index_MediaType := "";
     Manifests := [{| MediaType := OCIManifestSchema1; Size := 189; Digest := image_digest;
                      ArtifactType := "" |}] |}.

(** Bodies for the non-compliance check: a [blobs] array with an entry, an
    empty one, and text that is not JSON. *)
Definition blobs_body : bytes := Mini.text "{'blobs':[{'digest':'sha256:00'}]}".

Definition empty_blobs_body : bytes := Mini.text "{'blobs':[]}".

Definition not_json : bytes := Mini.text "schemaVersion: 2".

Definition artifact_type := "application/vnd.example+json".

(** An index with a [blobs] entry whose sub-manifest is not on record. *)
Definition blobs_index_body : bytes :=
  Mini.text ("{'schemaVersion':2,'blobs':[1],'manifests':[{'mediaType':'application/vnd.oci.image.manifest.v1+json','size':189,'digest':'"
             ++ Hash_String image_digest ++ "'}]}").

Definition tags_path : string := "/v2/" ++ repo ++ "/tags/list".

Definition list_tags (n : list string) : Request :=
  Mem.request MethodGet tags_path (match n with [] => [] | _ => [("n", n)] end) "" [].

Definition list_catalog (n : list string) : Request :=
  Mem.request MethodGet "/v2/_catalog" (match n with [] => [] | _ => [("n", n)] end) "" [].

Definition referrers (target : string) : Request :=
  Mem.request MethodGet ("/v2/" ++ repo ++ "/referrers/" ++ target) [] "" [].

(** The world after a handler has run in [w]. *)
Definition after (w : Mem.World) (h : M Mem.World (option regError)) : Mem.World :=
  world (snd (h (Mem.start w))).

(** The image pushed as [v1], then the artifact pushed as [sbom]. *)
Definition pushed_image : Mem.World :=
  Eval vm_compute in
    after Mem.empty
      (handlePut (L := Mini.lib) (B := Mem.backend) (put "v1" OCIManifestSchema1 image_body)
         repo "v1").

Definition pushed_artifact : Mem.World :=
  Eval vm_compute in
    after pushed_image
      (handlePut (L := Mini.lib) (B := Mem.backend)
         (put "sbom" OCIManifestSchema1 artifact_body) repo "sbom").

Definition artifact_record : Manifest :=
  {| ContentType := OCIManifestSchema1;
     Manifest_Blob := {| Blob_Digest := Mini.SHA256 artifact_body;
                         Blob_Size := blen artifact_body |} |}.

(** The record of the image, and a world where its blob has been lost. *)
Definition image_record : Manifest :=
  {| ContentType := OCIManifestSchema1;
     Manifest_Blob := {| Blob_Digest := image_digest; Blob_Size := blen image_body |} |}.

Definition lost_blob : Mem.World :=
  {| Mem.mem_manifests := [(repo, "v1", image_record)];
     Mem.mem_blobs := []; Mem.mem_pulls := []; Mem.mem_redirect := None;
     Mem.mem_denied := []; Mem.mem_quota := None |}.

(** A blob store that answers with a redirect to signed URLs. *)
Definition redirecting (w : Mem.World) : Mem.World :=
  {| Mem.mem_manifests := Mem.mem_manifests w; Mem.mem_blobs := Mem.mem_blobs w;
     Mem.mem_pulls := Mem.mem_pulls w;
     Mem.mem_redirect := Some ("https://blobs.example/", 307);
     Mem.mem_denied := Mem.mem_denied w; Mem.mem_quota := Mem.mem_quota w |}.

End Fixture.

(* ===================================================================== *)
(** ** Vocabulary of the statements *)
(* ===================================================================== *)

(** No call of the list reaches the [Put] of the blob store or of the
    manifest store. *)
Definition no_store_write (cs : list Call) : bool :=
  forallb (fun c => negb (is_store_write c)) cs.

(** No call of the list reaches the manifest store. *)
Definition no_store_call (cs : list Call) : bool :=
  forallb (fun c => negb (is_store_call c)) cs.

(** A sub-descriptor of an index that has to be on record: distributable,
    and an image or an index. *)
Definition must_be_recorded (desc : v1_Descriptor) : bool :=
  IsDistributable (MediaType desc) && (IsIndex (MediaType desc) || IsImage (MediaType desc)).

(** Such a sub-descriptor whose digest the manifest store does not find in
    the repository. *)
Definition missing {W} `{B : Backend W} (repo : string) (w : W) (desc : v1_Descriptor)
  : bool :=
  must_be_recorded desc
  && match manifestHandler_Get repo (Hash_String (Digest desc)) w with
     | inl _ => true
     | inr _ => false
     end.

(** The error of a PUT whose index refers to a sub-manifest not on record. *)
Definition sub_manifest_unknown `{L : Lib} (desc : v1_Descriptor) : regError :=
  {| Status := 404; Code := "MANIFEST_UNKNOWN";
     Message := "Sub-manifest " ++ Quote (Hash_String (Digest desc)) ++ " not found" |}.

(** The value of the last member of an object that selects the field
    [blobs], starting from [cur]. *)
Fixpoint last_blobs_member `{L : Lib} (members : list (string * json)) (cur : option json)
  : option json :=
  match members with
  | [] => cur
  | kv :: rest =>
      last_blobs_member rest (if json_key_matches "blobs" (fst kv) then Some (snd kv) else cur)
  end.

(** The top-level [blobs] array of a JSON value, if it has one. *)
Definition blobs_array `{L : Lib} (j : json) : option (list json) :=
  match j with
  | JObject members =>
      match last_blobs_member members None with
      | Some (JArray elems) => Some elems
      | _ => None
      end
  | _ => None
  end.

(** The record a PUT stores for a body. *)
Definition put_record `{L : Lib} (req : Request) (buf : bytes) : Manifest :=
  {| ContentType := Header_Get (Header req) "Content-Type";
     Manifest_Blob := {| Blob_Digest := SHA256 buf; Blob_Size := blen buf |} |}.

(** The calls of a PUT that stores: the blob under its digest, then, inside
    one transaction, the record under the digest and under the target. *)
Definition put_calls `{L : Lib} (req : Request) (repo target : string) (buf : bytes)
    (blobs : list Blob) : list Call :=
  [CBlobPut repo (SHA256 buf) (Header_Get (Header req) "Content-Type") buf;
   CTxBegin;
   CManifestPut repo (Hash_String (SHA256 buf)) (put_record req buf) blobs;
   CManifestPut repo target (put_record req buf) blobs;
   CTxCommit].

(** The referrers of a digest, in the words of the specification.  An entry
    is a manifest of the repository: its digest, its record and its body. *)
Definition entry : Type := Hash * Manifest * bytes.

Definition entry_digest (e : entry) : Hash := fst (fst e).
Definition entry_record (e : entry) : Manifest := snd (fst e).
Definition entry_body (e : entry) : bytes := snd e.

(** The store has the entry: the record is found under the digest and the
    blob store delivers the body for the record's blob. *)
Definition stored_as {W} `{B : Backend W} (repo : string) (w : W) (e : entry) : Prop :=
  manifestHandler_Get repo (Hash_String (entry_digest e)) w = inr (entry_record e)
  /\ blobHandler_Get repo (Blob_Digest (Manifest_Blob (entry_record e))) false w
     = inr {| delivered := entry_body e; read_err := None |}.

(** The top-level [subject.digest] of a body equals the target. *)
Definition spec_refers_to `{L : Lib} (target : string) (body : bytes) : bool :=
  match Unmarshal_Subject body with
  | Some subject => String.eqb (Hash_String (Digest subject)) target
  | None => false
  end.

(** One descriptor for each manifest whose subject is the target, nothing
    for the others. *)
Definition spec_referrers `{L : Lib} (target : string) (entries : list entry)
  : list v1_Descriptor :=
  flat_map
    (fun e =>
       if spec_refers_to target (entry_body e) then
         [{| MediaType := ContentType (entry_record e);
             Size := blen (entry_body e);
             Digest := entry_digest e;
             ArtifactType := match Unmarshal_Config_MediaType (entry_body e) with
                             | Some mediaType => mediaType
                             | None => ""
                             end |}]
       else [])
    entries.

Definition spec_referrers_index `{L : Lib} (target : string) (entries : list entry)
  : v1_IndexManifest :=
  {| SchemaVersion := 2;
     Index_MediaType := "application/vnd.oci.image.index.v1+json";
     Manifests := spec_referrers target entries |}.

(** The contract of the stores a round trip relies on: the manifest store
    finds a record under the reference it was put under and keeps the records
    of the other references; putting a record leaves the blob store alone;
    and for a blob that was put, the blob store delivers its bytes or answers
    with a redirect directive. *)
Record store_laws {W} (B : Backend W) : Prop := {
  manifest_put_get :
    forall repo reference m deps w w',
      manifestHandler_Put repo reference m deps w = (None, w') ->
      manifestHandler_Get repo reference w' = inr m;
  manifest_put_frame :
    forall repo reference m deps w w' reference' m',
      manifestHandler_Put repo reference m deps w = (None, w') ->
      reference' <> reference ->
      manifestHandler_Get repo reference' w = inr m' ->
      manifestHandler_Get repo reference' w' = inr m';
  manifest_put_blobs :
    forall repo reference m deps w e w' d allowRedirect,
      manifestHandler_Put repo reference m deps w = (e, w') ->
      blobHandler_Get repo d allowRedirect w' = blobHandler_Get repo d allowRedirect w;
  blob_put_get :
    forall Put repo d contentType data w w' allowRedirect,
      blobHandler_Put = Some Put ->
      Put repo d contentType data w = (None, w') ->
      blobHandler_Get repo d allowRedirect w'
      = inr {| delivered := data; read_err := None |}
      \/ exists err location code,
           blobHandler_Get repo d allowRedirect w' = inl err
           /\ errors_As_Redirect err = Some (location, code)
}.

(** A handler run on a fresh response over a healthy connection. *)
Definition fresh {W} (w : W) : St W := mkSt w (new_Response None) [].

(* --------------------------------------------------------------------- *)
(** *** Vocabulary of the further properties *)

(** The calls of the auditor in a list of calls. *)
Definition is_audit (c : Call) : bool :=
  match c with
  | CAuditPull _ _ => true
  | _ => false
  end.

Definition count_audit (cs : list Call) : nat := List.length (filter is_audit cs).

(** The calls of an audited pull: the audit, and a warning when it failed. *)
Definition audit_calls (repo target : string) (e : option error) : list Call :=
  CAuditPull repo target
    :: match e with
       | Some _ => [CLogWarn "failed to audit-log pull"]
       | None => []
       end.

(** The action [handle] asks the authorizer about, by method. *)
Definition method_action (method : string) : option Action :=
  if String.eqb method MethodGet then Some ActionRead
  else if String.eqb method MethodHead then Some ActionStat
  else if String.eqb method MethodPut then Some ActionWrite
  else None.

(** The calls of the dependency loop of an index whose sub-manifests are on
    record: a look-up for each sub-descriptor that has to be recorded, a
    warning for each other distributable one, nothing for the rest. *)
Definition index_calls `{L : Lib} (repo : string) (descs : list v1_Descriptor) : list Call :=
  flat_map
    (fun desc =>
       if negb (IsDistributable (MediaType desc)) then []
       else if IsIndex (MediaType desc) || IsImage (MediaType desc) then
         [CManifestGet repo (Hash_String (Digest desc))]
       else
         [CLogWarn ("TODO: Check blobs for " ++ Quote (Hash_String (Digest desc))
                    ++ " (MediaType: " ++ MediaType desc ++ ")")])
    descs.

Module Faulty.

(** A blob store whose [Put] fails. *)
Definition blob_Put (repo : string) (d : Hash) (contentType : string) (data : bytes)
    (w : Mem.World) : option error * Mem.World :=
  (Some (ErrorNew "no space left on device"), w).

Definition backend : Backend Mem.World :=
  @Build_Backend Mem.World Mem.Authorize Mem.AuthorizeReference Mem.Get Mem.Put Mem.ListTags
    Mem.ListDigests Mem.List Mem.blob_Get (Some Mem.blob_Stat) (Some blob_Put) Mem.AuditPull.

(** A world whose quota leaves no room for a reference. *)
Definition full : Mem.World :=
  {| Mem.mem_manifests := []; Mem.mem_blobs := []; Mem.mem_pulls := [];
     Mem.mem_redirect := None; Mem.mem_denied := []; Mem.mem_quota := Some 0%nat |}.

(** A world whose authorizer refuses the repository of the fixtures. *)
Definition closed : Mem.World :=
  {| Mem.mem_manifests := []; Mem.mem_blobs := []; Mem.mem_pulls := [];
     Mem.mem_redirect := None; Mem.mem_denied := [Fixture.repo]; Mem.mem_quota := None |}.

(** A world whose manifest store lists the image by its digest while the
    blob store has lost its body. *)
Definition lost : Mem.World :=
  {| Mem.mem_manifests :=
       [(Fixture.repo, Hash_String Fixture.image_digest, Fixture.image_record)];
     Mem.mem_blobs := []; Mem.mem_pulls := []; Mem.mem_redirect := None;
     Mem.mem_denied := []; Mem.mem_quota := None |}.

(** A handler run on a connection on which every write fails. *)
Definition broken (w : Mem.World) : St Mem.World :=
  mkSt w (new_Response (Some (ErrorNew "broken pipe"))) [].

End Faulty.
(** No [/] in the string. *)
Fixpoint slash_free (s : string) : bool :=
  match s with
  | EmptyString => true
  | String c rest => negb (Ascii.eqb c "/") && slash_free rest
  end.

(** The path of a resource of a repository below a root:
    [/<root>/<repo>/<word>/<target>]. *)
Definition resource_path (root repo word target : string) : string :=
  "/" ++ root ++ "/" ++ repo ++ "/" ++ word ++ "/" ++ target.
(** The calls that only ask: the authorizer and the look-ups of the two
    stores. *)
Definition is_lookup (c : Call) : bool :=
  match c with
  | CAuthorize _ _ | CAuthorizeReference _ _ _ | CManifestGet _ _ | CListTags _ _ _
  | CListDigests _ | CList _ | CBlobGet _ _ _ | CBlobStat _ _ => true
  | _ => false
  end.

Definition only_lookups (cs : list Call) : bool := forallb is_lookup cs.

(** The limit a listing asks the store for: 10000 without [n], otherwise
    what [Atoi] makes of it. *)
Definition listing_limit (req : Request) : Z :=
  if String.eqb (Values_Get (URL_Query req) "n") "" then 10000
  else fst (Atoi (Values_Get (URL_Query req) "n")).
(** The blob store and the manifest store are apart: putting a blob changes
    no record. *)
Definition blob_put_keeps_records {W} (B : Backend W) : Prop :=
  forall Put repo d contentType data w e w' reference,
    blobHandler_Put = Some Put ->
    Put repo d contentType data w = (e, w') ->
    manifestHandler_Get repo reference w' = manifestHandler_Get repo reference w.
(** The scanned bodies the non-compliance check lets through: [null], and
    the objects in which every member that selects [blobs] is [null] or an
    array all of whose numbers fit a [float64], and the last of them is not
    an array with an element. *)
Definition blobs_member_ok `{L : Lib} (kv : string * json) : bool :=
  negb (json_key_matches "blobs" (fst kv))
  || match snd kv with
     | JArray elems =>
         match valueInterface_refused (JArray elems) with
         | None => true
         | Some _ => false
         end
     | JNull => true
     | _ => false
     end.

Definition blobs_compliant `{L : Lib} (j : json) : bool :=
  match j with
  | JNull => true
  | JObject members =>
      forallb blobs_member_ok members
      && match last_blobs_member members None with
         | Some (JArray (_ :: _)) => false
         | _ => true
         end
  | _ => false
  end.

(** Splits a conjunction into its conjuncts, and nothing else. *)
Ltac conjuncts := repeat match goal with |- _ /\ _ => split end.

Example Sprint_int_ex : Sprint_int 0 = "0" /\ Sprint_int 1234 = "1234" /\ Sprint_int (-50) = "-50".
Proof. conjuncts; reflexivity. Qed.

Example Atoi_ex :
  Atoi "42" = (42, None) /\ Atoi "-7" = (-7, None) /\ fst (Atoi "abc") = 0 /\
  fst (Atoi "99999999999999999999") = 9223372036854775807 /\
  Atoi "9223372036854775807" = (9223372036854775807, None) /\
  fst (Atoi "-9223372036854775809") = -9223372036854775808 /\
  Atoi "-9223372036854775808" = (-9223372036854775808, None).
Proof. conjuncts; vm_compute; reflexivity. Qed.

Example classifier_ex :
  isManifest (Fixture.get "v1") = true
  /\ isTags (Fixture.list_tags []) = true
  /\ isCatalog (Fixture.list_catalog []) = true
  /\ isReferrers (Fixture.referrers "sha256:00") = true
  /\ isManifest (Fixture.list_tags []) = false
  /\ path_repo (Fixture.manifest_path "v1") = Some "acme/app"
  /\ path_target (Fixture.manifest_path "v1") = Some "v1"
  /\ path_repo "/v2/_catalog" = None.
Proof. conjuncts; reflexivity. Qed.

Example media_type_ex :
  IsIndex OCIImageIndex = true /\ IsIndex OCIManifestSchema1 = false
  /\ IsImage DockerManifestSchema2 = true /\ IsDistributable DockerForeignLayer = false
  /\ IsDistributable OCIManifestSchema1 = true.
Proof. conjuncts; reflexivity. Qed.

Example json_scan_ex :
  Mini.json_scan (Mini.text "{'a':[1,true,null],'b':{'c':'d'}} ")
  = inr (JObject [("a", JArray [JNumber "1"; JBool true; JNull]);
                  ("b", JObject [("c", JString "d")])])
  /\ Mini.json_scan (Mini.text "{'a':1} x") = inl Mini.syntax_error
  /\ Mini.json_first (Mini.text "{'a':1} x") = inr (JObject [("a", JNumber "1")]).
Proof. conjuncts; vm_compute; reflexivity. Qed.

Example sum256_ex :
  SHA.sum256 [] = "e3b0c44298fc1c149afbf4c8996fb92427ae41e4649b934ca495991b7852b855"
  /\ SHA.sum256 (list_ascii_of_string "abc")
     = "ba7816bf8f01cfea414140de5dae2223b00361a396177a9cb410ff61f20015ad".
Proof. split; vm_compute; reflexivity. Qed.

Example handle_denied_ex :
  fst (handle (L := Mini.lib) (B := Mem.backend) (Fixture.get "v1")
         (Mem.start {| Mem.mem_manifests := []; Mem.mem_blobs := []; Mem.mem_pulls := [];
                       Mem.mem_redirect := None; Mem.mem_denied := ["acme/app"];
                       Mem.mem_quota := None |}))
  = Some (Some regErrDenied)
  /\ fst (handle (L := Mini.lib) (B := Mem.backend)
            (Mem.request "DELETE" (Fixture.manifest_path "v1") [] "" [])
            (Mem.start Mem.empty))
     = Some (Some regErrMethodUnknown).
Proof. split; vm_compute; reflexivity. Qed.

Example Split_ex :
  Split_slash "/v2/acme/app/tags/list" = [""; "v2"; "acme"; "app"; "tags"; "list"].
Proof. reflexivity. Qed.

(** A path the classifier accepts has a repository and a target. *)
Lemma classified_path (path word : string) :
  penultimate_is path word = true ->
  exists repo target, path_repo path = Some repo /\ path_target path = Some target.
Proof.
  unfold penultimate_is, path_repo, path_target, slice, index.
  set (elem := path_elems path).
  destruct (Z.of_nat (List.length elem) <? 4) eqn:Hlen; [discriminate|].
  apply Z.ltb_ge in Hlen. intros _.
  assert (H1 : (0 <=? 1) && (1 <=? Z.of_nat (List.length elem) - 2)
               && (Z.of_nat (List.length elem) - 2 <=? Z.of_nat (List.length elem)) = true).
  { rewrite !andb_true_iff, !Z.leb_le. lia. }
  rewrite H1.
  assert (H2 : (0 <=? Z.of_nat (List.length elem) - 1) = true) by (apply Z.leb_le; lia).
  rewrite H2.
  destruct (nth_error elem (Z.to_nat (Z.of_nat (List.length elem) - 1))) as [target|] eqn:Hn.
  - eauto.
  - apply nth_error_None in Hn. lia.
Qed.

(* ===================================================================== *)
(** ** Stepping through handler code *)
(* ===================================================================== *)

Lemma conn_err_WriteHeader (code : Z) (r : Response) :
  conn_err (Response_WriteHeader code r) = conn_err r.
Proof. unfold Response_WriteHeader. now destruct (sent r). Qed.

Lemma Response_Copy_healthy (data : bytes) (r : Response) :
  conn_err r = None -> fst (Response_Copy data r) = None.
Proof.
  intros H. unfold Response_Copy. destruct data; [reflexivity|]. now rewrite H.
Qed.

Section Steps.

Context {W : Type}.

Lemma bind_ret_l {A B} (a : A) (k : A -> M W B) (s : St W) :
  (x <- ret a ;; k x) s = k a s.
Proof. reflexivity. Qed.

Lemma bind_query {A B} (c : Call) (f : W -> A) (k : A -> M W B) (s : St W) :
  (x <- query c f ;; k x) s
  = k (f (world s)) (mkSt (world s) (resp s) (calls s ++ [c])).
Proof. reflexivity. Qed.

Lemma bind_command {A B} (c : Call) (f : W -> A * W) (k : A -> M W B) (s : St W) :
  (x <- command c f ;; k x) s
  = k (fst (f (world s))) (mkSt (snd (f (world s))) (resp s) (calls s ++ [c])).
Proof.
  unfold command, bind, log_call; simpl.
  destruct (f (world s)); reflexivity.
Qed.

Lemma bind_log {B} (c : Call) (k : M W B) (s : St W) :
  (log_call c ;;; k) s = k (mkSt (world s) (resp s) (calls s ++ [c])).
Proof. reflexivity. Qed.

Lemma bind_on_resp {B} (f : Response -> Response) (k : M W B) (s : St W) :
  (on_resp f ;;; k) s = k (mkSt (world s) (f (resp s)) (calls s)).
Proof. reflexivity. Qed.

Lemma bind_resp_Copy {B} (data : bytes) (k : option error -> M W B) (s : St W) :
  (e <- resp_Copy data ;; k e) s
  = k (fst (Response_Copy data (resp s)))
      (mkSt (world s) (snd (Response_Copy data (resp s))) (calls s)).
Proof.
  unfold resp_Copy, bind.
  destruct (Response_Copy data (resp s)); reflexivity.
Qed.

End Steps.

Ltac step :=
  first [ rewrite bind_query | rewrite bind_command | rewrite bind_log
        | rewrite bind_on_resp | rewrite bind_resp_Copy | rewrite bind_ret_l ];
  cbn [world resp calls fst snd].

(* ===================================================================== *)
(** ** GET and HEAD of a manifest whose blob the backend cannot serve *)
(* ===================================================================== *)

Section BlobFailures.

Context {W : Type} `{L : Lib} `{B : Backend W}.

(** C9.  A GET whose manifest record exists while the blob store's [Get]
    fails with an error that is not a redirect directive is answered with
    MANIFEST_UNKNOWN (404), not with the internal error (500); nothing is
    written and the world is as before. *)
Theorem handleGet_blob_error_manifest_unknown
    (req : Request) (repo target : string) (s : St W) (m : Manifest) (err : error) :
  manifestHandler_Get repo target (world s) = inr m ->
  blobHandler_Get repo (Blob_Digest (Manifest_Blob m)) true (world s) = inl err ->
  errors_As_Redirect err = None ->
  handleGet req repo target s
  = (Some (Some regErrManifestUnknown),
     mkSt (world s) (resp s)
       (calls s ++ [CManifestGet repo target]
                ++ [CBlobGet repo (Blob_Digest (Manifest_Blob m)) true]))
  /\ Status regErrManifestUnknown = 404
  /\ Code regErrManifestUnknown = "MANIFEST_UNKNOWN"
  /\ forall e, regErrManifestUnknown <> regErrInternal e.
Proof.
  intros Hm Hb Hr. unfold handleGet.
  step. rewrite Hm. step. rewrite Hb, Hr.
  repeat split.
  - unfold ret. now rewrite <- app_assoc.
  - intros e; discriminate.
Qed.

End BlobFailures.

Lemma handleGet_blob_error_manifest_unknown_witness :
  fst (handleGet (L := Mini.lib) (B := Mem.backend) (Fixture.get "v1") Fixture.repo "v1"
         (Mem.start Fixture.lost_blob))
  = Some (Some regErrManifestUnknown).
Proof.
  refine (f_equal fst
            (proj1 (handleGet_blob_error_manifest_unknown (L := Mini.lib) (B := Mem.backend)
                      (Fixture.get "v1") Fixture.repo "v1" (Mem.start Fixture.lost_blob)
                      Fixture.image_record (ErrorNew "blob not found") _ _ _)));
    vm_compute; reflexivity.
Defined.

Section Head.

Context {W : Type} `{L : Lib} `{B : Backend W}.

(** C3, as amended.  On a HEAD whose manifest record exists: when the blob
    handler has no [Stat] capability the answer is the internal error (500);
    when it has one and the [Stat] call fails the answer is MANIFEST_UNKNOWN
    (404).  In both cases nothing is audited or written. *)
Theorem handleHead_stat_failures
    (req : Request) (repo target : string) (s : St W) (m : Manifest) :
  manifestHandler_Get repo target (world s) = inr m ->
  (blobHandler_Stat = None ->
   handleHead req repo target s
   = (Some (Some (regErrInternal (ErrorNew "cannot stat blob"))),
      mkSt (world s) (resp s) (calls s ++ [CManifestGet repo target]))
   /\ Status (regErrInternal (ErrorNew "cannot stat blob")) = 500)
  /\ (forall Stat err,
        blobHandler_Stat = Some Stat ->
        Stat repo (Blob_Digest (Manifest_Blob m)) (world s) = inl err ->
        handleHead req repo target s
        = (Some (Some regErrManifestUnknown),
           mkSt (world s) (resp s)
             (calls s ++ [CManifestGet repo target]
                      ++ [CBlobStat repo (Blob_Digest (Manifest_Blob m))]))
        /\ Status regErrManifestUnknown = 404
        /\ Code regErrManifestUnknown = "MANIFEST_UNKNOWN").
Proof.
  intros Hm. split.
  - intros Hcap. unfold handleHead. step. rewrite Hm, Hcap. now split.
  - intros Stat err Hcap Herr. unfold handleHead. step. rewrite Hm, Hcap.
    step. rewrite Herr. repeat split.
    unfold ret. now rewrite <- app_assoc.
Qed.

End Head.

Lemma handleHead_stat_failures_witness :
  fst (handleHead (L := Mini.lib) (B := Mem.backend_get_only) (Fixture.head "v1")
         Fixture.repo "v1" (Mem.start Fixture.lost_blob))
  = Some (Some (regErrInternal (L := Mini.lib) (ErrorNew "cannot stat blob")))
  /\ fst (handleHead (L := Mini.lib) (B := Mem.backend) (Fixture.head "v1")
            Fixture.repo "v1" (Mem.start Fixture.lost_blob))
     = Some (Some regErrManifestUnknown).
Proof.
  split.
  - refine (f_equal fst
              (proj1 (proj1 (handleHead_stat_failures (L := Mini.lib)
                               (B := Mem.backend_get_only) (Fixture.head "v1") Fixture.repo
                               "v1" (Mem.start Fixture.lost_blob) Fixture.image_record _) _)));
      vm_compute; reflexivity.
  - refine (f_equal fst
              (proj1 (proj2 (handleHead_stat_failures (L := Mini.lib) (B := Mem.backend)
                               (Fixture.head "v1") Fixture.repo "v1"
                               (Mem.start Fixture.lost_blob) Fixture.image_record _)
                        Mem.blob_Stat (ErrorNew "blob not found") _ _)));
      vm_compute; reflexivity.
Defined.

(** C3 as stated fails: the record of [v1] exists, the blob store can stat,
    its [Stat] call fails, and the HEAD is answered with MANIFEST_UNKNOWN
    (404), not with the internal error (500). *)
Lemma handleHead_stat_error_is_not_internal :
  manifestHandler_Get (Backend := Mem.backend) Fixture.repo "v1" Fixture.lost_blob
  = inr Fixture.image_record
  /\ blobHandler_Stat (Backend := Mem.backend) = Some Mem.blob_Stat
  /\ Mem.blob_Stat Fixture.repo Fixture.image_digest Fixture.lost_blob
     = inl (ErrorNew "blob not found")
  /\ fst (handleHead (L := Mini.lib) (B := Mem.backend) (Fixture.head "v1")
            Fixture.repo "v1" (Mem.start Fixture.lost_blob))
     = Some (Some regErrManifestUnknown)
  /\ Status regErrManifestUnknown = 404
  /\ Code regErrManifestUnknown = "MANIFEST_UNKNOWN"
  /\ (forall e,
        fst (handleHead (L := Mini.lib) (B := Mem.backend) (Fixture.head "v1")
               Fixture.repo "v1" (Mem.start Fixture.lost_blob))
        <> Some (Some (regErrInternal (L := Mini.lib) e))).
Proof.
  conjuncts; try (vm_compute; reflexivity).
  intros e. vm_compute. intros H. discriminate H.
Qed.

(* ===================================================================== *)
(** ** PUT: what is checked before anything is stored *)
(* ===================================================================== *)

Section PutChecks.

Context {W : Type} `{L : Lib} `{B : Backend W}.

Lemma no_store_write_app (a b : list Call) :
  no_store_write (a ++ b) = no_store_write a && no_store_write b.
Proof. apply forallb_app. Qed.

(** The dependency loop of an index only looks up and logs; it ends either
    with the dependencies or with MANIFEST_UNKNOWN. *)
Lemma index_dependencies_run (repo : string) (descs : list v1_Descriptor) :
  forall (blobs : list Blob) (s : St W),
  exists r cs,
    index_dependencies repo descs blobs s
    = (Some r, mkSt (world s) (resp s) (calls s ++ cs))
    /\ no_store_write cs = true
    /\ match r with
       | inl e => exists desc, In desc descs /\ missing repo (world s) desc = true
                               /\ e = sub_manifest_unknown desc
       | inr _ => True
       end.
Proof.
  induction descs as [|desc rest IH]; intros blobs s.
  - exists (inr blobs), []. cbn. rewrite app_nil_r. destruct s; auto.
  - cbn [index_dependencies].
    destruct (IsDistributable (MediaType desc)) eqn:Hd; cbn [negb].
    2:{ destruct (IH blobs s) as (r & cs & Hrun & Hw & Hr).
        exists r, cs. repeat split; auto.
        destruct r; auto. destruct Hr as (d & Hin & Hmiss & He).
        exists d; repeat split; auto. now right. }
    destruct (IsIndex (MediaType desc) || IsImage (MediaType desc)) eqn:Hk.
    + step.
      destruct (manifestHandler_Get repo (Hash_String (Digest desc)) (world s)) eqn:Hg.
      * exists (inl (sub_manifest_unknown desc)),
          [CManifestGet repo (Hash_String (Digest desc))].
        repeat split.
        exists desc. repeat split; [now left|].
        unfold missing, must_be_recorded. now rewrite Hd, Hk, Hg.
      * destruct (IH (blobs ++ [{| Blob_Digest := Digest desc; Blob_Size := Size desc |}])%list
                    (mkSt (world s) (resp s)
                       (calls s ++ [CManifestGet repo (Hash_String (Digest desc))])))
          as (r & cs & Hrun & Hw & Hr).
        cbn [world resp calls] in Hrun, Hr.
        exists r, (CManifestGet repo (Hash_String (Digest desc)) :: cs).
        rewrite Hrun. repeat split.
        -- now rewrite <- app_assoc.
        -- exact Hw.
        -- destruct r; auto. destruct Hr as (d & Hin & Hmiss & He).
           exists d; repeat split; auto. now right.
    + step.
      match goal with
      | |- context [CLogWarn ?msg] =>
          destruct (IH blobs (mkSt (world s) (resp s) (calls s ++ [CLogWarn msg])))
            as (r & cs & Hrun & Hw & Hr);
          cbn [world resp calls] in Hrun, Hr;
          exists r, (CLogWarn msg :: cs)
      end.
      rewrite Hrun. repeat split.
      * now rewrite <- app_assoc.
      * exact Hw.
      * destruct r; auto. destruct Hr as (d & Hin & Hmiss & He).
        exists d; repeat split; auto. now right.
Qed.

(** With a sub-manifest missing the loop ends with MANIFEST_UNKNOWN. *)
Lemma index_dependencies_missing (repo : string) (descs : list v1_Descriptor) :
  forall (blobs : list Blob) (s : St W),
  (exists desc, In desc descs /\ missing repo (world s) desc = true) ->
  exists desc cs,
    In desc descs /\ missing repo (world s) desc = true
    /\ index_dependencies repo descs blobs s
       = (Some (inl (sub_manifest_unknown desc)), mkSt (world s) (resp s) (calls s ++ cs))
    /\ no_store_write cs = true.
Proof.
  induction descs as [|desc rest IH]; intros blobs s (d0 & Hin0 & Hm0).
  - destruct Hin0.
  - cbn [index_dependencies].
    assert (Hrest : forall blobs' c,
               missing repo (world s) desc = false ->
               exists d cs,
                 In d (desc :: rest) /\ missing repo (world s) d = true
                 /\ index_dependencies repo rest blobs'
                      (mkSt (world s) (resp s) (calls s ++ c))
                    = (Some (inl (sub_manifest_unknown d)),
                       mkSt (world s) (resp s) (calls s ++ c ++ cs))
                 /\ no_store_write cs = true).
    { intros blobs' c Hnot.
      destruct Hin0 as [->|Hin0]; [congruence|].
      destruct (IH blobs' (mkSt (world s) (resp s) (calls s ++ c)))
        as (d & cs & Hin & Hm & Hrun & Hw).
      { exists d0. now split. }
      cbn [world resp calls] in Hrun, Hm.
      exists d, cs. repeat split; auto.
      - now right.
      - now rewrite Hrun, <- app_assoc. }
    unfold missing, must_be_recorded in Hrest.
    destruct (IsDistributable (MediaType desc)) eqn:Hd; cbn [negb].
    2:{ destruct (Hrest blobs [] eq_refl) as (d & cs & Hin & Hm & Hrun & Hw).
        rewrite app_nil_r in Hrun. destruct s as [w r c]; cbn in *.
        exists d, cs. repeat split; auto. }
    destruct (IsIndex (MediaType desc) || IsImage (MediaType desc)) eqn:Hk.
    + step.
      destruct (manifestHandler_Get repo (Hash_String (Digest desc)) (world s)) eqn:Hg.
      * exists desc, [CManifestGet repo (Hash_String (Digest desc))].
        repeat split; [now left|].
        unfold missing, must_be_recorded. now rewrite Hd, Hk, Hg.
      * destruct (Hrest (blobs ++ [{| Blob_Digest := Digest desc;
                                      Blob_Size := Size desc |}])%list
                    [CManifestGet repo (Hash_String (Digest desc))] eq_refl)
          as (d & cs & Hin & Hm & Hrun & Hw).
        exists d, ([CManifestGet repo (Hash_String (Digest desc))] ++ cs)%list.
        repeat split; auto.
    + step.
      match goal with
      | |- context [CLogWarn ?msg] =>
          destruct (Hrest blobs [CLogWarn msg] eq_refl) as (d & cs & Hin & Hm & Hrun & Hw);
          exists d, ([CLogWarn msg] ++ cs)%list
      end.
      repeat split; auto.
Qed.

Lemma bind_run {A C} (m : M W A) (k : A -> M W C) (s s1 : St W) (a : A) :
  m s = (Some a, s1) -> (x <- m ;; k x) s = k a s1.
Proof. intros H. unfold bind. now rewrite H. Qed.

(** Collecting the dependencies stores nothing; it fails with
    MANIFEST_INVALID when the body does not parse and, for an index, with
    MANIFEST_UNKNOWN when a sub-manifest is missing. *)
Lemma collect_dependencies_run (repo contentType : string) (buf : bytes) (s : St W) :
  exists r cs,
    collect_dependencies repo contentType buf s
    = (Some r, mkSt (world s) (resp s) (calls s ++ cs))
    /\ no_store_write cs = true
    /\ match r with
       | inl e =>
           (Status e = 400 /\ Code e = "MANIFEST_INVALID")
           \/ (IsIndex contentType = true /\ Status e = 404 /\ Code e = "MANIFEST_UNKNOWN")
       | inr _ => True
       end.
Proof.
  unfold collect_dependencies.
  assert (Hs : forall X (x : X), (Some x, s) = (Some x, mkSt (world s) (resp s) (calls s ++ []))).
  { intros. rewrite app_nil_r. now destruct s. }
  destruct (IsIndex contentType) eqn:Hi.
  - destruct (ParseIndexManifest buf) as [err|im].
    + exists (inl (regErrManifestInvalid err)), []. unfold ret. repeat split; auto.
    + destruct (index_dependencies_run repo (Manifests im) [] s) as (r & cs & Hrun & Hw & Hr).
      exists r, cs. repeat split; auto.
      destruct r; auto. destruct Hr as (d & _ & _ & ->). right. now repeat split.
  - destruct (IsImage contentType).
    + destruct (ParseManifest buf) as [err|m].
      * exists (inl (regErrManifestInvalid err)), []. unfold ret. repeat split; auto.
      * exists (inr (image_dependencies m)), []. unfold ret. repeat split; auto.
    + exists (inr []), []. unfold ret. repeat split; auto.
Qed.

Lemma checkIncompatibleManifest_code (buf : bytes) (e : regError) :
  checkIncompatibleManifest buf = Some e -> Status e = 400 /\ Code e = "MANIFEST_INVALID".
Proof.
  unfold checkIncompatibleManifest.
  destruct (json_Unmarshal_Blobs buf) as [[err|] Blobs].
  - intros [= <-]. now split.
  - destruct (Z.of_nat (List.length Blobs) >? 0); [|discriminate].
    intros [= <-]. now split.
Qed.

(** A body the non-compliance check refuses is rejected before anything is
    stored. *)
Lemma handlePut_refused (req : Request) (repo target : string) (s : St W)
    (buf : bytes) (e0 : regError) :
  io_Copy (Body req) = (buf, None) ->
  checkIncompatibleManifest buf = Some e0 ->
  exists e cs,
    handlePut req repo target s = (Some (Some e), mkSt (world s) (resp s) (calls s ++ cs))
    /\ no_store_write cs = true
    /\ ((Status e = 400 /\ Code e = "MANIFEST_INVALID")
        \/ (IsIndex (Header_Get (Header req) "Content-Type") = true
            /\ Status e = 404 /\ Code e = "MANIFEST_UNKNOWN")).
Proof.
  intros Hbody Hcheck. unfold handlePut. rewrite Hbody. cbn [ContentType].
  destruct (collect_dependencies_run repo (Header_Get (Header req) "Content-Type") buf s)
    as (r & cs & Hrun & Hw & Hr).
  erewrite bind_run; [|exact Hrun].
  exists (match r with inl e => e | inr _ => e0 end), cs.
  destruct r as [e|blobs].
  - repeat split; auto.
  - rewrite Hcheck. repeat split; auto.
    left. now apply checkIncompatibleManifest_code with buf.
Qed.

(** The transaction of the two [Put]s. *)
Lemma RunTx_two_puts (c1 c2 : Call) (f1 f2 : W -> option error * W) (s : St W) :
  RunTx (e1 <- command c1 f1 ;; e2 <- command c2 f2 ;; ret (multierr_Combine e1 e2)) s
  = match multierr_Combine (fst (f1 (world s))) (fst (f2 (snd (f1 (world s))))) with
    | None =>
        (Some None,
         mkSt (snd (f2 (snd (f1 (world s))))) (resp s)
           (calls s ++ [CTxBegin; c1; c2; CTxCommit]))
    | Some e =>
        (Some (Some e),
         mkSt (world s) (resp s) (calls s ++ [CTxBegin; c1; c2; CTxRollback]))
    end.
Proof.
  unfold RunTx. rewrite bind_log. rewrite bind_command. cbn [world resp calls].
  rewrite bind_command. cbn [world resp calls]. unfold ret.
  destruct (multierr_Combine (fst (f1 (world s))) (fst (f2 (snd (f1 (world s))))));
    rewrite bind_log; cbn [world resp calls]; unfold ret;
    now rewrite <- !app_assoc.
Qed.

(** What a PUT that returns no error has done. *)
Lemma handlePut_success_inv (req : Request) (repo target : string) (s s' : St W) :
  handlePut req repo target s = (Some None, s') ->
  exists buf blobs cs Put,
    io_Copy (Body req) = (buf, None)
    /\ checkIncompatibleManifest buf = None
    /\ blobHandler_Put = Some Put
    /\ no_store_write cs = true
    /\ let ct := Header_Get (Header req) "Content-Type" in
       let d := SHA256 buf in
       let w1 := Put repo d ct buf (world s) in
       let w2 := manifestHandler_Put repo (Hash_String d) (put_record req buf) blobs (snd w1) in
       let w3 := manifestHandler_Put repo target (put_record req buf) blobs (snd w2) in
       fst w1 = None /\ fst w2 = None /\ fst w3 = None
       /\ s' = mkSt (snd w3)
                 (Response_WriteHeader StatusCreated
                    (Response_Set "Location" (URL_JoinPath (URL_Path req) (Hash_String d))
                       (Response_Set "OCI-Subject" (Hash_String d)
                          (Response_Set "Docker-Content-Digest" (Hash_String d) (resp s)))))
                 (calls s ++ cs ++ put_calls req repo target buf blobs).
Proof.
  unfold handlePut.
  destruct (io_Copy (Body req)) as [buf [err|]] eqn:Hbody; [discriminate|].
  cbn [ContentType Manifest_Blob Blob_Digest].
  destruct (collect_dependencies_run repo (Header_Get (Header req) "Content-Type") buf s)
    as (r & cs & Hrun & Hw & Hr).
  erewrite bind_run; [|exact Hrun].
  destruct r as [e|blobs]; [discriminate|].
  destruct (checkIncompatibleManifest buf) eqn:Hcheck; [discriminate|].
  destruct blobHandler_Put as [Put|] eqn:Hcap; [|discriminate].
  rewrite bind_command. cbn [world resp calls].
  destruct (fst (Put repo (SHA256 buf) (Header_Get (Header req) "Content-Type") buf (world s)))
    eqn:H1; [discriminate|].
  unfold bind at 1. rewrite RunTx_two_puts. cbn [world resp calls].
  fold (put_record req buf).
  destruct (fst (manifestHandler_Put repo (Hash_String (SHA256 buf)) (put_record req buf) blobs
                   (snd (Put repo (SHA256 buf) (Header_Get (Header req) "Content-Type") buf
                           (world s))))) as [e1|] eqn:H2;
    destruct (fst (manifestHandler_Put repo target (put_record req buf) blobs
                     (snd (manifestHandler_Put repo (Hash_String (SHA256 buf))
                             (put_record req buf) blobs
                             (snd (Put repo (SHA256 buf)
                                     (Header_Get (Header req) "Content-Type") buf (world s)))))))
      as [e2|] eqn:H3; cbn [multierr_Combine errors_Is_opt].
  1-3: match goal with
       | |- context [errors_Is ?e ?k] => destruct (errors_Is e k); discriminate
       end.
  repeat step. unfold ret. intros [= <-].
  exists buf, blobs, cs, Put. repeat split; auto.
  unfold put_calls. now rewrite <- !app_assoc.
Qed.

(** Conversely, a PUT whose checks pass and whose three [Put]s succeed
    returns no error. *)
Lemma handlePut_succeeds (req : Request) (repo target : string) (s : St W)
    (buf : bytes) (blobs : list Blob) (cs : list Call)
    (Put : string -> Hash -> string -> bytes -> W -> option error * W) :
  let ct := Header_Get (Header req) "Content-Type" in
  let d := SHA256 buf in
  let w1 := Put repo d ct buf (world s) in
  let w2 := manifestHandler_Put repo (Hash_String d) (put_record req buf) blobs (snd w1) in
  let w3 := manifestHandler_Put repo target (put_record req buf) blobs (snd w2) in
  io_Copy (Body req) = (buf, None) ->
  collect_dependencies repo ct buf s
  = (Some (inr blobs), mkSt (world s) (resp s) (calls s ++ cs)) ->
  checkIncompatibleManifest buf = None ->
  blobHandler_Put = Some Put ->
  fst w1 = None -> fst w2 = None -> fst w3 = None ->
  handlePut req repo target s
  = (Some None,
     mkSt (snd w3)
       (Response_WriteHeader StatusCreated
          (Response_Set "Location" (URL_JoinPath (URL_Path req) (Hash_String d))
             (Response_Set "OCI-Subject" (Hash_String d)
                (Response_Set "Docker-Content-Digest" (Hash_String d) (resp s)))))
       (calls s ++ cs ++ put_calls req repo target buf blobs)).
Proof.
  intros ct d w1 w2 w3 Hbody Hdeps Hcheck Hcap H1 H2 H3.
  subst w3 w2 w1 d ct.
  unfold handlePut. rewrite Hbody.
  cbn [ContentType Manifest_Blob Blob_Digest].
  erewrite bind_run; [|exact Hdeps].
  rewrite Hcheck, Hcap. rewrite bind_command. cbn [world resp calls].
  rewrite H1.
  unfold bind at 1. rewrite RunTx_two_puts. cbn [world resp calls].
  fold (put_record req buf). rewrite H2, H3.
  cbn [multierr_Combine errors_Is_opt].
  repeat step. unfold ret, put_calls.
  now rewrite <- !app_assoc.
Qed.

(** C2.  A PUT of an index one of whose sub-descriptors has to be on record
    (distributable, image or index) and is not found in the repository fails
    with MANIFEST_UNKNOWN (404), the message naming the first such digest;
    the world and the response are untouched and no call reaches the [Put]
    of the blob store or of the manifest store. *)
Theorem handlePut_index_missing_sub_manifest
    (req : Request) (repo target : string) (s : St W) (buf : bytes) (im : v1_IndexManifest) :
  io_Copy (Body req) = (buf, None) ->
  IsIndex (Header_Get (Header req) "Content-Type") = true ->
  ParseIndexManifest buf = inr im ->
  (exists desc, In desc (Manifests im) /\ missing repo (world s) desc = true) ->
  exists desc cs,
    In desc (Manifests im) /\ missing repo (world s) desc = true
    /\ handlePut req repo target s
       = (Some (Some {| Status := 404; Code := "MANIFEST_UNKNOWN";
                        Message := "Sub-manifest " ++ Quote (Hash_String (Digest desc))
                                   ++ " not found" |}),
          mkSt (world s) (resp s) (calls s ++ cs))
    /\ no_store_write cs = true.
Proof.
  intros Hbody Hindex Hparse Hmissing.
  destruct (index_dependencies_missing repo (Manifests im) [] s Hmissing)
    as (desc & cs & Hin & Hm & Hrun & Hw).
  exists desc, cs. repeat split; auto.
  unfold handlePut. rewrite Hbody. cbn [ContentType].
  unfold collect_dependencies. rewrite Hindex, Hparse.
  erewrite bind_run; [|exact Hrun]. reflexivity.
Qed.

Lemma decode_Blobs_last (xs : list json) (members : list (string * json)) :
  forall (st : option error * list json) (cur : option json),
  last_blobs_member members cur = Some (JArray xs) ->
  (cur = Some (JArray xs) -> snd st = xs) ->
  snd (fold_left decode_Blobs_member members st) = xs.
Proof.
  induction members as [|kv rest IH]; intros st cur Hlast Hcur; cbn in *.
  - auto.
  - apply IH with (cur := if json_key_matches "blobs" (fst kv) then Some (snd kv) else cur);
      [exact Hlast|].
    unfold decode_Blobs_member.
    destruct (json_key_matches "blobs" (fst kv)); [|exact Hcur].
    intros [= ->]. reflexivity.
Qed.

Lemma blobs_array_decoded (j : json) (xs : list json) :
  blobs_array j = Some xs -> snd (decode_Blobs j) = xs.
Proof.
  destruct j as [| | | | |members]; try discriminate.
  cbn. destruct (last_blobs_member members None) as [[| | | |elems|]|] eqn:Hlast;
    try discriminate.
  intros [= ->]. apply decode_Blobs_last with (cur := None); [exact Hlast|discriminate].
Qed.

(** C5, as amended.  A PUT whose body is a JSON object in which the last
    member that selects the field [blobs] is a non-empty array is rejected
    and stores nothing; the error is MANIFEST_INVALID (400), unless the
    dependency check of an index fails first with MANIFEST_UNKNOWN (404).
    When that last member is an empty array, the non-compliance check lets
    the body through, provided the decoding of the body reports no error.
    An earlier member that selects [blobs] does not count: a later one
    replaces it. *)
Theorem handlePut_blobs_rejected
    (req : Request) (repo target : string) (s : St W) (buf : bytes) (j : json) :
  io_Copy (Body req) = (buf, None) ->
  json_scan buf = inr j ->
  (forall x xs,
     blobs_array j = Some (x :: xs) ->
     exists e cs,
       handlePut req repo target s = (Some (Some e), mkSt (world s) (resp s) (calls s ++ cs))
       /\ no_store_write cs = true
       /\ ((Status e = 400 /\ Code e = "MANIFEST_INVALID")
           \/ (IsIndex (Header_Get (Header req) "Content-Type") = true
               /\ Status e = 404 /\ Code e = "MANIFEST_UNKNOWN")))
  /\ (blobs_array j = Some [] -> fst (decode_Blobs j) = None ->
      checkIncompatibleManifest buf = None).
Proof.
  intros Hbody Hscan. split.
  - intros x xs Hblobs.
    assert (Hcheck : exists e0, checkIncompatibleManifest buf = Some e0).
    { unfold checkIncompatibleManifest, json_Unmarshal_Blobs. rewrite Hscan.
      pose proof (blobs_array_decoded j _ Hblobs) as Hdec.
      destruct (decode_Blobs j) as [[err|] Blobs]; cbn in Hdec; subst; [eauto|].
      assert ((Z.of_nat (List.length (x :: xs)) >? 0) = true) as ->
        by (apply Z.gtb_lt; cbn [List.length]; lia).
      eauto. }
    destruct Hcheck as (e0 & Hcheck).
    exact (handlePut_refused req repo target s _ _ Hbody Hcheck).
  - intros Hblobs Hok.
    unfold checkIncompatibleManifest, json_Unmarshal_Blobs. rewrite Hscan.
    pose proof (blobs_array_decoded j _ Hblobs) as Hdec.
    destruct (decode_Blobs j) as [[err|] Blobs]; cbn in *; [discriminate|].
    now subst.
Qed.

(** C10.  A PUT whose body does not scan as JSON is rejected and stores
    nothing, whatever its Content-Type; when the Content-Type is neither an
    index nor an image media type, no call is made at all and the error is
    the MANIFEST_INVALID (400) of the non-compliance check. *)
Theorem handlePut_body_not_json
    (req : Request) (repo target : string) (s : St W) (buf : bytes) (err : error) :
  io_Copy (Body req) = (buf, None) ->
  json_scan buf = inl err ->
  (exists e cs,
     handlePut req repo target s = (Some (Some e), mkSt (world s) (resp s) (calls s ++ cs))
     /\ no_store_write cs = true)
  /\ (IsIndex (Header_Get (Header req) "Content-Type") = false ->
      IsImage (Header_Get (Header req) "Content-Type") = false ->
      handlePut req repo target s = (Some (Some (regErrManifestInvalid err)), s)
      /\ checkIncompatibleManifest buf = Some (regErrManifestInvalid err)
      /\ Status (regErrManifestInvalid err) = 400
      /\ Code (regErrManifestInvalid err) = "MANIFEST_INVALID").
Proof.
  intros Hbody Hscan.
  assert (Hcheck : checkIncompatibleManifest buf = Some (regErrManifestInvalid err)).
  { unfold checkIncompatibleManifest, json_Unmarshal_Blobs. now rewrite Hscan. }
  split.
  - destruct (handlePut_refused req repo target s _ _ Hbody Hcheck) as (e & cs & Hrun & Hw & _).
    eauto.
  - intros Hindex Himage. repeat split; auto.
    unfold handlePut. rewrite Hbody. cbn [ContentType].
    unfold collect_dependencies. rewrite Hindex, Himage, bind_ret_l, Hcheck.
    reflexivity.
Qed.

(** C6.  A PUT that returns no error has answered 201 Created with
    [Docker-Content-Digest] and [OCI-Subject] both the SHA-256 digest of the
    buffered body, and [Location] the request path joined with that digest. *)
Theorem handlePut_created (req : Request) (repo target : string) (s s' : St W) :
  sent (resp s) = None ->
  handlePut req repo target s = (Some None, s') ->
  exists buf,
    io_Copy (Body req) = (buf, None)
    /\ sent_status (resp s') = Some 201
    /\ sent_header (resp s') "Docker-Content-Digest" = Some (Hash_String (SHA256 buf))
    /\ sent_header (resp s') "OCI-Subject" = Some (Hash_String (SHA256 buf))
    /\ sent_header (resp s') "Location"
       = Some (URL_JoinPath (URL_Path req) (Hash_String (SHA256 buf))).
Proof.
  intros Hfresh Hrun.
  destruct (handlePut_success_inv req repo target _ _ Hrun)
    as (buf & blobs & cs & Put & Hbody & _ & _ & _ & _ & _ & _ & ->).
  exists buf. split; [exact Hbody|].
  unfold sent_status, sent_header, Response_WriteHeader. cbn [resp sent Response_Set].
  rewrite Hfresh. cbn [sent resp_Header].
  repeat split.
Qed.

End PutChecks.

Lemma handlePut_index_missing_sub_manifest_witness :
  exists desc cs,
    In desc (Manifests Fixture.index_manifest)
    /\ missing (B := Mem.backend) Fixture.repo Mem.empty desc = true
    /\ handlePut (L := Mini.lib) (B := Mem.backend)
         (Fixture.put "multi" OCIImageIndex Fixture.index_body) Fixture.repo "multi"
         (Mem.start Mem.empty)
       = (Some (Some {| Status := 404; Code := "MANIFEST_UNKNOWN";
                        Message := "Sub-manifest " ++ Mini.Quote (Hash_String (Digest desc))
                                   ++ " not found" |}),
          mkSt Mem.empty (new_Response None) cs)
    /\ no_store_write cs = true.
Proof.
  apply (handlePut_index_missing_sub_manifest (L := Mini.lib) (B := Mem.backend)
           (Fixture.put "multi" OCIImageIndex Fixture.index_body) Fixture.repo "multi"
           (Mem.start Mem.empty) Fixture.index_body Fixture.index_manifest).
  - reflexivity.
  - reflexivity.
  - vm_compute. reflexivity.
  - exists {| MediaType := OCIManifestSchema1; Size := 189; Digest := Fixture.image_digest;
              ArtifactType := "" |}.
    split; [left; reflexivity | vm_compute; reflexivity].
Defined.

Lemma handlePut_blobs_rejected_witness :
  (exists e cs,
     handlePut (L := Mini.lib) (B := Mem.backend)
       (Fixture.put "v1" Fixture.artifact_type Fixture.blobs_body) Fixture.repo "v1"
       (Mem.start Mem.empty)
     = (Some (Some e), mkSt Mem.empty (new_Response None) cs)
     /\ no_store_write cs = true
     /\ ((Status e = 400 /\ Code e = "MANIFEST_INVALID")
         \/ (IsIndex Fixture.artifact_type = true
             /\ Status e = 404 /\ Code e = "MANIFEST_UNKNOWN")))
  /\ checkIncompatibleManifest (L := Mini.lib) Fixture.empty_blobs_body = None.
Proof.
  split.
  - refine (proj1 (handlePut_blobs_rejected (L := Mini.lib) (B := Mem.backend)
                     (Fixture.put "v1" Fixture.artifact_type Fixture.blobs_body)
                     Fixture.repo "v1" (Mem.start Mem.empty) Fixture.blobs_body
                     (JObject [("blobs", JArray [JObject [("digest", JString "sha256:00")]])])
                     _ _)
              (JObject [("digest", JString "sha256:00")]) [] _);
      vm_compute; reflexivity.
  - refine (proj2 (handlePut_blobs_rejected (L := Mini.lib) (B := Mem.backend)
                     (Fixture.put "v1" Fixture.artifact_type Fixture.empty_blobs_body)
                     Fixture.repo "v1" (Mem.start Mem.empty) Fixture.empty_blobs_body
                     (JObject [("blobs", JArray [])]) _ _) _ _);
      vm_compute; reflexivity.
Defined.

(** C5 as stated fails: the body [{"blobs":[]}] has a top-level [blobs]
    array, and its PUT is answered 201 Created with the record stored under
    the tag and the bytes in the blob store. *)
Lemma handlePut_empty_blobs_array_stored :
  json_scan (Lib := Mini.lib) Fixture.empty_blobs_body = inr (JObject [("blobs", JArray [])])
  /\ blobs_array (L := Mini.lib) (JObject [("blobs", JArray [])]) = Some []
  /\ fst (handlePut (L := Mini.lib) (B := Mem.backend)
            (Fixture.put "v1" Fixture.artifact_type Fixture.empty_blobs_body)
            Fixture.repo "v1" (Mem.start Mem.empty))
     = Some None
  /\ sent_status
       (resp (snd (handlePut (L := Mini.lib) (B := Mem.backend)
                     (Fixture.put "v1" Fixture.artifact_type Fixture.empty_blobs_body)
                     Fixture.repo "v1" (Mem.start Mem.empty))))
     = Some 201
  /\ Mem.Get Fixture.repo "v1"
       (Fixture.after Mem.empty
          (handlePut (L := Mini.lib) (B := Mem.backend)
             (Fixture.put "v1" Fixture.artifact_type Fixture.empty_blobs_body)
             Fixture.repo "v1"))
     = inr {| ContentType := Fixture.artifact_type;
              Manifest_Blob := {| Blob_Digest := Mini.SHA256 Fixture.empty_blobs_body;
                                  Blob_Size := 12 |} |}
  /\ Mem.blob_Get Fixture.repo (Mini.SHA256 Fixture.empty_blobs_body) false
       (Fixture.after Mem.empty
          (handlePut (L := Mini.lib) (B := Mem.backend)
             (Fixture.put "v1" Fixture.artifact_type Fixture.empty_blobs_body)
             Fixture.repo "v1"))
     = inr {| delivered := Fixture.empty_blobs_body; read_err := None |}.
Proof. conjuncts; vm_compute; reflexivity. Qed.

Example handlePut_blobs_index_ex :
  fst (handlePut (L := Mini.lib) (B := Mem.backend)
         (Fixture.put "multi" OCIImageIndex Fixture.blobs_index_body) Fixture.repo "multi"
         (Mem.start Mem.empty))
  = Some (Some (sub_manifest_unknown (L := Mini.lib)
                  {| MediaType := OCIManifestSchema1; Size := 189;
                     Digest := Fixture.image_digest; ArtifactType := "" |}))
  /\ checkIncompatibleManifest (L := Mini.lib) Fixture.blobs_index_body
     = Some (regErrManifestInvalid (L := Mini.lib)
               (ErrorNew "non-compliant manifest with blobs entry detected")).
Proof. split; vm_compute; reflexivity. Qed.

(** Later members replace earlier ones: a body whose first [blobs] array has
    an entry and whose last one is empty or [null] is stored, unless a number
    in a [blobs] array does not fit a [float64], which is a decoding
    error. *)
Example handlePut_blobs_members_ex :
  fst (handlePut (L := Mini.lib) (B := Mem.backend)
         (Fixture.put "v1" Fixture.artifact_type (Mini.text "{'blobs':[1],'blobs':[]}"))
         Fixture.repo "v1" (Mem.start Mem.empty))
  = Some None
  /\ fst (handlePut (L := Mini.lib) (B := Mem.backend)
            (Fixture.put "v1" Fixture.artifact_type
               (Mini.text "{'blobs':[{'digest':'sha256:00'}],'BLOBS':null}"))
            Fixture.repo "v1" (Mem.start Mem.empty))
     = Some None
  /\ fst (handlePut (L := Mini.lib) (B := Mem.backend)
            (Fixture.put "v1" Fixture.artifact_type
               (Mini.text "{'blobs':[[{'size':1e999}]],'blobs':[]}"))
            Fixture.repo "v1" (Mem.start Mem.empty))
     = Some (Some (regErrManifestInvalid (L := Mini.lib) (number_error "1e999")))
  /\ ParseFloat_fails (Lib := Mini.lib) "1.7976931348623158e308" = false
  /\ ParseFloat_fails (Lib := Mini.lib) "1.7976931348623159e308" = true
  /\ ParseFloat_fails (Lib := Mini.lib) "-1.7976931348623158e308" = false
  /\ ParseFloat_fails (Lib := Mini.lib) "1e-999" = false.
Proof. conjuncts; vm_compute; reflexivity. Qed.

Lemma handlePut_created_witness :
  exists buf,
    io_Copy (Body (Fixture.put "v1" OCIManifestSchema1 Fixture.image_body)) = (buf, None)
    /\ sent_status
         (resp (snd (handlePut (L := Mini.lib) (B := Mem.backend)
                       (Fixture.put "v1" OCIManifestSchema1 Fixture.image_body)
                       Fixture.repo "v1" (Mem.start Mem.empty))))
       = Some 201
    /\ sent_header
         (resp (snd (handlePut (L := Mini.lib) (B := Mem.backend)
                       (Fixture.put "v1" OCIManifestSchema1 Fixture.image_body)
                       Fixture.repo "v1" (Mem.start Mem.empty))))
         "Docker-Content-Digest"
       = Some (Hash_String (Mini.SHA256 buf))
    /\ sent_header
         (resp (snd (handlePut (L := Mini.lib) (B := Mem.backend)
                       (Fixture.put "v1" OCIManifestSchema1 Fixture.image_body)
                       Fixture.repo "v1" (Mem.start Mem.empty))))
         "OCI-Subject"
       = Some (Hash_String (Mini.SHA256 buf))
    /\ sent_header
         (resp (snd (handlePut (L := Mini.lib) (B := Mem.backend)
                       (Fixture.put "v1" OCIManifestSchema1 Fixture.image_body)
                       Fixture.repo "v1" (Mem.start Mem.empty))))
         "Location"
       = Some (Mini.URL_JoinPath (Fixture.manifest_path "v1") (Hash_String (Mini.SHA256 buf))).
Proof.
  apply (handlePut_created (L := Mini.lib) (B := Mem.backend)
           (Fixture.put "v1" OCIManifestSchema1 Fixture.image_body) Fixture.repo "v1"
           (Mem.start Mem.empty)).
  - reflexivity.
  - vm_compute. reflexivity.
Defined.

Lemma handlePut_body_not_json_witness :
  handlePut (L := Mini.lib) (B := Mem.backend)
    (Fixture.put "v1" Fixture.artifact_type Fixture.not_json) Fixture.repo "v1"
    (Mem.start Mem.empty)
  = (Some (Some (regErrManifestInvalid (L := Mini.lib) Mini.syntax_error)),
     Mem.start Mem.empty)
  /\ checkIncompatibleManifest (L := Mini.lib) Fixture.not_json
     = Some (regErrManifestInvalid (L := Mini.lib) Mini.syntax_error)
  /\ Status (regErrManifestInvalid (L := Mini.lib) Mini.syntax_error) = 400
  /\ Code (regErrManifestInvalid (L := Mini.lib) Mini.syntax_error) = "MANIFEST_INVALID".
Proof.
  refine (proj2 (handlePut_body_not_json (L := Mini.lib) (B := Mem.backend)
                   (Fixture.put "v1" Fixture.artifact_type Fixture.not_json) Fixture.repo "v1"
                   (Mem.start Mem.empty) Fixture.not_json Mini.syntax_error _ _) _ _);
    vm_compute; reflexivity.
Defined.

(* ===================================================================== *)
(** ** Listings: tags and catalog *)
(* ===================================================================== *)

Section Listings.

Context {W : Type} `{L : Lib} `{B : Backend W}.

(** The tail of the listing handlers on a fresh response and a healthy
    connection. *)
Lemma write_json_ok (msg : bytes) (contentType : option string) (s : St W) :
  sent (resp s) = None ->
  conn_err (resp s) = None ->
  exists r',
    write_json msg contentType s = (Some None, mkSt (world s) r' (calls s))
    /\ written r' = (written (resp s) ++ msg)%list
    /\ sent_status r' = Some 200
    /\ sent_header r' "Content-Length" = Some (Sprint_int (blen msg))
    /\ (forall ct, contentType = Some ct -> sent_header r' "Content-Type" = Some ct).
Proof.
  intros Hfresh Hconn. unfold write_json.
  step.
  destruct contentType as [ct|].
  - repeat step.
    unfold Response_Copy, Response_WriteHeader, Response_Set. cbn [sent conn_err written].
    rewrite Hfresh, Hconn. cbn [sent conn_err written resp_Header].
    destruct msg as [|c msg'].
    + eexists. cbn [fst snd]. unfold ret. split; [reflexivity|].
      cbn [written sent_status sent_header sent]. rewrite app_nil_r.
      repeat split. now intros ? [= ->].
    + eexists. cbn [fst snd]. unfold ret. split; [reflexivity|].
      cbn [written sent_status sent_header sent].
      repeat split. now intros ? [= ->].
  - repeat step.
    unfold Response_Copy, Response_WriteHeader, Response_Set. cbn [sent conn_err written].
    rewrite Hfresh, Hconn. cbn [sent conn_err written resp_Header].
    destruct msg as [|c msg'].
    + eexists. cbn [fst snd]. unfold ret. split; [reflexivity|].
      cbn [written sent_status sent_header sent]. rewrite app_nil_r.
      repeat split. discriminate.
    + eexists. cbn [fst snd]. unfold ret. split; [reflexivity|].
      cbn [written sent_status sent_header sent].
      repeat split. discriminate.
Qed.

(** C7, as amended.  An authorized GET of the tag list: without [n], or with
    an empty [n], the store is asked for 10000 tags; with a non-empty [n]
    that [Atoi] refuses the answer is BAD_REQUEST (400) and the store is not
    called; with the tags the store returns, the answer is their marshalled
    listing under the repository name, with [Content-Length] its length. *)
Theorem handleTags_n (req : Request) (repo : string) (s : St W) :
  path_repo (URL_Path req) = Some repo ->
  Method req = MethodGet ->
  authz_Authorize repo ActionRead (world s) = None ->
  let ns := Values_Get (URL_Query req) "n" in
  let last := Values_Get (URL_Query req) "last" in
  (ns = "" ->
   exists r s',
     handleTags req s = (Some r, s')
     /\ calls s' = (calls s ++ [CAuthorize repo ActionRead; CListTags repo 10000 last])%list)
  /\ (forall v err,
        ns <> "" -> Atoi ns = (v, Some err) ->
        handleTags req s
        = (Some (Some {| Status := 400; Code := "BAD_REQUEST";
                         Message := "parsing n: " ++ Error err |}),
           mkSt (world s) (resp s) (calls s ++ [CAuthorize repo ActionRead]))
        /\ no_store_call [CAuthorize repo ActionRead] = true)
  /\ (forall n tags msg,
        (ns = "" /\ n = 10000) \/ (ns <> "" /\ Atoi ns = (n, None)) ->
        manifestHandler_ListTags repo n last (world s) = inr tags ->
        Marshal_listTags {| Name := repo; Tags := tags |} = inr msg ->
        sent (resp s) = None ->
        conn_err (resp s) = None ->
        exists s',
          handleTags req s = (Some None, s')
          /\ world s' = world s
          /\ calls s' = (calls s ++ [CAuthorize repo ActionRead; CListTags repo n last])%list
          /\ written (resp s') = (written (resp s) ++ msg)%list
          /\ sent_status (resp s') = Some 200
          /\ sent_header (resp s') "Content-Length" = Some (Sprint_int (blen msg))).
Proof.
  intros Hpath Hget Hauth ns last.
  assert (Hstart :
             handleTags req s
             = (let parsed :=
                  if String.eqb ns "" then inr 10000
                  else match Atoi ns with
                       | (_, Some err) =>
                           inl {| Status := StatusBadRequest; Code := "BAD_REQUEST";
                                  Message := "parsing n: " ++ Error err |}
                       | (parsed, None) => inr parsed
                       end in
                match parsed with
                | inl err => ret (Some err)
                | inr n =>
                    r <- query (CListTags repo n last) (manifestHandler_ListTags repo n last) ;;
                    match r with
                    | inl err =>
                        if errors_Is err ErrNameUnknown then ret (Some regErrNameUnknown)
                        else ret (Some (regErrInternal err))
                    | inr references =>
                        match Marshal_listTags {| Name := repo; Tags := references |} with
                        | inl err => ret (Some (regErrInternal err))
                        | inr msg => write_json msg None
                        end
                    end
                end) (mkSt (world s) (resp s) (calls s ++ [CAuthorize repo ActionRead]))).
  { unfold handleTags. rewrite Hpath. cbn [checked]. rewrite bind_ret_l.
    rewrite Hget. cbn [String.eqb MethodGet Ascii.eqb Bool.eqb].
    step. rewrite Hauth. reflexivity. }
  rewrite Hstart. clear Hstart. cbv zeta.
  assert (Hlist : forall n,
             exists r s',
               (r <- query (CListTags repo n last) (manifestHandler_ListTags repo n last) ;;
                match r with
                | inl err =>
                    if errors_Is err ErrNameUnknown then ret (Some regErrNameUnknown)
                    else ret (Some (regErrInternal err))
                | inr references =>
                    match Marshal_listTags {| Name := repo; Tags := references |} with
                    | inl err => ret (Some (regErrInternal err))
                    | inr msg => write_json msg None
                    end
                end) (mkSt (world s) (resp s) (calls s ++ [CAuthorize repo ActionRead]))
               = (Some r, s')
               /\ calls s'
                  = (calls s ++ [CAuthorize repo ActionRead; CListTags repo n last])%list).
  { intros n. step.
    assert (Hc : ((calls s ++ [CAuthorize repo ActionRead]) ++ [CListTags repo n last]
                  = calls s ++ [CAuthorize repo ActionRead; CListTags repo n last])%list)
      by now rewrite <- app_assoc.
    destruct (manifestHandler_ListTags repo n last (world s)) as [err|tags].
    - destruct (errors_Is err ErrNameUnknown); eexists; eexists; split; try reflexivity;
        exact Hc.
    - destruct (Marshal_listTags {| Name := repo; Tags := tags |}) as [err|msg].
      + eexists; eexists; split; try reflexivity; exact Hc.
      + unfold write_json. repeat step.
        match goal with
        | |- context [fst ?x] => destruct (fst x)
        end; eexists; eexists; split; try reflexivity; exact Hc. }
  split; [|split].
  - intros Hns. rewrite Hns. cbn [String.eqb]. apply Hlist.
  - intros v err Hns Hatoi.
    destruct (String.eqb_spec ns ""); [contradiction|].
    rewrite Hatoi. split; reflexivity.
  - intros n tags msg Hn Htags Hmsg Hfresh Hconn.
    assert (Hparsed : (if String.eqb ns "" then inr 10000
                       else match Atoi ns with
                            | (_, Some err) =>
                                inl {| Status := StatusBadRequest; Code := "BAD_REQUEST";
                                       Message := "parsing n: " ++ Error err |}
                            | (parsed, None) => inr parsed
                            end) = inr n).
    { destruct Hn as [[Hns ->]|[Hns Hatoi]].
      - now rewrite Hns.
      - destruct (String.eqb_spec ns ""); [contradiction|]. now rewrite Hatoi. }
    rewrite Hparsed. step. rewrite Htags, Hmsg.
    destruct (write_json_ok msg None
                (mkSt (world s) (resp s)
                   ((calls s ++ [CAuthorize repo ActionRead]) ++ [CListTags repo n last])))
      as (r' & Hrun & Hwritten & Hstatus & Hlen & _); auto.
    rewrite Hrun. eexists. split; [reflexivity|].
    cbn [world resp calls]. repeat split; auto.
    now rewrite <- app_assoc.
Qed.

(** The value [Atoi] returns next to an error: 0 for a syntax error, the
    largest or the smallest [int] for a range error. *)
Lemma Atoi_error_value (s0 : string) (v : Z) (err : error) :
  Atoi s0 = (v, Some err) ->
  (err = NumError "Atoi" s0 false /\ v = 0)
  \/ (err = NumError "Atoi" s0 true
      /\ (v = 9223372036854775807 \/ v = -9223372036854775808)).
Proof.
  unfold Atoi.
  destruct ((0 <? slen s0) && (slen s0 <? 19)).
  - destruct s0 as [|c rest]; [intros [= <- <-]; now left|].
    destruct ((Ascii.eqb c "-" || Ascii.eqb c "+")
              && (slen (if Ascii.eqb c "-" || Ascii.eqb c "+" then rest else String c rest)
                  <? 1));
      [intros [= <- <-]; now left|].
    destruct (Atoi_fast_loop _ 0); [discriminate|].
    intros [= <- <-]; now left.
  - unfold ParseInt.
    destruct s0 as [|c rest]; [intros [= <- <-]; now left|].
    change (2 ^ (intSize - 1)) with 9223372036854775808.
    destruct (ParseUint _) as [un| |].
    + destruct (negb (Ascii.eqb c "-") && (un >=? 9223372036854775808));
        [intros [= <- <-]; right; split; auto|].
      destruct (Ascii.eqb c "-" && (un >? 9223372036854775808));
        [intros [= <- <-]; right; split; auto|].
      discriminate.
    + intros [= <- <-]; now left.
    + destruct (Ascii.eqb c "-"); intros [= <- <-]; right; split; auto.
Qed.

(** C8, as amended.  A GET of the catalog: without [n], or with an empty
    [n], the store's [List] is called with 10000; with a non-empty [n] that
    [Atoi] refuses, [List] is called with the value [Atoi] returns next to
    its error (0 when the error is a syntax error, the largest or smallest
    [int] when it is a range error) and the parse error is not returned:
    when the store and the marshalling succeed on a healthy connection the
    handler returns no error. *)
Theorem handleCatalog_n (req : Request) (s : St W) :
  Method req = MethodGet ->
  let ns := Values_Get (URL_Query req) "n" in
  exists r s',
    handleCatalog req s = (Some r, s')
    /\ (ns = "" -> calls s' = (calls s ++ [CList 10000])%list)
    /\ (forall v err,
          ns <> "" -> Atoi ns = (v, Some err) ->
          calls s' = (calls s ++ [CList v])%list
          /\ ((err = NumError "Atoi" ns false /\ v = 0)
              \/ (err = NumError "Atoi" ns true
                  /\ (v = 9223372036854775807 \/ v = -9223372036854775808)))
          /\ (forall repos msg,
                manifestHandler_List v (world s) = inr repos ->
                Marshal_catalog {| Repos := repos |} = inr msg ->
                sent (resp s) = None ->
                conn_err (resp s) = None ->
                r = None)).
Proof.
  intros Hget ns. unfold handleCatalog. fold ns.
  rewrite Hget. cbn [String.eqb MethodGet Ascii.eqb Bool.eqb].
  set (n := if String.eqb ns "" then 10000 else fst (Atoi ns)).
  step.
  assert (Hrun : exists r s',
             match manifestHandler_List n (world s) with
             | inl err => ret (Some (regErrInternal err))
             | inr repos =>
                 match Marshal_catalog {| Repos := repos |} with
                 | inl err => ret (Some (regErrInternal err))
                 | inr msg => write_json msg None
                 end
             end (mkSt (world s) (resp s) (calls s ++ [CList n]))
             = (Some r, s')
             /\ calls s' = (calls s ++ [CList n])%list
             /\ (forall repos msg,
                   manifestHandler_List n (world s) = inr repos ->
                   Marshal_catalog {| Repos := repos |} = inr msg ->
                   sent (resp s) = None -> conn_err (resp s) = None -> r = None)).
  { destruct (manifestHandler_List n (world s)) as [err|repos] eqn:Hlist.
    - eexists; eexists; repeat split. discriminate.
    - destruct (Marshal_catalog {| Repos := repos |}) as [err|msg] eqn:Hmsg.
      + eexists; eexists; split; [reflexivity|]. split; [reflexivity|].
        intros repos' msg' [= <-] Hmsg'. congruence.
      + unfold write_json. repeat step.
        match goal with
        | |- context [fst ?x] => destruct (fst x) eqn:Hcopy
        end.
        * eexists; eexists; split; [reflexivity|]. split; [reflexivity|].
          intros repos' msg' [= <-] Hmsg' Hfresh Hconn. exfalso.
          rewrite Response_Copy_healthy in Hcopy; [discriminate|].
          now rewrite conn_err_WriteHeader.
        * eexists; eexists; split; [reflexivity|]. split; [reflexivity|]. reflexivity. }
  destruct Hrun as (r & s' & Hrun & Hcalls & Hnone).
  exists r, s'. split; [exact Hrun|]. split.
  - intros Hns. subst n. rewrite Hns in Hcalls. exact Hcalls.
  - intros v err Hns Hatoi.
    assert (Hn : n = v).
    { subst n. destruct (String.eqb_spec ns ""); [contradiction|]. now rewrite Hatoi. }
    rewrite Hn in *. repeat split; auto.
    now apply Atoi_error_value.
Qed.

End Listings.

Lemma handleTags_n_witness :
  (let run := handleTags (L := Mini.lib) (B := Mem.backend) (Fixture.list_tags ["5"])
                (Mem.start Fixture.pushed_image) in
   fst run = Some None
   /\ written (resp (snd run)) = Mini.text "{'name':'acme/app','tags':['v1']}"
   /\ sent_header (resp (snd run)) "Content-Length" = Some "33")
  /\ fst (handleTags (L := Mini.lib) (B := Mem.backend) (Fixture.list_tags ["x5"])
            (Mem.start Fixture.pushed_image))
     = Some (Some {| Status := 400; Code := "BAD_REQUEST";
                     Message := "parsing n: "
                                ++ Mini.Error (NumError "Atoi" "x5" false) |}).
Proof.
  split.
  - destruct (handleTags_n (L := Mini.lib) (B := Mem.backend) (Fixture.list_tags ["5"])
                Fixture.repo (Mem.start Fixture.pushed_image) eq_refl eq_refl eq_refl)
      as (_ & _ & Hok).
    destruct (Hok 5 ["v1"] (Mini.text "{'name':'acme/app','tags':['v1']}"))
      as (s' & Hrun & _ & _ & Hwritten & _ & Hlen);
      try (vm_compute; reflexivity).
    { right. split; [discriminate | reflexivity]. }
    cbv zeta. rewrite Hrun. conjuncts; first [assumption | reflexivity].
  - destruct (handleTags_n (L := Mini.lib) (B := Mem.backend) (Fixture.list_tags ["x5"])
                Fixture.repo (Mem.start Fixture.pushed_image) eq_refl eq_refl eq_refl)
      as (_ & Hbad & _).
    destruct (Hbad 0 (NumError "Atoi" "x5" false)) as (Hrun & _);
      [discriminate | reflexivity |].
    rewrite Hrun. reflexivity.
Defined.

(** C7 as stated fails: in [?n=] the parameter is present and fails integer
    parsing, yet the handler does not answer BAD_REQUEST: it asks the store
    for 10000 tags and answers 200 with the listing. *)
Lemma handleTags_empty_n_is_not_bad_request :
  let run := handleTags (L := Mini.lib) (B := Mem.backend) (Fixture.list_tags [""])
               (Mem.start Fixture.pushed_image) in
  Values_lookup (URL_Query (Fixture.list_tags [""])) "n" = [""]
  /\ Atoi "" = (0, Some (NumError "Atoi" "" false))
  /\ fst run = Some None
  /\ calls (snd run) = [CAuthorize Fixture.repo ActionRead; CListTags Fixture.repo 10000 ""]
  /\ sent_status (resp (snd run)) = Some 200
  /\ written (resp (snd run)) = Mini.text "{'name':'acme/app','tags':['v1']}".
Proof. cbv zeta. conjuncts; vm_compute; reflexivity. Qed.

Lemma handleCatalog_n_witness :
  calls (snd (handleCatalog (L := Mini.lib) (B := Mem.backend) (Fixture.list_catalog ["x5"])
                (Mem.start Fixture.pushed_image)))
  = [CList 0]
  /\ calls (snd (handleCatalog (L := Mini.lib) (B := Mem.backend) (Fixture.list_catalog [])
                   (Mem.start Fixture.pushed_image)))
     = [CList 10000]
  /\ calls (snd (handleCatalog (L := Mini.lib) (B := Mem.backend) (Fixture.list_catalog [""])
                   (Mem.start Fixture.pushed_image)))
     = [CList 10000]
  /\ calls (snd (handleCatalog (L := Mini.lib) (B := Mem.backend)
                   (Fixture.list_catalog ["99999999999999999999x"])
                   (Mem.start Fixture.pushed_image)))
     = [CList 9223372036854775807].
Proof.
  conjuncts.
  - destruct (handleCatalog_n (L := Mini.lib) (B := Mem.backend) (Fixture.list_catalog ["x5"])
                (Mem.start Fixture.pushed_image) eq_refl)
      as (r & s' & Hrun & _ & Hbad).
    destruct (Hbad 0 (NumError "Atoi" "x5" false)) as (Hcalls & _);
      [discriminate | reflexivity |].
    rewrite Hrun. exact Hcalls.
  - destruct (handleCatalog_n (L := Mini.lib) (B := Mem.backend) (Fixture.list_catalog [])
                (Mem.start Fixture.pushed_image) eq_refl)
      as (r & s' & Hrun & Habsent & _).
    rewrite Hrun. exact (Habsent eq_refl).
  - destruct (handleCatalog_n (L := Mini.lib) (B := Mem.backend) (Fixture.list_catalog [""])
                (Mem.start Fixture.pushed_image) eq_refl)
      as (r & s' & Hrun & Hempty & _).
    rewrite Hrun. exact (Hempty eq_refl).
  - destruct (handleCatalog_n (L := Mini.lib) (B := Mem.backend)
                (Fixture.list_catalog ["99999999999999999999x"])
                (Mem.start Fixture.pushed_image) eq_refl)
      as (r & s' & Hrun & _ & Hbad).
    destruct (Hbad 9223372036854775807 (NumError "Atoi" "99999999999999999999x" true))
      as (Hcalls & _); [discriminate | vm_compute; reflexivity |].
    rewrite Hrun. exact Hcalls.
Defined.

(** C8 as stated fails: [n=99999999999999999999] fails integer parsing, no
    error is returned, and the store's [List] is called with the largest
    [int], not with 0. *)
Lemma handleCatalog_out_of_range_n_is_not_zero :
  Atoi "99999999999999999999"
  = (9223372036854775807, Some (NumError "Atoi" "99999999999999999999" true))
  /\ fst (handleCatalog (L := Mini.lib) (B := Mem.backend)
            (Fixture.list_catalog ["99999999999999999999"]) (Mem.start Fixture.pushed_image))
     = Some None
  /\ calls (snd (handleCatalog (L := Mini.lib) (B := Mem.backend)
                   (Fixture.list_catalog ["99999999999999999999"])
                   (Mem.start Fixture.pushed_image)))
     = [CList 9223372036854775807]
  /\ calls (snd (handleCatalog (L := Mini.lib) (B := Mem.backend)
                   (Fixture.list_catalog ["99999999999999999999"])
                   (Mem.start Fixture.pushed_image)))
     <> [CList 0].
Proof.
  cbv zeta. conjuncts; try (vm_compute; reflexivity).
  vm_compute. discriminate.
Qed.

(* ===================================================================== *)
(** ** Referrers *)
(* ===================================================================== *)

Section Referrers.

Context {W : Type} `{L : Lib} `{B : Backend W}.

(** Over manifests the store has, the loop appends the referrers of the
    target in order. *)
Lemma referrers_loop_run (repo target : string) (entries : list entry) :
  forall (found : list v1_Descriptor) (s : St W),
  Forall (stored_as repo (world s)) entries ->
  exists cs,
    referrers_loop repo target (map entry_digest entries) found s
    = (Some (inr (found ++ spec_referrers target entries)%list),
       mkSt (world s) (resp s) (calls s ++ cs)).
Proof.
  induction entries as [|e rest IH]; intros found s Hall.
  - exists []. cbn. rewrite !app_nil_r. now destruct s.
  - inversion Hall as [|? ? [Hrecord Hblob] Hrest]; subst.
    cbn [map referrers_loop].
    step. rewrite Hrecord. step. rewrite Hblob. cbn [io_Copy delivered read_err].
    unfold spec_referrers. cbn [flat_map]. fold (spec_referrers target rest).
    unfold spec_refers_to at 1.
    destruct (Unmarshal_Subject (entry_body e)) as [subject|].
    + destruct (String.eqb (Hash_String (Digest subject)) target); cbn [negb].
      * match goal with
        | |- context [referrers_loop _ _ _ ?f ?s1] =>
            destruct (IH f s1) as (cs & Hrun); [exact Hrest|]; rewrite Hrun
        end.
        cbn [world resp calls]. eexists.
        rewrite <- !app_assoc. reflexivity.
      * match goal with
        | |- context [referrers_loop _ _ _ ?f ?s1] =>
            destruct (IH f s1) as (cs & Hrun); [exact Hrest|]; rewrite Hrun
        end.
        cbn [world resp calls]. eexists.
        rewrite <- !app_assoc. reflexivity.
    + match goal with
      | |- context [referrers_loop _ _ _ ?f ?s1] =>
          destruct (IH f s1) as (cs & Hrun); [exact Hrest|]; rewrite Hrun
      end.
      cbn [world resp calls]. eexists.
      rewrite <- !app_assoc. reflexivity.
Qed.

(** C4.  An authorized GET of the referrers of a valid digest, in a
    repository whose digests the store lists and whose manifests it serves,
    is answered 200 with the marshalled OCI image index (schema version 2,
    the image-index media type) that holds exactly one descriptor for each
    listed manifest whose [subject.digest] is the target, built from the
    record's content type, the body length, the manifest's digest and the
    body's [config.mediaType] (empty when none is decoded), and nothing for
    the other manifests. *)
Theorem handleReferrers_index
    (req : Request) (repo target : string) (s : St W) (h : Hash)
    (entries : list entry) (msg : bytes) :
  Method req = MethodGet ->
  path_target (URL_Path req) = Some target ->
  path_repo (URL_Path req) = Some repo ->
  authz_AuthorizeReference repo target ActionRead (world s) = None ->
  NewHash target = inr h ->
  manifestHandler_ListDigests repo (world s) = inr (map entry_digest entries) ->
  Forall (stored_as repo (world s)) entries ->
  Marshal_IndexManifest (spec_referrers_index target entries) = inr msg ->
  sent (resp s) = None ->
  conn_err (resp s) = None ->
  exists s',
    handleReferrers req s = (Some None, s')
    /\ world s' = world s
    /\ written (resp s') = (written (resp s) ++ msg)%list
    /\ sent_status (resp s') = Some 200
    /\ sent_header (resp s') "Content-Type" = Some "application/vnd.oci.image.index.v1+json"
    /\ sent_header (resp s') "Content-Length" = Some (Sprint_int (blen msg)).
Proof.
  intros Hget Htarget Hrepo Hauth Hhash Hlist Hall Hmsg Hfresh Hconn.
  unfold handleReferrers.
  rewrite Hget. cbn [String.eqb MethodGet Ascii.eqb Bool.eqb negb].
  rewrite Htarget, Hrepo. cbn [checked]. rewrite !bind_ret_l.
  step. rewrite Hauth, Hhash. step. rewrite Hlist.
  match goal with
  | |- context [bind (referrers_loop _ _ _ []) _ ?s1] =>
      destruct (referrers_loop_run repo target entries [] s1) as (cs & Hrun);
        [exact Hall|]
  end.
  erewrite bind_run; [|exact Hrun]. cbn [app].
  unfold spec_referrers_index in Hmsg. unfold OCIImageIndex at 1. rewrite Hmsg.
  match goal with
  | |- context [write_json msg ?ct ?s1] =>
      destruct (write_json_ok msg ct s1) as (r' & Hw & Hwritten & Hstatus & Hlen & Hct);
        [exact Hfresh | exact Hconn |]
  end.
  rewrite Hw. eexists. split; [reflexivity|].
  cbn [world resp calls] in *. repeat split; auto.
Qed.

End Referrers.

Lemma handleReferrers_index_witness :
  let run := handleReferrers (L := Mini.lib) (B := Mem.backend)
               (Fixture.referrers (Hash_String Fixture.image_digest))
               (Mem.start Fixture.pushed_artifact) in
  let expected :=
    Mini.text ("{'schemaVersion':2,'mediaType':'application/vnd.oci.image.index.v1+json','manifests':[{'mediaType':'application/vnd.oci.image.manifest.v1+json','size':340,'digest':'"
               ++ Hash_String (Mini.SHA256 Fixture.artifact_body)
               ++ "','artifactType':'application/vnd.example.sbom'}]}") in
  fst run = Some None
  /\ written (resp (snd run)) = expected
  /\ sent_status (resp (snd run)) = Some 200
  /\ sent_header (resp (snd run)) "Content-Type"
     = Some "application/vnd.oci.image.index.v1+json".
Proof.
  destruct (handleReferrers_index (L := Mini.lib) (B := Mem.backend)
              (Fixture.referrers (Hash_String Fixture.image_digest)) Fixture.repo
              (Hash_String Fixture.image_digest) (Mem.start Fixture.pushed_artifact)
              Fixture.image_digest
              [(Fixture.image_digest, Fixture.image_record, Fixture.image_body);
               (Mini.SHA256 Fixture.artifact_body, Fixture.artifact_record,
                Fixture.artifact_body)]
              (Mini.text ("{'schemaVersion':2,'mediaType':'application/vnd.oci.image.index.v1+json','manifests':[{'mediaType':'application/vnd.oci.image.manifest.v1+json','size':340,'digest':'"
                          ++ Hash_String (Mini.SHA256 Fixture.artifact_body)
                          ++ "','artifactType':'application/vnd.example.sbom'}]}")))
    as (s' & Hrun & _ & Hwritten & Hstatus & Hct & _);
    try (vm_compute; reflexivity).
  { apply Forall_cons; [split; vm_compute; reflexivity|].
    apply Forall_cons; [split; vm_compute; reflexivity|].
    apply Forall_nil. }
  cbv zeta. rewrite Hrun. cbn [fst snd]. conjuncts; first [assumption | reflexivity].
Defined.

(* ===================================================================== *)
(** ** The round trip of a manifest *)
(* ===================================================================== *)

Section RoundTrip.

Context {W : Type} `{L : Lib} `{B : Backend W}.

Lemma audit_pull_run (repo target : string) (s : St W) :
  exists s', audit_pull repo target s = (Some tt, s') /\ resp s' = resp s.
Proof.
  unfold audit_pull. rewrite bind_command. cbn [world resp calls].
  destruct (fst (audit_AuditPull repo target (world s))); eexists; split; reflexivity.
Qed.

(** A GET whose blob the store delivers. *)
Lemma handleGet_bytes (req : Request) (repo target : string) (s : St W)
    (m : Manifest) (buf : bytes) :
  manifestHandler_Get repo target (world s) = inr m ->
  blobHandler_Get repo (Blob_Digest (Manifest_Blob m)) true (world s)
  = inr {| delivered := buf; read_err := None |} ->
  sent (resp s) = None ->
  conn_err (resp s) = None ->
  exists s',
    handleGet req repo target s = (Some None, s')
    /\ written (resp s') = (written (resp s) ++ buf)%list
    /\ sent_status (resp s') = Some 200
    /\ sent_header (resp s') "Docker-Content-Digest"
       = Some (Hash_String (Blob_Digest (Manifest_Blob m)))
    /\ sent_header (resp s') "Content-Type" = Some (ContentType m)
    /\ sent_header (resp s') "Content-Length" = Some (Sprint_int (blen buf)).
Proof.
  intros Hm Hb Hfresh Hconn. unfold handleGet.
  step. rewrite Hm. step. rewrite Hb. cbn [io_Copy delivered read_err].
  repeat step.
  match goal with
  | |- context [Response_Copy buf ?r] =>
      assert (Hr : Response_Copy buf r
                   = (None,
                      {| resp_Header := resp_Header r; sent := sent r;
                         written := (written (resp s) ++ buf)%list; conn_err := None |}))
  end.
  { unfold Response_Copy, Response_WriteHeader, Response_Set. cbn [sent conn_err written].
    rewrite Hfresh, Hconn. cbn [sent conn_err written resp_Header].
    destruct buf; [|reflexivity].
    rewrite app_nil_r. destruct (resp s) as [hd st wr ce]; cbn in *.
    now subst. }
  rewrite Hr. cbn [fst snd].
  match goal with
  | |- context [bind (audit_pull repo target) _ ?s1] =>
      destruct (audit_pull_run repo target s1) as (s' & Hrun & Hresp)
  end.
  erewrite bind_run; [|exact Hrun]. unfold ret.
  eexists. split; [reflexivity|]. rewrite Hresp. cbn [resp written].
  unfold sent_status, sent_header, Response_WriteHeader, Response_Set.
  cbn [sent resp_Header]. rewrite Hfresh. cbn [sent].
  repeat split.
Qed.

(** A GET whose blob the store redirects to: the pull is audited and the
    answer is the redirect. *)
Lemma handleGet_redirect (req : Request) (repo target : string) (s : St W)
    (m : Manifest) (err : error) (location : string) (code : Z) :
  manifestHandler_Get repo target (world s) = inr m ->
  blobHandler_Get repo (Blob_Digest (Manifest_Blob m)) true (world s) = inl err ->
  errors_As_Redirect err = Some (location, code) ->
  exists s',
    handleGet req repo target s = (Some None, s')
    /\ resp s' = http_Redirect req location code (resp s).
Proof.
  intros Hm Hb Hr. unfold handleGet.
  step. rewrite Hm. step. rewrite Hb, Hr.
  match goal with
  | |- context [bind (audit_pull repo target) _ ?s1] =>
      destruct (audit_pull_run repo target s1) as (s' & Hrun & Hresp)
  end.
  erewrite bind_run; [|exact Hrun]. step. unfold ret.
  eexists. split; [reflexivity|]. cbn [resp]. now rewrite Hresp.
Qed.

(** C1, as amended.  A PUT of body B that returns no error has put the blob
    under sha256(B) and then, inside one transaction, the record under
    sha256(B) and under the target.  With stores that keep their contract,
    both references then resolve to that record, and a GET by either of them
    answers from the blob under sha256(B): with 200, the bytes B and
    [Docker-Content-Digest] sha256(B) when the blob store delivers the bytes,
    and with the redirect when it answers with a redirect directive. *)
Theorem handlePut_then_handleGet
    (req : Request) (repo target : string) (s s' : St W) :
  store_laws B ->
  handlePut req repo target s = (Some None, s') ->
  exists buf blobs cs,
    io_Copy (Body req) = (buf, None)
    /\ calls s' = (calls s ++ cs ++ put_calls req repo target buf blobs)%list
    /\ no_store_write cs = true
    /\ manifestHandler_Get repo target (world s') = inr (put_record req buf)
    /\ manifestHandler_Get repo (Hash_String (SHA256 buf)) (world s')
       = inr (put_record req buf)
    /\ forall (greq : Request) (reference : string),
         reference = target \/ reference = Hash_String (SHA256 buf) ->
         (blobHandler_Get repo (SHA256 buf) true (world s')
          = inr {| delivered := buf; read_err := None |}
          /\ exists g,
               handleGet greq repo reference (fresh (world s')) = (Some None, g)
               /\ written (resp g) = buf
               /\ sent_status (resp g) = Some 200
               /\ sent_header (resp g) "Docker-Content-Digest"
                  = Some (Hash_String (SHA256 buf)))
         \/ (exists err location code g,
               blobHandler_Get repo (SHA256 buf) true (world s') = inl err
               /\ errors_As_Redirect err = Some (location, code)
               /\ handleGet greq repo reference (fresh (world s')) = (Some None, g)
               /\ resp g = http_Redirect greq location code (new_Response None)).
Proof.
  intros Hlaws Hput.
  destruct (handlePut_success_inv req repo target _ _ Hput)
    as (buf & blobs & cs & Put & Hbody & _ & Hcap & Hw & H1 & H2 & H3 & ->).
  set (ct := Header_Get (Header req) "Content-Type") in *.
  set (d := SHA256 buf) in *.
  set (r1 := Put repo d ct buf (world s)) in *.
  set (r2 := manifestHandler_Put repo (Hash_String d) (put_record req buf) blobs (snd r1)) in *.
  set (r3 := manifestHandler_Put repo target (put_record req buf) blobs (snd r2)) in *.
  assert (E1 : Put repo d ct buf (world s) = (None, snd r1))
    by (fold r1; rewrite <- H1; apply surjective_pairing).
  assert (E2 : manifestHandler_Put repo (Hash_String d) (put_record req buf) blobs (snd r1)
               = (None, snd r2))
    by (fold r2; rewrite <- H2; apply surjective_pairing).
  assert (E3 : manifestHandler_Put repo target (put_record req buf) blobs (snd r2)
               = (None, snd r3))
    by (fold r3; rewrite <- H3; apply surjective_pairing).
  assert (Gt : manifestHandler_Get repo target (snd r3) = inr (put_record req buf))
    by (eapply (manifest_put_get B Hlaws); exact E3).
  assert (Gd : manifestHandler_Get repo (Hash_String d) (snd r3) = inr (put_record req buf)).
  { destruct (string_dec (Hash_String d) target) as [->|Hne]; [exact Gt|].
    eapply (manifest_put_frame B Hlaws); [exact E3 | exact Hne |].
    eapply (manifest_put_get B Hlaws); exact E2. }
  assert (Gb : blobHandler_Get repo d true (snd r3) = blobHandler_Get repo d true (snd r1)).
  { etransitivity; eapply (manifest_put_blobs B Hlaws); [exact E3 | exact E2]. }
  exists buf, blobs, cs. cbn [world calls]. repeat split; auto.
  intros greq reference Href.
  assert (Gr : manifestHandler_Get repo reference (world (fresh (snd r3)))
               = inr (put_record req buf))
    by (destruct Href as [->| ->]; assumption).
  destruct (blob_put_get B Hlaws Put repo d ct buf (world s) (snd r1) true Hcap E1)
    as [Hbytes|(err & location & code & Herr & Hredirect)].
  - left. fold d. rewrite Gb. split; [exact Hbytes|].
    destruct (handleGet_bytes greq repo reference (fresh (snd r3)) (put_record req buf) buf Gr)
      as (g & Hrun & Hwritten & Hstatus & Hdigest & _); auto.
    { cbn [put_record Manifest_Blob Blob_Digest world fresh]. fold d. now rewrite Gb. }
    exists g. repeat split; auto.
  - right. exists err, location, code.
    destruct (handleGet_redirect greq repo reference (fresh (snd r3)) (put_record req buf)
                err location code Gr)
      as (g & Hrun & Hresp); auto.
    { cbn [put_record Manifest_Blob Blob_Digest world fresh]. fold d. now rewrite Gb. }
    exists g. fold d. rewrite Gb. repeat split; auto.
Qed.

End RoundTrip.

(* --------------------------------------------------------------------- *)
(** *** The in-memory stores keep the contract *)

Lemma find_filter_implied {A} (p q : A -> bool) (l : list A) :
  (forall x, p x = true -> q x = true) -> find p (filter q l) = find p l.
Proof.
  intros Hpq. induction l as [|x rest IH]; cbn; [reflexivity|].
  destruct (q x) eqn:Hq; cbn.
  - now rewrite IH.
  - destruct (p x) eqn:Hp; [|exact IH].
    apply Hpq in Hp. congruence.
Qed.

Lemma Hash_eqb_refl (d : Hash) : Mem.Hash_eqb d d = true.
Proof. unfold Mem.Hash_eqb. now rewrite !String.eqb_refl. Qed.

Lemma Mem_Put_manifests (repo reference : string) (m : Manifest) (deps : list Blob)
    (w w' : Mem.World) :
  Mem.Put repo reference m deps w = (None, w') ->
  w' = Mem.with_manifests w
         ((repo, reference, m)
            :: filter (fun e => negb (Mem.same_reference repo reference e))
                 (Mem.mem_manifests w)).
Proof.
  unfold Mem.Put. destruct (Mem.mem_quota w) as [q|].
  - destruct (q <=? _)%nat; [discriminate|]. now intros [= <-].
  - now intros [= <-].
Qed.

Lemma Mem_store_laws : store_laws Mem.backend.
Proof.
  constructor; cbn [manifestHandler_Get manifestHandler_Put blobHandler_Get blobHandler_Put
                      Mem.backend].
  - intros repo reference m deps w w' Hput.
    apply Mem_Put_manifests in Hput. subst w'.
    unfold Mem.Get, Mem.with_manifests. cbn [Mem.mem_manifests find].
    unfold Mem.same_reference at 1. cbn [fst snd].
    now rewrite !String.eqb_refl.
  - intros repo reference m deps w w' reference' m' Hput Hne Hget.
    apply Mem_Put_manifests in Hput. subst w'.
    unfold Mem.Get in *. unfold Mem.with_manifests. cbn [Mem.mem_manifests find].
    unfold Mem.same_reference at 1. cbn [fst snd].
    destruct (String.eqb_spec reference reference') as [Heq|_]; [congruence|].
    rewrite andb_false_r.
    rewrite find_filter_implied.
    + destruct (find (Mem.same_reference repo reference') (Mem.mem_manifests w));
        [exact Hget|].
      destruct (existsb _ _); discriminate.
    + intros [[r0 ref0] m0]. unfold Mem.same_reference. cbn [fst snd].
      intros Hsame. apply andb_true_iff in Hsame as [_ Href].
      apply String.eqb_eq in Href. subst ref0.
      destruct (String.eqb_spec reference' reference) as [Heq|_]; [congruence|].
      now rewrite andb_false_r.
  - intros repo reference m deps w e w' d allowRedirect Hput.
    unfold Mem.Put in Hput.
    destruct (Mem.mem_quota w) as [q|]; [destruct (q <=? _)%nat|];
      injection Hput as <- <-; reflexivity.
  - intros Put repo d contentType data w w' allowRedirect [= <-] [= <-].
    unfold Mem.blob_Get. cbn [Mem.mem_redirect Mem.mem_blobs find].
    destruct (if allowRedirect then Mem.mem_redirect w else None) as [[location code]|].
    + right. exists (RedirectError (location ++ Hash_String d) code).
      eexists; eexists. split; reflexivity.
    + left. unfold Mem.same_blob at 1. cbn [fst snd].
      now rewrite String.eqb_refl, Hash_eqb_refl.
Qed.

Lemma handlePut_then_handleGet_witness :
  let put := handlePut (L := Mini.lib) (B := Mem.backend)
               (Fixture.put "v1" OCIManifestSchema1 Fixture.image_body) Fixture.repo "v1"
               (Mem.start Mem.empty) in
  let digest := Hash_String (SHA256 (Lib := Mini.lib) Fixture.image_body) in
  (exists g,
     handleGet (L := Mini.lib) (B := Mem.backend) (Fixture.get "v1") Fixture.repo "v1"
       (fresh (world (snd put)))
     = (Some None, g)
     /\ written (resp g) = Fixture.image_body
     /\ sent_status (resp g) = Some 200
     /\ sent_header (resp g) "Docker-Content-Digest" = Some digest)
  /\ (exists g,
        handleGet (L := Mini.lib) (B := Mem.backend) (Fixture.get digest) Fixture.repo digest
          (fresh (world (snd put)))
        = (Some None, g)
        /\ written (resp g) = Fixture.image_body
        /\ sent_status (resp g) = Some 200
        /\ sent_header (resp g) "Docker-Content-Digest" = Some digest).
Proof.
  cbv zeta.
  destruct (handlePut_then_handleGet (L := Mini.lib) (B := Mem.backend)
              (Fixture.put "v1" OCIManifestSchema1 Fixture.image_body) Fixture.repo "v1"
              (Mem.start Mem.empty)
              (snd (handlePut (L := Mini.lib) (B := Mem.backend)
                      (Fixture.put "v1" OCIManifestSchema1 Fixture.image_body)
                      Fixture.repo "v1" (Mem.start Mem.empty)))
              Mem_store_laws)
    as (buf & blobs & cs & Hbody & _ & _ & _ & _ & Hget).
  { vm_compute. reflexivity. }
  injection Hbody as <-.
  assert (Hserved :
            blobHandler_Get (Backend := Mem.backend) Fixture.repo
              (SHA256 (Lib := Mini.lib) Fixture.image_body) true
              (world (snd (handlePut (L := Mini.lib) (B := Mem.backend)
                             (Fixture.put "v1" OCIManifestSchema1 Fixture.image_body)
                             Fixture.repo "v1" (Mem.start Mem.empty))))
            = inr {| delivered := Fixture.image_body; read_err := None |})
    by (vm_compute; reflexivity).
  split.
  - destruct (Hget (Fixture.get "v1") "v1" (or_introl eq_refl))
      as [(_ & g & Hrun & Hwritten & Hstatus & Hdigest)
         |(err & location & code & g & Hblob & _)].
    + exists g. conjuncts; first [assumption | reflexivity].
    + rewrite Hserved in Hblob. discriminate Hblob.
  - destruct (Hget (Fixture.get (Hash_String (SHA256 (Lib := Mini.lib) Fixture.image_body)))
                (Hash_String (SHA256 (Lib := Mini.lib) Fixture.image_body))
                (or_intror eq_refl))
      as [(_ & g & Hrun & Hwritten & Hstatus & Hdigest)
         |(err & location & code & g & Hblob & _)].
    + exists g. conjuncts; first [assumption | reflexivity].
    + rewrite Hserved in Hblob. discriminate Hblob.
Defined.

(** C1 as stated fails: with a blob store that answers [Get] with a redirect
    directive the PUT succeeds, and the GET by the tag is answered with the
    redirect (307): no byte of the body is written and the response has no
    [Docker-Content-Digest] header. *)
Lemma handleGet_after_handlePut_redirects :
  let put := handlePut (L := Mini.lib) (B := Mem.backend)
               (Fixture.put "v1" OCIManifestSchema1 Fixture.image_body) Fixture.repo "v1"
               (Mem.start (Fixture.redirecting Mem.empty)) in
  let g := handleGet (L := Mini.lib) (B := Mem.backend) (Fixture.get "v1") Fixture.repo "v1"
             (fresh (world (snd put))) in
  fst put = Some None
  /\ sent_status (resp (snd put)) = Some 201
  /\ fst g = Some None
  /\ sent_status (resp (snd g)) = Some 307
  /\ written (resp (snd g)) = []
  /\ written (resp (snd g)) <> Fixture.image_body
  /\ sent_header (resp (snd g)) "Docker-Content-Digest" = None
  /\ sent_header (resp (snd g)) "Location"
     = Some ("https://blobs.example/" ++ Hash_String (Mini.SHA256 Fixture.image_body)).
Proof.
  cbv zeta. conjuncts; try (vm_compute; reflexivity).
  vm_compute. discriminate.
Qed.

(* ===================================================================== *)
(** ** Every run of GET and HEAD *)
(* ===================================================================== *)

Section Pulls.

Context {W : Type} `{L : Lib} `{B : Backend W}.

Lemma audit_pull_calls (repo target : string) (s : St W) :
  audit_pull repo target s
  = (Some tt,
     mkSt (snd (audit_AuditPull repo target (world s))) (resp s)
       (calls s ++ audit_calls repo target (fst (audit_AuditPull repo target (world s))))).
Proof.
  unfold audit_pull, audit_calls. rewrite bind_command. cbn [world resp calls].
  destruct (fst (audit_AuditPull repo target (world s))).
  - unfold log_call. cbn [world resp calls]. now rewrite <- app_assoc.
  - reflexivity.
Qed.

Lemma count_audit_app (a b : list Call) :
  count_audit (a ++ b) = (count_audit a + count_audit b)%nat.
Proof. unfold count_audit. now rewrite filter_app, length_app. Qed.

Lemma count_audit_calls (repo target : string) (e : option error) :
  count_audit (audit_calls repo target e) = 1%nat.
Proof. now destruct e. Qed.

Lemma no_store_write_audit (repo target : string) (e : option error) :
  no_store_write (audit_calls repo target e) = true.
Proof. now destruct e. Qed.

Lemma sent_Response_Copy (data : bytes) (r : Response) (x : Z * HeaderMap) :
  sent r = Some x -> sent (snd (Response_Copy data r)) = Some x.
Proof.
  intros H. unfold Response_Copy. destruct data; [exact H|].
  destruct (conn_err r); [exact H|].
  cbn [snd sent]. unfold Response_WriteHeader. now rewrite H.
Qed.

Ltac run_done :=
  eexists; eexists; eexists; split; [reflexivity|]; cbn [calls world resp];
  split; [rewrite <- ?app_assoc; reflexivity|];
  rewrite ?no_store_write_app, ?count_audit_app, ?no_store_write_audit, ?count_audit_calls;
  repeat split; try discriminate;
  try (let H := fresh in intros H; now contradiction H).

(** Every run of [handleGet]: it returns, it never reaches a [Put], it
    audits once when it answers without error and not at all otherwise, and
    leaves the world alone when it answers with an error. *)
Lemma handleGet_run (req : Request) (repo target : string) (s : St W) :
  exists r cs s',
    handleGet req repo target s = (Some r, s')
    /\ calls s' = (calls s ++ cs)%list
    /\ no_store_write cs = true
    /\ count_audit cs = match r with None => 1%nat | Some _ => 0%nat end
    /\ (r <> None -> world s' = world s).
Proof.
  unfold handleGet. step.
  destruct (manifestHandler_Get repo target (world s)) as [err|m]; [run_done|].
  step.
  destruct (blobHandler_Get repo (Blob_Digest (Manifest_Blob m)) true (world s)) as [err|rd].
  - destruct (errors_As_Redirect err) as [[location code]|]; [|run_done].
    rewrite bind_run with (1 := audit_pull_calls repo target _).
    step. unfold ret. run_done.
  - destruct (io_Copy rd) as [buf [err|]]; [run_done|].
    repeat step.
    match goal with |- context [fst ?x] => destruct (fst x) end; [run_done|].
    rewrite bind_run with (1 := audit_pull_calls repo target _). unfold ret. run_done.
Qed.

(** Every run of [handleHead]: as for [handleGet], and no byte of a body is
    written. *)
Lemma handleHead_run (req : Request) (repo target : string) (s : St W) :
  exists r cs s',
    handleHead req repo target s = (Some r, s')
    /\ calls s' = (calls s ++ cs)%list
    /\ no_store_write cs = true
    /\ count_audit cs = match r with None => 1%nat | Some _ => 0%nat end
    /\ (r <> None -> world s' = world s)
    /\ written (resp s') = written (resp s).
Proof.
  unfold handleHead. step.
  destruct (manifestHandler_Get repo target (world s)) as [err|m]; [run_done|].
  destruct blobHandler_Stat as [Stat|]; [|run_done].
  step.
  destruct (Stat repo (Blob_Digest (Manifest_Blob m)) (world s)) as [err|l]; [run_done|].
  rewrite bind_run with (1 := audit_pull_calls repo target _).
  repeat step. unfold ret. run_done.
  unfold Response_WriteHeader, Response_Set. cbn [sent written].
  now destruct (sent (resp s)).
Qed.

(** X1.  A GET and a HEAD audit the pull exactly once when they answer
    without error, whatever the auditor returns, and not at all when they
    answer with an error; neither ever reaches a [Put] of a store. *)
Theorem pulls_audited_exactly_on_success (req : Request) (repo target : string) (s : St W) :
  (exists r cs s',
     handleGet req repo target s = (Some r, s')
     /\ calls s' = (calls s ++ cs)%list
     /\ count_audit cs = match r with None => 1%nat | Some _ => 0%nat end
     /\ no_store_write cs = true)
  /\ (exists r cs s',
        handleHead req repo target s = (Some r, s')
        /\ calls s' = (calls s ++ cs)%list
        /\ count_audit cs = match r with None => 1%nat | Some _ => 0%nat end
        /\ no_store_write cs = true).
Proof.
  split.
  - destruct (handleGet_run req repo target s) as (r & cs & s' & H1 & H2 & H3 & H4 & _).
    exists r, cs, s'. auto.
  - destruct (handleHead_run req repo target s) as (r & cs & s' & H1 & H2 & H3 & H4 & _).
    exists r, cs, s'. auto.
Qed.

(** X2.  When the manifest store does not find the reference, GET and HEAD
    give the same answer after that one call, without consulting the blob
    store or the auditor: the unknown-name error for an unknown name,
    otherwise the unknown-manifest error for an unknown manifest, otherwise
    the internal error of the store's error. *)
Theorem pull_lookup_failure (req : Request) (repo target : string) (s : St W) (err : error) :
  manifestHandler_Get repo target (world s) = inl err ->
  let e := if errors_Is err ErrNameUnknown then regErrNameUnknown
           else if errors_Is err ErrManifestUnknown then regErrManifestUnknown
           else regErrInternal err in
  let s' := mkSt (world s) (resp s) (calls s ++ [CManifestGet repo target]) in
  handleGet req repo target s = (Some (Some e), s')
  /\ handleHead req repo target s = (Some (Some e), s').
Proof.
  intros Hget e s'. subst e s'.
  unfold handleGet, handleHead. rewrite !bind_query. rewrite Hget.
  unfold manifest_lookup_regError.
  destruct (errors_Is err ErrNameUnknown); destruct (errors_Is err ErrManifestUnknown);
    split; reflexivity.
Qed.

(** X3.  HEAD agrees with GET.  When the record is found, the blob store
    delivers the bytes and its [Stat] reports their length, HEAD and GET send
    the same status and the same headers, and HEAD writes no byte of a
    body while GET writes the blob. *)
Theorem handleHead_agrees_with_handleGet
    (req : Request) (repo target : string) (s : St W) (m : Manifest) (buf : bytes)
    (Stat : string -> Hash -> W -> error + Z) :
  manifestHandler_Get repo target (world s) = inr m ->
  blobHandler_Get repo (Blob_Digest (Manifest_Blob m)) true (world s)
  = inr {| delivered := buf; read_err := None |} ->
  blobHandler_Stat = Some Stat ->
  Stat repo (Blob_Digest (Manifest_Blob m)) (world s) = inr (blen buf) ->
  sent (resp s) = None ->
  conn_err (resp s) = None ->
  exists g h,
    handleGet req repo target s = (Some None, g)
    /\ handleHead req repo target s = (Some None, h)
    /\ sent (resp h) = sent (resp g)
    /\ sent_status (resp h) = Some 200
    /\ sent_header (resp h) "Content-Length" = Some (Sprint_int (blen buf))
    /\ written (resp h) = written (resp s)
    /\ written (resp g) = (written (resp s) ++ buf)%list.
Proof.
  intros Hm Hb Hcap Hstat Hfresh Hconn.
  unfold handleGet, handleHead.
  rewrite !bind_query. cbn [world resp calls]. rewrite Hm, Hcap.
  rewrite !bind_query. cbn [world resp calls]. rewrite Hb, Hstat.
  cbn [io_Copy delivered read_err].
  rewrite bind_run with (1 := audit_pull_calls repo target _).
  repeat step.
  rewrite Response_Copy_healthy
    by (rewrite conn_err_WriteHeader; exact Hconn).
  rewrite bind_run with (1 := audit_pull_calls repo target _).
  unfold ret. eexists; eexists. split; [reflexivity|]. split; [reflexivity|].
  cbn [resp].
  assert (Hsent : sent (Response_WriteHeader StatusOK
                          (Response_Set "Content-Length" (Sprint_int (blen buf))
                             (Response_Set "Content-Type" (ContentType m)
                                (Response_Set "Docker-Content-Digest"
                                   (Hash_String (Blob_Digest (Manifest_Blob m))) (resp s)))))
                  = Some (200,
                          Header_Set
                            (Header_Set
                               (Header_Set (resp_Header (resp s)) "Docker-Content-Digest"
                                  (Hash_String (Blob_Digest (Manifest_Blob m))))
                               "Content-Type" (ContentType m))
                            "Content-Length" (Sprint_int (blen buf)))).
  { unfold Response_WriteHeader, Response_Set. cbn [sent resp_Header]. now rewrite Hfresh. }
  split; [|split; [|split; [|split]]].
  - rewrite Hsent. symmetry. apply sent_Response_Copy. exact Hsent.
  - unfold sent_status. now rewrite Hsent.
  - unfold sent_header. now rewrite Hsent.
  - unfold Response_WriteHeader, Response_Set. cbn [sent written]. now rewrite Hfresh.
  - unfold Response_Copy. destruct buf as [|c rest].
    + cbn [snd]. unfold Response_WriteHeader, Response_Set. cbn [sent written].
      rewrite Hfresh. cbn [written]. now rewrite app_nil_r.
    + rewrite conn_err_WriteHeader. cbn [conn_err Response_Set]. rewrite Hconn.
      cbn [snd written]. unfold Response_WriteHeader, Response_Set. cbn [sent written].
      rewrite Hfresh. cbn [sent written]. reflexivity.
Qed.

End Pulls.

(* ===================================================================== *)
(** ** PUT: storing, and failing to store *)
(* ===================================================================== *)

Section PutStores.

Context {W : Type} `{L : Lib} `{B : Backend W}.

(** The two steps of [handlePut] after the checks: the blob, then the
    transaction.  [w1] is the world after the blob [Put]; the manifest
    [Put]s run in it one after the other. *)
Lemma handlePut_after_checks (req : Request) (repo target : string) (s s1 : St W)
    (buf : bytes) (blobs : list Blob) :
  io_Copy (Body req) = (buf, None) ->
  collect_dependencies repo (Header_Get (Header req) "Content-Type") buf s
  = (Some (inr blobs), s1) ->
  checkIncompatibleManifest buf = None ->
  handlePut req repo target s
  = match blobHandler_Put with
    | None =>
        (Some (Some (regErrInternal (ErrorNew "blob handler is not a BlobPutHandler"))), s1)
    | Some Put =>
        let ct := Header_Get (Header req) "Content-Type" in
        let d := SHA256 buf in
        let p1 := Put repo d ct buf (world s1) in
        let p2 := manifestHandler_Put repo (Hash_String d) (put_record req buf) blobs (snd p1) in
        let p3 := manifestHandler_Put repo target (put_record req buf) blobs (snd p2) in
        match fst p1 with
        | Some err =>
            (Some (Some (regErrInternal err)),
             mkSt (snd p1) (resp s1) (calls s1 ++ [CBlobPut repo d ct buf]))
        | None =>
            match multierr_Combine (fst p2) (fst p3) with
            | Some err =>
                (Some (Some (if errors_Is err ErrQuotaExceeded then regErrDeniedQuotaExceeded
                             else regErrInternal err)),
                 mkSt (snd p1) (resp s1)
                   (calls s1 ++ [CBlobPut repo d ct buf; CTxBegin;
                                 CManifestPut repo (Hash_String d) (put_record req buf) blobs;
                                 CManifestPut repo target (put_record req buf) blobs;
                                 CTxRollback]))
            | None =>
                (Some None,
                 mkSt (snd p3)
                   (Response_WriteHeader StatusCreated
                      (Response_Set "Location" (URL_JoinPath (URL_Path req) (Hash_String d))
                         (Response_Set "OCI-Subject" (Hash_String d)
                            (Response_Set "Docker-Content-Digest" (Hash_String d)
                               (resp s1)))))
                   (calls s1 ++ put_calls req repo target buf blobs))
            end
        end
    end.
Proof.
  intros Hbody Hdeps Hcheck. unfold handlePut. rewrite Hbody.
  cbn [ContentType Manifest_Blob Blob_Digest].
  erewrite bind_run; [|exact Hdeps]. rewrite Hcheck.
  destruct blobHandler_Put as [Put|]; [|reflexivity].
  rewrite bind_command. cbn [world resp calls]. cbv zeta.
  destruct (fst (Put repo (SHA256 buf) (Header_Get (Header req) "Content-Type") buf (world s1)));
    [reflexivity|].
  unfold bind at 1. rewrite RunTx_two_puts. cbn [world resp calls].
  fold (put_record req buf).
  destruct (multierr_Combine _ _) as [err|]; cbn [errors_Is_opt].
  - destruct (errors_Is err ErrQuotaExceeded); unfold ret; now rewrite <- !app_assoc.
  - repeat step. unfold ret, put_calls. now rewrite <- !app_assoc.
Qed.

(** X4.  What stops a PUT before the manifest store is reached: a body that
    cannot be read gives the internal error of the read error without any
    call; once the checks have passed, a blob handler without the [Put]
    capability gives the internal error "blob handler is not a
    BlobPutHandler" with nothing stored, and a failing blob [Put] gives the
    internal error of its error, with neither the transaction nor a manifest
    [Put] started. *)
Theorem handlePut_blob_store_failures
    (req : Request) (repo target : string) (s : St W) :
  (forall buf err,
     io_Copy (Body req) = (buf, Some err) ->
     handlePut req repo target s = (Some (Some (regErrInternal err)), s))
  /\ (forall buf blobs cs,
        io_Copy (Body req) = (buf, None) ->
        collect_dependencies repo (Header_Get (Header req) "Content-Type") buf s
        = (Some (inr blobs), mkSt (world s) (resp s) (calls s ++ cs)) ->
        checkIncompatibleManifest buf = None ->
        (blobHandler_Put = None ->
         handlePut req repo target s
         = (Some (Some (regErrInternal (ErrorNew "blob handler is not a BlobPutHandler"))),
            mkSt (world s) (resp s) (calls s ++ cs)))
        /\ (forall Put err w1,
              blobHandler_Put = Some Put ->
              Put repo (SHA256 buf) (Header_Get (Header req) "Content-Type") buf (world s)
              = (Some err, w1) ->
              handlePut req repo target s
              = (Some (Some (regErrInternal err)),
                 mkSt w1 (resp s)
                   (calls s ++ cs
                      ++ [CBlobPut repo (SHA256 buf) (Header_Get (Header req) "Content-Type")
                            buf])))).
Proof.
  split.
  - intros buf err Hbody. unfold handlePut. now rewrite Hbody.
  - intros buf blobs cs Hbody Hdeps Hcheck.
    rewrite (handlePut_after_checks req repo target s _ buf blobs Hbody Hdeps Hcheck).
    split.
    + intros ->. reflexivity.
    + intros Put err w1 -> Hput. cbv zeta. cbn [world resp calls]. rewrite Hput.
      cbn [fst snd]. now rewrite <- app_assoc.
Qed.

(** X5.  The transaction of a PUT.  Once the blob is put, the record is put
    under the digest and then under the target, the second even when the
    first has failed.  When either fails, the answer is the quota error if
    one of the two errors is the exceeded quota and the internal error of the
    combined errors otherwise; no header is written, the transaction is
    rolled back, and the world is the one the blob [Put] left: the blob
    stays. *)
Theorem handlePut_transaction_failure
    (req : Request) (repo target : string) (s : St W) (buf : bytes) (blobs : list Blob)
    (cs : list Call) (Put : string -> Hash -> string -> bytes -> W -> option error * W) :
  let ct := Header_Get (Header req) "Content-Type" in
  let d := SHA256 buf in
  let p1 := Put repo d ct buf (world s) in
  let p2 := manifestHandler_Put repo (Hash_String d) (put_record req buf) blobs (snd p1) in
  let p3 := manifestHandler_Put repo target (put_record req buf) blobs (snd p2) in
  io_Copy (Body req) = (buf, None) ->
  collect_dependencies repo ct buf s
  = (Some (inr blobs), mkSt (world s) (resp s) (calls s ++ cs)) ->
  checkIncompatibleManifest buf = None ->
  blobHandler_Put = Some Put ->
  fst p1 = None ->
  fst p2 <> None \/ fst p3 <> None ->
  exists err,
    multierr_Combine (fst p2) (fst p3) = Some err
    /\ errors_Is err ErrQuotaExceeded
       = errors_Is_opt (fst p2) ErrQuotaExceeded || errors_Is_opt (fst p3) ErrQuotaExceeded
    /\ handlePut req repo target s
       = (Some (Some (if errors_Is err ErrQuotaExceeded then regErrDeniedQuotaExceeded
                      else regErrInternal err)),
          mkSt (snd p1) (resp s)
            (calls s ++ cs
               ++ [CBlobPut repo d ct buf; CTxBegin;
                   CManifestPut repo (Hash_String d) (put_record req buf) blobs;
                   CManifestPut repo target (put_record req buf) blobs;
                   CTxRollback])).
Proof.
  intros ct d p1 p2 p3 Hbody Hdeps Hcheck Hcap H1 Hfail.
  rewrite (handlePut_after_checks req repo target s _ buf blobs Hbody Hdeps Hcheck).
  rewrite Hcap. cbv zeta. cbn [world resp calls].
  fold ct d. fold p1. fold p2. fold p3. rewrite H1.
  destruct (fst p2) as [e2|]; destruct (fst p3) as [e3|]; cbn [multierr_Combine].
  4:{ destruct Hfail as [H|H]; now contradiction H. }
  all: eexists; split; [reflexivity|];
    cbn [errors_Is_opt errors_Is]; rewrite ?orb_false_r;
    split; [reflexivity|]; rewrite <- app_assoc;
    match goal with
    | |- context [if ?c then _ else _] => destruct c
    end; reflexivity.
Qed.

(** Every run of [handlePut] returns and adds to the calls, and one that
    returns an error has written nothing to the response. *)
Lemma handlePut_run (req : Request) (repo target : string) (s : St W) :
  exists r cs s',
    handlePut req repo target s = (Some r, s')
    /\ calls s' = (calls s ++ cs)%list
    /\ (r <> None -> resp s' = resp s).
Proof.
  assert (Hnil : calls s = (calls s ++ [])%list) by now rewrite app_nil_r.
  destruct (io_Copy (Body req)) as [buf [err|]] eqn:Hbody.
  { unfold handlePut. rewrite Hbody. exists (Some (regErrInternal err)), [], s. auto. }
  destruct (collect_dependencies_run repo (Header_Get (Header req) "Content-Type") buf s)
    as (r & cs & Hrun & _ & _).
  destruct r as [e|blobs].
  { unfold handlePut. rewrite Hbody. cbn [ContentType].
    erewrite bind_run; [|exact Hrun].
    eexists; exists cs; eexists. split; [reflexivity|]. split; reflexivity. }
  destruct (checkIncompatibleManifest buf) as [e|] eqn:Hcheck.
  { unfold handlePut. rewrite Hbody. cbn [ContentType].
    erewrite bind_run; [|exact Hrun]. rewrite Hcheck.
    eexists; exists cs; eexists. split; [reflexivity|]. split; reflexivity. }
  rewrite (handlePut_after_checks req repo target s _ buf blobs Hbody Hrun Hcheck).
  destruct blobHandler_Put as [Put|].
  2:{ eexists; exists cs; eexists. split; [reflexivity|]. split; reflexivity. }
  cbv zeta. cbn [world resp calls].
  destruct (fst (Put _ _ _ _ _)).
  { eexists; eexists; eexists. split; [reflexivity|].
    cbn [calls resp]. rewrite <- ?app_assoc. split; reflexivity. }
  destruct (multierr_Combine _ _).
  - eexists; eexists; eexists. split; [reflexivity|].
    cbn [calls resp]. rewrite <- ?app_assoc. split; reflexivity.
  - eexists; eexists; eexists. split; [reflexivity|].
    cbn [calls resp]. rewrite <- ?app_assoc. split; [reflexivity|].
    intros H. now contradiction H.
Qed.

(** With every sub-manifest that has to be recorded on record, the loop
    returns their blobs in order. *)
Lemma index_dependencies_ok (repo : string) (descs : list v1_Descriptor) :
  forall (blobs : list Blob) (s : St W),
  (forall desc, In desc descs -> missing repo (world s) desc = false) ->
  index_dependencies repo descs blobs s
  = (Some (inr (blobs ++ map blob_of (filter must_be_recorded descs))%list),
     mkSt (world s) (resp s) (calls s ++ index_calls repo descs)).
Proof.
  induction descs as [|desc rest IH]; intros blobs s Hall.
  - cbn. rewrite !app_nil_r. now destruct s.
  - assert (Hrest : forall d, In d rest -> missing repo (world s) d = false)
      by (intros d Hd; apply Hall; now right).
    pose proof (Hall desc (or_introl eq_refl)) as Hdesc.
    unfold missing, must_be_recorded in Hdesc.
    cbn [index_dependencies filter index_calls flat_map]. unfold must_be_recorded at 1.
    fold (index_calls repo rest).
    destruct (IsDistributable (MediaType desc)); cbn [negb andb] in *.
    2:{ rewrite IH by exact Hrest. reflexivity. }
    destruct (IsIndex (MediaType desc) || IsImage (MediaType desc)); cbn [andb] in *.
    + step.
      destruct (manifestHandler_Get repo (Hash_String (Digest desc)) (world s));
        [discriminate|].
      rewrite IH by exact Hrest. cbn [world resp calls map].
      unfold blob_of at 2. now rewrite <- !app_assoc.
    + step. rewrite IH by exact Hrest. cbn [world resp calls].
      now rewrite <- !app_assoc.
Qed.

Lemma handlePut_sub_manifest_missing
    (req : Request) (repo target : string) (s : St W) (buf : bytes) (im : v1_IndexManifest) :
  io_Copy (Body req) = (buf, None) ->
  IsIndex (Header_Get (Header req) "Content-Type") = true ->
  ParseIndexManifest buf = inr im ->
  (exists desc, In desc (Manifests im) /\ missing repo (world s) desc = true) ->
  exists e s2, handlePut req repo target s = (Some (Some e), s2).
Proof.
  intros Hbody Hindex Hparse Hmissing.
  destruct (index_dependencies_missing repo (Manifests im) [] s Hmissing)
    as (desc & cs & _ & _ & Hrun & _).
  unfold handlePut. rewrite Hbody. cbn [ContentType].
  erewrite bind_run.
  2:{ unfold collect_dependencies. rewrite Hindex, Hparse. exact Hrun. }
  do 2 eexists. reflexivity.
Qed.

(** X6.  A PUT of an index that returns no error has found every
    sub-manifest that has to be recorded (distributable, image or index) in
    the manifest store, looked up in order before anything was stored, and
    records exactly their digests and sizes as the dependencies of the
    manifest, in order; the other sub-descriptors are not dependencies. *)
Theorem handlePut_index_dependencies
    (req : Request) (repo target : string) (s s' : St W) (buf : bytes)
    (im : v1_IndexManifest) :
  io_Copy (Body req) = (buf, None) ->
  IsIndex (Header_Get (Header req) "Content-Type") = true ->
  ParseIndexManifest buf = inr im ->
  handlePut req repo target s = (Some None, s') ->
  (forall desc,
     In desc (Manifests im) -> must_be_recorded desc = true ->
     exists m, manifestHandler_Get repo (Hash_String (Digest desc)) (world s) = inr m)
  /\ calls s'
     = (calls s ++ index_calls repo (Manifests im)
          ++ put_calls req repo target buf
               (map blob_of (filter must_be_recorded (Manifests im))))%list.
Proof.
  intros Hbody Hindex Hparse Hput.
  assert (Hall : forall desc, In desc (Manifests im) -> missing repo (world s) desc = false).
  { intros desc Hin. destruct (missing repo (world s) desc) eqn:Hm; [|reflexivity].
    destruct (handlePut_sub_manifest_missing req repo target s buf im)
      as (e & s2 & Hfail); eauto.
    rewrite Hfail in Hput. discriminate. }
  split.
  - intros desc Hin Hmust. specialize (Hall desc Hin).
    unfold missing in Hall. rewrite Hmust in Hall. cbn [andb] in Hall.
    destruct (manifestHandler_Get repo (Hash_String (Digest desc)) (world s)) as [|m];
      [discriminate|eauto].
  - assert (Hdeps : collect_dependencies repo (Header_Get (Header req) "Content-Type") buf s
                    = (Some (inr (map blob_of (filter must_be_recorded (Manifests im)))),
                       mkSt (world s) (resp s) (calls s ++ index_calls repo (Manifests im)))).
    { unfold collect_dependencies. rewrite Hindex, Hparse.
      now rewrite index_dependencies_ok. }
    destruct (checkIncompatibleManifest buf) as [e|] eqn:Hcheck.
    { unfold handlePut in Hput. rewrite Hbody in Hput. cbn [ContentType] in Hput.
      erewrite bind_run in Hput; [|exact Hdeps]. rewrite Hcheck in Hput. discriminate. }
    rewrite (handlePut_after_checks req repo target s _ buf _ Hbody Hdeps Hcheck) in Hput.
    destruct blobHandler_Put as [Put|]; [|discriminate].
    cbv zeta in Hput. cbn [world resp calls] in Hput.
    destruct (fst (Put _ _ _ _ _)); [discriminate|].
    destruct (multierr_Combine _ _); [discriminate|].
    injection Hput as <-. cbn [calls]. now rewrite <- app_assoc.
Qed.


(** X8.  A PUT whose body the parser of its Content-Type refuses (the index
    parser for an index, the image parser for an image) is answered
    with the invalid-manifest error of the parser's error, before the
    non-compliance check and without any call. *)
Theorem handlePut_unparseable
    (req : Request) (repo target : string) (s : St W) (buf : bytes) (err : error) :
  io_Copy (Body req) = (buf, None) ->
  (IsIndex (Header_Get (Header req) "Content-Type") = true
   /\ ParseIndexManifest buf = inl err)
  \/ (IsIndex (Header_Get (Header req) "Content-Type") = false
      /\ IsImage (Header_Get (Header req) "Content-Type") = true
      /\ ParseManifest buf = inl err) ->
  handlePut req repo target s = (Some (Some (regErrManifestInvalid err)), s).
Proof.
  intros Hbody Hparse.
  unfold handlePut. rewrite Hbody. cbn [ContentType].
  erewrite bind_run with (a := inl (regErrManifestInvalid err)) (s1 := s); [reflexivity|].
  unfold collect_dependencies.
  destruct Hparse as [[-> ->]|(-> & -> & ->)]; reflexivity.
Qed.

End PutStores.

(* ===================================================================== *)
(** ** The entry point of the manifests *)
(* ===================================================================== *)

Section Entry.

Context {W : Type} `{L : Lib} `{B : Backend W}.

(** The handler [handle] dispatches to for an action. *)
Lemma handle_authorized (req : Request) (repo target : string) (s : St W) (a : Action) :
  path_target (URL_Path req) = Some target ->
  path_repo (URL_Path req) = Some repo ->
  method_action (Method req) = Some a ->
  handle req s
  = match authz_AuthorizeReference repo target a (world s) with
    | Some err =>
        (Some (Some (authz_regError err)),
         mkSt (world s) (resp s) (calls s ++ [CAuthorizeReference repo target a]))
    | None =>
        match a with
        | ActionRead => handleGet req repo target
        | ActionStat => handleHead req repo target
        | ActionWrite => handlePut req repo target
        end (mkSt (world s) (resp s) (calls s ++ [CAuthorizeReference repo target a]))
    end.
Proof.
  intros Ht Hr Ha. unfold handle. rewrite Ht, Hr. cbn [checked]. rewrite !bind_ret_l.
  unfold method_action in Ha.
  destruct (String.eqb (Method req) MethodGet).
  { injection Ha as <-. rewrite bind_query.
    now destruct (authz_AuthorizeReference repo target ActionRead (world s)). }
  destruct (String.eqb (Method req) MethodHead).
  { injection Ha as <-. rewrite bind_query.
    now destruct (authz_AuthorizeReference repo target ActionStat (world s)). }
  destruct (String.eqb (Method req) MethodPut); [|discriminate].
  injection Ha as <-. rewrite bind_query.
  now destruct (authz_AuthorizeReference repo target ActionWrite (world s)).
Qed.

(** X9.  The entry point asks the authorizer first, about the reference and
    the action of the method (read for GET, stat for HEAD, write for PUT),
    before anything else.  A refusal is answered at once, by the denied error
    for a denied access, otherwise the invalid-name error for an invalid
    name, otherwise the internal error: no store, no auditor is reached and
    nothing is written.  Any other method is answered by the unknown-method
    error without asking the authorizer. *)
Theorem handle_refusals (req : Request) (repo target : string) (s : St W) :
  path_target (URL_Path req) = Some target ->
  path_repo (URL_Path req) = Some repo ->
  (method_action (Method req) = None ->
   handle req s = (Some (Some regErrMethodUnknown), s))
  /\ (forall a err,
        method_action (Method req) = Some a ->
        authz_AuthorizeReference repo target a (world s) = Some err ->
        handle req s
        = (Some (Some (if errors_Is err ErrAccessDenied then regErrDenied
                       else if errors_Is err ErrInvalidArtifactName then regErrNameInvalid
                       else regErrInternal err)),
           mkSt (world s) (resp s) (calls s ++ [CAuthorizeReference repo target a])))
  /\ (forall a r s',
        method_action (Method req) = Some a ->
        handle req s = (r, s') ->
        exists cs, calls s' = (calls s ++ CAuthorizeReference repo target a :: cs)%list).
Proof.
  intros Ht Hr. conjuncts.
  - intros Ha. unfold handle. rewrite Ht, Hr. cbn [checked]. rewrite !bind_ret_l.
    unfold method_action in Ha.
    destruct (String.eqb (Method req) MethodGet); [discriminate|].
    destruct (String.eqb (Method req) MethodHead); [discriminate|].
    destruct (String.eqb (Method req) MethodPut); [discriminate|].
    reflexivity.
  - intros a err Ha Hauth.
    rewrite (handle_authorized req repo target s a Ht Hr Ha), Hauth. reflexivity.
  - intros a r s' Ha.
    rewrite (handle_authorized req repo target s a Ht Hr Ha).
    destruct (authz_AuthorizeReference repo target a (world s)).
    { intros [= <- <-]. exists []. reflexivity. }
    set (s1 := mkSt _ _ _).
    destruct a.
    + destruct (handleGet_run req repo target s1) as (r0 & cs & s2 & -> & Hc & _).
      intros [= <- <-]. exists cs. rewrite Hc. subst s1. cbn [calls].
      now rewrite <- app_assoc.
    + destruct (handleHead_run req repo target s1) as (r0 & cs & s2 & -> & Hc & _).
      intros [= <- <-]. exists cs. rewrite Hc. subst s1. cbn [calls].
      now rewrite <- app_assoc.
    + destruct (handlePut_run req repo target s1) as (r0 & cs & s2 & -> & Hc & _).
      intros [= <- <-]. exists cs. rewrite Hc. subst s1. cbn [calls].
      now rewrite <- app_assoc.
Qed.

(** The two slices of the path succeed exactly on three elements or more. *)
Lemma path_parts (path : string) :
  if Z.of_nat (List.length (path_elems path)) <? 3
  then path_target path = None \/ path_repo path = None
  else exists repo target, path_target path = Some target /\ path_repo path = Some repo.
Proof.
  unfold path_target, path_repo, slice, index.
  set (elem := path_elems path).
  destruct (Z.of_nat (List.length elem) <? 3) eqn:Hlen.
  - apply Z.ltb_lt in Hlen. right.
    assert (H1 : (0 <=? 1) && (1 <=? Z.of_nat (List.length elem) - 2)
                 && (Z.of_nat (List.length elem) - 2 <=? Z.of_nat (List.length elem)) = false).
    { rewrite !andb_false_iff, !Z.leb_gt. lia. }
    now rewrite H1.
  - apply Z.ltb_ge in Hlen.
    assert (H1 : (0 <=? 1) && (1 <=? Z.of_nat (List.length elem) - 2)
                 && (Z.of_nat (List.length elem) - 2 <=? Z.of_nat (List.length elem)) = true).
    { rewrite !andb_true_iff, !Z.leb_le. lia. }
    rewrite H1.
    assert (H2 : (0 <=? Z.of_nat (List.length elem) - 1) = true) by (apply Z.leb_le; lia).
    rewrite H2.
    destruct (nth_error elem (Z.to_nat (Z.of_nat (List.length elem) - 1))) as [target|] eqn:Hn.
    + eauto.
    + apply nth_error_None in Hn. lia.
Qed.

(** X10.  The entry point panics on a path with fewer than three elements
    after the leading one (the slice of the repository is out of range), and
    on every other path it returns, whatever the method and the backend; in
    particular it returns on every path the classifier accepts as a manifest
    path. *)
Theorem handle_panics_on_short_paths (req : Request) (s : St W) :
  (Z.of_nat (List.length (path_elems (URL_Path req))) < 3 -> handle req s = (None, s))
  /\ (3 <= Z.of_nat (List.length (path_elems (URL_Path req))) ->
      exists r s', handle req s = (Some r, s'))
  /\ (isManifest req = true -> exists r s', handle req s = (Some r, s')).
Proof.
  assert (Hlong : 3 <= Z.of_nat (List.length (path_elems (URL_Path req))) ->
                  exists r s', handle req s = (Some r, s')).
  { intros Hlen. pose proof (path_parts (URL_Path req)) as Hp.
    destruct (Z.ltb_spec (Z.of_nat (List.length (path_elems (URL_Path req)))) 3); [lia|].
    destruct Hp as (repo & target & Ht & Hr).
    destruct (method_action (Method req)) as [a|] eqn:Ha.
    - rewrite (handle_authorized req repo target s a Ht Hr Ha).
      destruct (authz_AuthorizeReference repo target a (world s)); [eauto|].
      set (s1 := mkSt _ _ _).
      destruct a.
      + destruct (handleGet_run req repo target s1) as (r0 & cs & s2 & -> & _). eauto.
      + destruct (handleHead_run req repo target s1) as (r0 & cs & s2 & -> & _). eauto.
      + destruct (handlePut_run req repo target s1) as (r0 & cs & s2 & -> & _). eauto.
    - unfold handle. rewrite Ht, Hr. cbn [checked]. rewrite !bind_ret_l.
      unfold method_action in Ha.
      destruct (String.eqb (Method req) MethodGet); [discriminate|].
      destruct (String.eqb (Method req) MethodHead); [discriminate|].
      destruct (String.eqb (Method req) MethodPut); [discriminate|].
      do 2 eexists. reflexivity. }
  conjuncts.
  - intros Hlen. pose proof (path_parts (URL_Path req)) as Hp.
    destruct (Z.ltb_spec (Z.of_nat (List.length (path_elems (URL_Path req)))) 3); [|lia].
    unfold handle.
    destruct (path_target (URL_Path req)) as [target|]; [|reflexivity].
    destruct Hp as [Hp|Hp]; [discriminate|]. rewrite Hp. reflexivity.
  - exact Hlong.
  - intros Hm. apply Hlong. unfold isManifest, penultimate_is in Hm.
    destruct (Z.ltb_spec (Z.of_nat (List.length (path_elems (URL_Path req)))) 4);
      [discriminate|lia].
Qed.

End Entry.

(* ===================================================================== *)
(** ** The URL classifier *)
(* ===================================================================== *)

Lemma str_app_nil_r (s : string) : s ++ "" = s.
Proof. induction s as [|c s IH]; cbn; [reflexivity|now rewrite IH]. Qed.

Lemma str_app_assoc (a b c : string) : (a ++ b) ++ c = a ++ b ++ c.
Proof. induction a as [|x a IH]; cbn; [reflexivity|now rewrite IH]. Qed.

Lemma split_slash_aux_nonempty (s cur : string) : split_slash_aux s cur <> [].
Proof.
  revert cur. induction s as [|c s IH]; intros cur; cbn; [discriminate|].
  destruct (Ascii.eqb c "/"); [discriminate|apply IH].
Qed.

(** [strings.Split] cuts at every separator. *)
Lemma split_slash_aux_app (s t cur : string) :
  split_slash_aux (s ++ "/" ++ t) cur
  = (split_slash_aux s cur ++ split_slash_aux t "")%list.
Proof.
  revert cur. induction s as [|c s IH]; intros cur.
  - reflexivity.
  - cbn [append split_slash_aux]. destruct (Ascii.eqb c "/").
    + cbn [app]. f_equal. apply IH.
    + apply IH.
Qed.

Lemma split_slash_aux_free (s cur : string) :
  slash_free s = true -> split_slash_aux s cur = [cur ++ s].
Proof.
  revert cur. induction s as [|c s IH]; intros cur Hs.
  - cbn. now rewrite str_app_nil_r.
  - cbn in Hs. apply andb_true_iff in Hs as [Hc Hs].
    cbn [split_slash_aux]. apply negb_true_iff in Hc. rewrite Hc.
    rewrite IH by exact Hs. now rewrite str_app_assoc.
Qed.

(** [strings.Join] undoes [strings.Split]. *)
Lemma Join_slash_split (s cur : string) : Join_slash (split_slash_aux s cur) = cur ++ s.
Proof.
  revert cur. induction s as [|c s IH]; intros cur.
  - cbn. now rewrite str_app_nil_r.
  - cbn [split_slash_aux]. destruct (Ascii.eqb_spec c "/") as [->|Hc].
    + specialize (IH "").
      destruct (split_slash_aux s "") as [|x xs] eqn:Hs.
      { now apply split_slash_aux_nonempty in Hs. }
      change (Join_slash (cur :: x :: xs)) with (cur ++ "/" ++ Join_slash (x :: xs)).
      rewrite IH. reflexivity.
    + rewrite IH. now rewrite str_app_assoc.
Qed.

(** The elements of a resource path. *)
Lemma path_elems_resource (root repo word target : string) :
  slash_free root = true -> slash_free word = true -> slash_free target = true ->
  path_elems (resource_path root repo word target)
  = (root :: Split_slash repo ++ [word; target])%list.
Proof.
  intros Hroot Hword Htarget. unfold path_elems, resource_path, Split_slash.
  change ("/" ++ root ++ "/" ++ repo ++ "/" ++ word ++ "/" ++ target)
    with ("" ++ "/" ++ root ++ "/" ++ repo ++ "/" ++ word ++ "/" ++ target).
  rewrite !split_slash_aux_app.
  rewrite (split_slash_aux_free root), (split_slash_aux_free word),
    (split_slash_aux_free target) by assumption.
  reflexivity.
Qed.

(** X11.  The classifier reads back what a resource path was built from.
    For a root, a word and a target without a slash and any repository name,
    slashes included, the path [/<root>/<repo>/<word>/<target>] is
    classified by its word, and the repository and the target the handlers
    take from it are the ones it was built from; when the target is
    [_catalog] the path is a catalog path as well. *)
Theorem resource_path_classified (root repo word target : string) (req : Request) :
  slash_free root = true -> slash_free word = true -> slash_free target = true ->
  URL_Path req = resource_path root repo word target ->
  penultimate_is (URL_Path req) word = true
  /\ path_repo (URL_Path req) = Some repo
  /\ path_target (URL_Path req) = Some target
  /\ isManifest req = String.eqb word "manifests"
  /\ isTags req = String.eqb word "tags"
  /\ isReferrers req = String.eqb word "referrers"
  /\ isCatalog req = String.eqb target "_catalog".
Proof.
  intros Hroot Hword Htarget Hpath.
  pose proof (path_elems_resource root repo word target Hroot Hword Htarget) as Helems.
  pose proof (Join_slash_split repo "") as Hjoin. cbn [append] in Hjoin.
  fold (Split_slash repo) in Hjoin.
  set (mid := Split_slash repo) in *.
  assert (Hmid : mid <> []) by apply split_slash_aux_nonempty.
  clearbody mid.
  assert (Hlen : List.length (root :: mid ++ [word; target])
                 = (List.length mid + 3)%nat).
  { cbn [List.length]. rewrite length_app. cbn [List.length]. lia. }
  assert (Hpen : forall w, penultimate_is (URL_Path req) w = String.eqb word w).
  { intros w. unfold penultimate_is. rewrite Hpath, Helems, Hlen.
    destruct (Z.ltb_spec (Z.of_nat (List.length mid + 3)) 4) as [Hlt|_].
    { destruct mid; [congruence|]. cbn [List.length] in Hlt. lia. }
    unfold index.
    replace (Z.of_nat (List.length mid + 3) - 2) with (Z.of_nat (S (List.length mid))) by lia.
    destruct (Z.leb_spec 0 (Z.of_nat (S (List.length mid)))); [|lia].
    rewrite Nat2Z.id.
    change (root :: mid ++ [word; target])%list with ((root :: mid) ++ [word; target])%list.
    rewrite nth_error_app2; [|cbn [List.length]; lia].
    cbn [List.length]. now rewrite Nat.sub_diag. }
  assert (Htgt : path_target (URL_Path req) = Some target).
  { unfold path_target, index. rewrite Hpath, Helems, Hlen.
    replace (Z.of_nat (List.length mid + 3) - 1) with (Z.of_nat (S (S (List.length mid))))
      by lia.
    destruct (Z.leb_spec 0 (Z.of_nat (S (S (List.length mid))))); [|lia].
    rewrite Nat2Z.id.
    change (root :: mid ++ [word; target])%list with ((root :: mid) ++ [word; target])%list.
    rewrite nth_error_app2; [|cbn [List.length]; lia].
    cbn [List.length].
    replace (S (S (List.length mid)) - S (List.length mid))%nat with 1%nat by lia.
    reflexivity. }
  conjuncts.
  - rewrite Hpen. apply String.eqb_refl.
  - unfold path_repo, slice. rewrite Hpath, Helems, Hlen.
    assert (H1 : (0 <=? 1) && (1 <=? Z.of_nat (List.length mid + 3) - 2)
                 && (Z.of_nat (List.length mid + 3) - 2 <=? Z.of_nat (List.length mid + 3))
                 = true).
    { rewrite !andb_true_iff, !Z.leb_le. lia. }
    rewrite H1.
    replace (Z.to_nat (Z.of_nat (List.length mid + 3) - 2 - 1)) with (List.length mid) by lia.
    change (Z.to_nat 1) with 1%nat. cbn [skipn].
    rewrite firstn_app, Nat.sub_diag, firstn_all. cbn [firstn].
    rewrite app_nil_r. now rewrite Hjoin.
  - exact Htgt.
  - apply Hpen.
  - apply Hpen.
  - apply Hpen.
  - unfold isCatalog. unfold path_target in Htgt. rewrite Htgt.
    rewrite Hpath, Helems, Hlen.
    destruct (Z.ltb_spec (Z.of_nat (List.length mid + 3)) 2); [lia|reflexivity].
Qed.

(** X12.  A path is a manifest path, a tags path or a referrers path, never
    two of them: the classifiers look at the same element. *)
Theorem classifiers_exclusive (req : Request) :
  isManifest req && isTags req = false
  /\ isManifest req && isReferrers req = false
  /\ isTags req && isReferrers req = false.
Proof.
  unfold isManifest, isTags, isReferrers, penultimate_is.
  destruct (Z.of_nat (List.length (path_elems (URL_Path req))) <? 4); [auto|].
  destruct (index (path_elems (URL_Path req))
              (Z.of_nat (List.length (path_elems (URL_Path req))) - 2)) as [e|]; [|auto].
  conjuncts.
  - destruct (String.eqb_spec e "manifests") as [->|]; reflexivity.
  - destruct (String.eqb_spec e "manifests") as [->|]; reflexivity.
  - destruct (String.eqb_spec e "tags") as [->|]; reflexivity.
Qed.

(* ===================================================================== *)
(** ** The listings only look things up *)
(* ===================================================================== *)

Section ReadOnly.

Context {W : Type} `{L : Lib} `{B : Backend W}.

Lemma only_lookups_app (a b : list Call) :
  only_lookups (a ++ b) = only_lookups a && only_lookups b.
Proof. apply forallb_app. Qed.

(** The tail of the listings touches the response only. *)
Lemma write_json_run (msg : bytes) (contentType : option string) (s : St W) :
  exists r r', write_json msg contentType s = (Some r, mkSt (world s) r' (calls s)).
Proof.
  unfold write_json. step.
  destruct contentType as [ct|]; repeat step;
    match goal with |- context [fst ?x] => destruct (fst x) end;
    do 2 eexists; reflexivity.
Qed.

(** Every run of the loop of the referrers returns, and looks up only. *)
Lemma referrers_loop_total (repo target : string) (digests : list Hash) :
  forall (found : list v1_Descriptor) (s : St W),
  exists r cs,
    referrers_loop repo target digests found s
    = (Some r, mkSt (world s) (resp s) (calls s ++ cs))
    /\ only_lookups cs = true.
Proof.
  induction digests as [|reference rest IH]; intros found s.
  - exists (inr found), []. cbn. rewrite app_nil_r. now destruct s.
  - cbn [referrers_loop]. step.
    destruct (manifestHandler_Get repo (Hash_String reference) (world s)) as [err|m].
    { do 2 eexists. split; reflexivity. }
    step.
    destruct (blobHandler_Get repo (Blob_Digest (Manifest_Blob m)) false (world s))
      as [err|rd].
    { do 2 eexists. split; [unfold ret; rewrite <- app_assoc; reflexivity|reflexivity]. }
    destruct (io_Copy rd) as [buf [err|]].
    { do 2 eexists. split; [unfold ret; rewrite <- app_assoc; reflexivity|reflexivity]. }
    assert (Hnext : forall f, exists r cs,
               referrers_loop repo target rest f
                 (mkSt (world s) (resp s)
                    ((calls s ++ [CManifestGet repo (Hash_String reference)])
                       ++ [CBlobGet repo (Blob_Digest (Manifest_Blob m)) false]))
               = (Some r, mkSt (world s) (resp s) (calls s ++ cs))
               /\ only_lookups cs = true).
    { intros f.
      destruct (IH f (mkSt (world s) (resp s)
                        ((calls s ++ [CManifestGet repo (Hash_String reference)])
                           ++ [CBlobGet repo (Blob_Digest (Manifest_Blob m)) false])))
        as (r & cs & Hrun & Hcs).
      cbn [world resp calls] in Hrun.
      exists r, ([CManifestGet repo (Hash_String reference);
                  CBlobGet repo (Blob_Digest (Manifest_Blob m)) false] ++ cs)%list.
      split.
      - rewrite Hrun. now rewrite <- !app_assoc.
      - rewrite only_lookups_app, Hcs. reflexivity. }
    destruct (Unmarshal_Subject buf) as [subject|]; [|apply Hnext].
    destruct (negb (String.eqb (Hash_String (Digest subject)) target)); apply Hnext.
Qed.

Ltac looked_up :=
  do 3 eexists; split; [reflexivity|]; cbn [calls world];
  split; [reflexivity|]; split; [rewrite <- ?app_assoc; reflexivity|reflexivity].

(** X13.  The tag list, the catalog and the referrers only ask: whatever
    the request, a run that does not panic leaves the stores as they were, and
    every call it makes is a question to the authorizer or a look-up in a
    store.  Nothing is stored, no pull is audited (the referrers read every
    manifest of the repository unaudited), no transaction is opened. *)
Theorem listings_only_look_up (req : Request) (s : St W) :
  (forall r s',
     handleTags req s = (Some r, s') ->
     world s' = world s
     /\ exists cs, calls s' = (calls s ++ cs)%list /\ only_lookups cs = true)
  /\ (forall r s',
        handleCatalog req s = (Some r, s') ->
        world s' = world s
        /\ exists cs, calls s' = (calls s ++ cs)%list /\ only_lookups cs = true)
  /\ (forall r s',
        handleReferrers req s = (Some r, s') ->
        world s' = world s
        /\ exists cs, calls s' = (calls s ++ cs)%list /\ only_lookups cs = true).
Proof.
  assert (Hshape : forall (h : M W (option regError)),
             (exists r cs s1,
                 h s = (r, s1) /\ world s1 = world s
                 /\ calls s1 = (calls s ++ cs)%list /\ only_lookups cs = true) ->
             forall r s',
               h s = (Some r, s') ->
               world s' = world s
               /\ exists cs, calls s' = (calls s ++ cs)%list /\ only_lookups cs = true).
  { intros h (r0 & cs & s1 & Hrun & Hw & Hc & Hl) r s' Hh.
    rewrite Hrun in Hh. injection Hh as _ <-. eauto. }
  assert (Hnil : calls s = (calls s ++ [])%list) by now rewrite app_nil_r.
  conjuncts; apply Hshape.
  - unfold handleTags.
    destruct (path_repo (URL_Path req)) as [repo|]; cbn [checked].
    2:{ exists None, [], s. auto. }
    rewrite bind_ret_l.
    destruct (String.eqb (Method req) MethodGet).
    2:{ exists (Some (Some regErrMethodUnknown)), [], s. auto. }
    step. destruct (authz_Authorize repo ActionRead (world s)); [looked_up|].
    match goal with
    | |- context [match ?p with inl _ => _ | inr _ => _ end] => destruct p as [e|n]
    end; [looked_up|].
    step.
    destruct (manifestHandler_ListTags repo n _ (world s)) as [err|references].
    { destruct (errors_Is err ErrNameUnknown); looked_up. }
    destruct (Marshal_listTags _); [looked_up|].
    match goal with
    | |- context [write_json ?m ?c ?s1] =>
        destruct (write_json_run m c s1) as (r & r' & ->)
    end.
    looked_up.
  - unfold handleCatalog. cbv zeta.
    destruct (String.eqb (Method req) MethodGet).
    2:{ exists (Some (Some regErrMethodUnknown)), [], s. auto. }
    step.
    match goal with
    | |- context [manifestHandler_List ?n ?w] => destruct (manifestHandler_List n w)
    end; [looked_up|].
    destruct (Marshal_catalog _); [looked_up|].
    match goal with
    | |- context [write_json ?m ?c ?s1] =>
        destruct (write_json_run m c s1) as (r & r' & ->)
    end.
    looked_up.
  - unfold handleReferrers.
    destruct (negb (String.eqb (Method req) MethodGet)).
    { exists (Some (Some regErrMethodUnknown)), [], s. auto. }
    destruct (path_target (URL_Path req)) as [target|]; cbn [checked].
    2:{ exists None, [], s. auto. }
    rewrite bind_ret_l.
    destruct (path_repo (URL_Path req)) as [repo|]; cbn [checked].
    2:{ exists None, [], s. auto. }
    rewrite bind_ret_l.
    step. destruct (authz_AuthorizeReference repo target ActionRead (world s)); [looked_up|].
    destruct (NewHash target); [looked_up|].
    step. destruct (manifestHandler_ListDigests repo (world s)) as [err|digests].
    { destruct (errors_Is err ErrNameUnknown); looked_up. }
    match goal with
    | |- context [bind (referrers_loop _ _ _ []) _ ?s1] =>
        destruct (referrers_loop_total repo target digests [] s1) as (r & cs & Hrun & Hcs)
    end.
    erewrite bind_run; [|exact Hrun]. cbn [world resp calls].
    assert (Hall : only_lookups
                     ([CAuthorizeReference repo target ActionRead; CListDigests repo] ++ cs)
                   = true) by (rewrite only_lookups_app, Hcs; reflexivity).
    destruct r as [e|descs].
    { do 3 eexists. split; [reflexivity|]. cbn [calls world]. split; [reflexivity|].
      split; [|exact Hall]. now rewrite <- !app_assoc. }
    destruct (Marshal_IndexManifest _).
    { do 3 eexists. split; [reflexivity|]. cbn [calls world]. split; [reflexivity|].
      split; [|exact Hall]. now rewrite <- !app_assoc. }
    match goal with
    | |- context [write_json ?m ?c ?s1] =>
        destruct (write_json_run m c s1) as (r & r' & ->)
    end.
    do 3 eexists. split; [reflexivity|]. cbn [calls world]. split; [reflexivity|].
    split; [|exact Hall]. now rewrite <- !app_assoc.
Qed.

End ReadOnly.

(* ===================================================================== *)
(** ** The listings: refusals and failures *)
(* ===================================================================== *)

Section ListingFailures.

Context {W : Type} `{L : Lib} `{B : Backend W}.

(** X14.  The catalog is listed to anyone: the handler never looks at the
    path and never asks the authorizer.  Any method but GET is answered by
    the unknown-method error without a call; a GET makes exactly one call,
    the [List] of the store with the limit of the request, and when that
    fails the answer is the internal error of its error, with nothing
    written. *)
Theorem handleCatalog_unguarded (req : Request) (s : St W) :
  (Method req <> MethodGet ->
   handleCatalog req s = (Some (Some regErrMethodUnknown), s))
  /\ (Method req = MethodGet ->
      exists r s',
        handleCatalog req s = (Some r, s')
        /\ calls s' = (calls s ++ [CList (listing_limit req)])%list
        /\ (forall err,
              manifestHandler_List (listing_limit req) (world s) = inl err ->
              r = Some (regErrInternal err) /\ resp s' = resp s)).
Proof.
  unfold handleCatalog. cbv zeta. fold (listing_limit req). split.
  - intros Hm. apply String.eqb_neq in Hm. now rewrite Hm.
  - intros Hm. rewrite Hm. cbn [String.eqb MethodGet Ascii.eqb Bool.eqb]. step.
    destruct (manifestHandler_List (listing_limit req) (world s)) as [err|repos].
    { do 2 eexists. split; [reflexivity|]. split; [reflexivity|].
      intros err0 [= <-]. split; reflexivity. }
    destruct (Marshal_catalog _).
    { do 2 eexists. split; [reflexivity|]. split; [reflexivity|]. discriminate. }
    match goal with
    | |- context [write_json ?m ?c ?s1] =>
        destruct (write_json_run m c s1) as (r & r' & ->)
    end.
    do 2 eexists. split; [reflexivity|]. split; [reflexivity|]. discriminate.
Qed.

(** X15.  The refusals of the tag list.  The repository is sliced from the
    path before the method is looked at, so a path too short for it panics
    whatever the method.  Otherwise any method but GET is answered by the
    unknown-method error without a call; a GET the authorizer refuses is
    answered by the denied, the invalid-name or the internal error after
    that one call; and when the store fails to list, the answer is the
    unknown-name error for an unknown name and the internal error otherwise,
    with nothing written. *)
Theorem handleTags_refusals (req : Request) (s : St W) :
  (path_repo (URL_Path req) = None -> handleTags req s = (None, s))
  /\ (forall repo,
        path_repo (URL_Path req) = Some repo ->
        (Method req <> MethodGet ->
         handleTags req s = (Some (Some regErrMethodUnknown), s))
        /\ (forall err,
              Method req = MethodGet ->
              authz_Authorize repo ActionRead (world s) = Some err ->
              handleTags req s
              = (Some (Some (if errors_Is err ErrAccessDenied then regErrDenied
                             else if errors_Is err ErrInvalidArtifactName
                                  then regErrNameInvalid
                                  else regErrInternal err)),
                 mkSt (world s) (resp s) (calls s ++ [CAuthorize repo ActionRead])))
        /\ (forall n err,
              Method req = MethodGet ->
              authz_Authorize repo ActionRead (world s) = None ->
              (Values_Get (URL_Query req) "n" = "" /\ n = 10000)
              \/ (Values_Get (URL_Query req) "n" <> ""
                  /\ Atoi (Values_Get (URL_Query req) "n") = (n, None)) ->
              manifestHandler_ListTags repo n (Values_Get (URL_Query req) "last") (world s)
              = inl err ->
              handleTags req s
              = (Some (Some (if errors_Is err ErrNameUnknown then regErrNameUnknown
                             else regErrInternal err)),
                 mkSt (world s) (resp s)
                   (calls s ++ [CAuthorize repo ActionRead;
                                CListTags repo n (Values_Get (URL_Query req) "last")])))).
Proof.
  split.
  - intros Hp. unfold handleTags. now rewrite Hp.
  - intros repo Hp. unfold handleTags. rewrite Hp. cbn [checked]. rewrite bind_ret_l.
    conjuncts.
    + intros Hm. apply String.eqb_neq in Hm. now rewrite Hm.
    + intros err Hm Hauth. rewrite Hm. cbn [String.eqb MethodGet Ascii.eqb Bool.eqb].
      step. rewrite Hauth. reflexivity.
    + intros n err Hm Hauth Hn Hlist. rewrite Hm.
      cbn [String.eqb MethodGet Ascii.eqb Bool.eqb].
      step. rewrite Hauth.
      assert (Hparsed :
                (if String.eqb (Values_Get (URL_Query req) "n") "" then inr 10000
                 else match Atoi (Values_Get (URL_Query req) "n") with
                      | (_, Some err0) =>
                          inl {| Status := StatusBadRequest; Code := "BAD_REQUEST";
                                 Message := "parsing n: " ++ Error err0 |}
                      | (parsed, None) => inr parsed
                      end) = inr n).
      { destruct Hn as [[-> ->]|[Hne ->]]; [reflexivity|].
        apply String.eqb_neq in Hne. now rewrite Hne. }
      cbv zeta. rewrite Hparsed. step. rewrite Hlist.
      rewrite <- app_assoc.
      destruct (errors_Is err ErrNameUnknown); reflexivity.
Qed.

(** The loop over a list in two parts. *)
Lemma referrers_loop_app (repo target : string) (l1 l2 : list Hash) :
  forall (found : list v1_Descriptor) (s : St W),
  referrers_loop repo target (l1 ++ l2) found s
  = match referrers_loop repo target l1 found s with
    | (Some (inr f), s1) => referrers_loop repo target l2 f s1
    | other => other
    end.
Proof.
  induction l1 as [|reference rest IH]; intros found s.
  - reflexivity.
  - cbn [app referrers_loop]. rewrite !bind_query. cbn [world resp calls].
    destruct (manifestHandler_Get repo (Hash_String reference) (world s)) as [err|m];
      [reflexivity|].
    rewrite !bind_query. cbn [world resp calls].
    destruct (blobHandler_Get repo (Blob_Digest (Manifest_Blob m)) false (world s))
      as [err|rd]; [reflexivity|].
    destruct (io_Copy rd) as [buf [err|]]; [reflexivity|].
    destruct (Unmarshal_Subject buf) as [subject|]; [|apply IH].
    destruct (negb (String.eqb (Hash_String (Digest subject)) target)); apply IH.
Qed.

(** X16.  The order of the checks of the referrers.  The method is looked
    at before the path, so any method but GET is answered by the
    unknown-method error on any path, without a panic and without a call.  A
    GET asks the authorizer first; a refusal is answered after that one call.
    Only then is the target validated: a target that is no digest is
    answered 400 UNSUPPORTED before any store is reached.  A store that
    fails to list the digests gives the unknown-name error for an unknown
    name and the internal error otherwise.  The handler reads the method and
    the path only: the query string, with its [artifactType], changes
    nothing. *)
Theorem handleReferrers_checks (req : Request) (s : St W) :
  (Method req <> MethodGet ->
   handleReferrers req s = (Some (Some regErrMethodUnknown), s))
  /\ (forall repo target,
        Method req = MethodGet ->
        path_target (URL_Path req) = Some target ->
        path_repo (URL_Path req) = Some repo ->
        let asked := CAuthorizeReference repo target ActionRead in
        (forall err,
           authz_AuthorizeReference repo target ActionRead (world s) = Some err ->
           handleReferrers req s
           = (Some (Some (if errors_Is err ErrAccessDenied then regErrDenied
                          else if errors_Is err ErrInvalidArtifactName
                               then regErrNameInvalid
                               else regErrInternal err)),
              mkSt (world s) (resp s) (calls s ++ [asked])))
        /\ (forall err,
              authz_AuthorizeReference repo target ActionRead (world s) = None ->
              NewHash target = inl err ->
              handleReferrers req s
              = (Some (Some {| Status := 400; Code := "UNSUPPORTED";
                               Message := "Target must be a valid digest" |}),
                 mkSt (world s) (resp s) (calls s ++ [asked])))
        /\ (forall h err,
              authz_AuthorizeReference repo target ActionRead (world s) = None ->
              NewHash target = inr h ->
              manifestHandler_ListDigests repo (world s) = inl err ->
              handleReferrers req s
              = (Some (Some (if errors_Is err ErrNameUnknown then regErrNameUnknown
                             else regErrInternal err)),
                 mkSt (world s) (resp s) (calls s ++ [asked; CListDigests repo]))))
  /\ (forall req',
        Method req' = Method req -> URL_Path req' = URL_Path req ->
        handleReferrers req' s = handleReferrers req s).
Proof.
  conjuncts.
  - intros Hm. unfold handleReferrers. apply String.eqb_neq in Hm. now rewrite Hm.
  - intros repo target Hm Ht Hr asked. subst asked. unfold handleReferrers.
    rewrite Hm, Ht, Hr. cbn [String.eqb MethodGet Ascii.eqb Bool.eqb negb checked].
    rewrite !bind_ret_l. step.
    conjuncts.
    + intros err ->. reflexivity.
    + intros err -> ->. reflexivity.
    + intros h err -> -> Hlist. step. rewrite Hlist. rewrite <- app_assoc.
      destruct (errors_Is err ErrNameUnknown); reflexivity.
  - intros req' Hm Hp. unfold handleReferrers. now rewrite Hm, Hp.
Qed.

(** X17.  A manifest the referrers cannot fetch fails the whole listing.
    When the manifests listed before it are served and its record is not
    found, the answer is the internal error of the store's error; when its
    record is found and the blob store fails for its blob, the answer has
    status 404 and the code BAD_REQUEST with the blob store's message.  In
    both cases nothing is written: no partial index is sent, and the digests
    listed after it are not looked at. *)
Theorem handleReferrers_fetch_failure
    (req : Request) (repo target : string) (s : St W) (h : Hash)
    (served : list entry) (reference : Hash) (rest : list Hash) :
  Method req = MethodGet ->
  path_target (URL_Path req) = Some target ->
  path_repo (URL_Path req) = Some repo ->
  authz_AuthorizeReference repo target ActionRead (world s) = None ->
  NewHash target = inr h ->
  manifestHandler_ListDigests repo (world s)
  = inr (map entry_digest served ++ reference :: rest)%list ->
  Forall (stored_as repo (world s)) served ->
  (forall err,
     manifestHandler_Get repo (Hash_String reference) (world s) = inl err ->
     exists cs,
       handleReferrers req s
       = (Some (Some (regErrInternal err)),
          mkSt (world s) (resp s)
            (calls s ++ cs ++ [CManifestGet repo (Hash_String reference)])))
  /\ (forall m err,
        manifestHandler_Get repo (Hash_String reference) (world s) = inr m ->
        blobHandler_Get repo (Blob_Digest (Manifest_Blob m)) false (world s) = inl err ->
        exists cs,
          handleReferrers req s
          = (Some (Some {| Status := 404; Code := "BAD_REQUEST"; Message := Error err |}),
             mkSt (world s) (resp s)
               (calls s ++ cs
                  ++ [CManifestGet repo (Hash_String reference);
                      CBlobGet repo (Blob_Digest (Manifest_Blob m)) false]))).
Proof.
  intros Hm Ht Hr Hauth Hhash Hlist Hall.
  assert (Hstart : forall k : regError + list v1_Descriptor -> M W (option regError),
             exists cs f,
               (found <- referrers_loop repo target
                           (map entry_digest served ++ reference :: rest) [] ;; k found)
                 (mkSt (world s) (resp s)
                    ((calls s ++ [CAuthorizeReference repo target ActionRead])
                       ++ [CListDigests repo]))
               = (found <- referrers_loop repo target (reference :: rest) f ;; k found)
                   (mkSt (world s) (resp s) (calls s ++ cs))).
  { intros k.
    destruct (referrers_loop_run repo target served []
                (mkSt (world s) (resp s)
                   ((calls s ++ [CAuthorizeReference repo target ActionRead])
                      ++ [CListDigests repo])) Hall) as (cs & Hrun).
    cbn [world resp calls] in Hrun.
    eexists. eexists. unfold bind at 1. rewrite referrers_loop_app, Hrun.
    rewrite <- !app_assoc. reflexivity. }
  assert (Hhandler :
            handleReferrers req s
            = (found <- referrers_loop repo target
                          (map entry_digest served ++ reference :: rest) [] ;;
               match found with
               | inl err => ret (Some err)
               | inr descs =>
                   match Marshal_IndexManifest
                           {| SchemaVersion := 2; Index_MediaType := OCIImageIndex;
                              Manifests := descs |} with
                   | inl err => ret (Some (regErrInternal err))
                   | inr msg => write_json msg (Some OCIImageIndex)
                   end
               end)
                (mkSt (world s) (resp s)
                   ((calls s ++ [CAuthorizeReference repo target ActionRead])
                      ++ [CListDigests repo]))).
  { unfold handleReferrers.
    rewrite Hm, Ht, Hr. cbn [String.eqb MethodGet Ascii.eqb Bool.eqb negb checked].
    rewrite !bind_ret_l. step. rewrite Hauth, Hhash. step. rewrite Hlist. reflexivity. }
  rewrite Hhandler.
  match goal with
  | |- context [bind _ ?k _] => destruct (Hstart k) as (cs & f & ->)
  end.
  split.
  - intros err Hget. exists cs.
    unfold bind at 1. cbn [referrers_loop]. rewrite bind_query. cbn [world resp calls].
    rewrite Hget. rewrite <- app_assoc. reflexivity.
  - intros m err Hget Hblob. exists cs.
    unfold bind at 1. cbn [referrers_loop]. rewrite bind_query. cbn [world resp calls].
    rewrite Hget. rewrite bind_query. cbn [world resp calls]. rewrite Hblob.
    rewrite <- !app_assoc. reflexivity.
Qed.

End ListingFailures.

(* ===================================================================== *)
(** ** Pushes one after the other *)
(* ===================================================================== *)

Section Pushes.

Context {W : Type} `{L : Lib} `{B : Backend W}.

(** After a PUT that returned no error, stores that keep their contract find
    the record under the target and under the digest, and the records of the
    other references are the ones from before. *)
Lemma handlePut_records (req : Request) (repo target : string) (s s' : St W) (buf : bytes) :
  store_laws B ->
  handlePut req repo target s = (Some None, s') ->
  io_Copy (Body req) = (buf, None) ->
  manifestHandler_Get repo target (world s') = inr (put_record req buf)
  /\ manifestHandler_Get repo (Hash_String (SHA256 buf)) (world s') = inr (put_record req buf)
  /\ blobHandler_Put <> None
  /\ (blob_put_keeps_records B ->
      forall reference m,
        reference <> target -> reference <> Hash_String (SHA256 buf) ->
        manifestHandler_Get repo reference (world s) = inr m ->
        manifestHandler_Get repo reference (world s') = inr m).
Proof.
  intros Hlaws Hput Hbody.
  destruct (handlePut_success_inv req repo target _ _ Hput)
    as (buf' & blobs & cs & Put & Hbody' & _ & Hcap & _ & H1 & H2 & H3 & ->).
  rewrite Hbody in Hbody'. injection Hbody' as <-.
  set (ct := Header_Get (Header req) "Content-Type") in *.
  set (d := SHA256 buf) in *.
  set (r1 := Put repo d ct buf (world s)) in *.
  set (r2 := manifestHandler_Put repo (Hash_String d) (put_record req buf) blobs (snd r1)) in *.
  set (r3 := manifestHandler_Put repo target (put_record req buf) blobs (snd r2)) in *.
  assert (E1 : Put repo d ct buf (world s) = (None, snd r1))
    by (fold r1; rewrite <- H1; apply surjective_pairing).
  assert (E2 : manifestHandler_Put repo (Hash_String d) (put_record req buf) blobs (snd r1)
               = (None, snd r2))
    by (fold r2; rewrite <- H2; apply surjective_pairing).
  assert (E3 : manifestHandler_Put repo target (put_record req buf) blobs (snd r2)
               = (None, snd r3))
    by (fold r3; rewrite <- H3; apply surjective_pairing).
  assert (Gt : manifestHandler_Get repo target (snd r3) = inr (put_record req buf))
    by (eapply (manifest_put_get B Hlaws); exact E3).
  cbn [world]. conjuncts.
  - exact Gt.
  - destruct (string_dec (Hash_String d) target) as [->|Hne]; [exact Gt|].
    eapply (manifest_put_frame B Hlaws); [exact E3 | exact Hne |].
    eapply (manifest_put_get B Hlaws); exact E2.
  - rewrite Hcap. discriminate.
  - intros Hapart reference m Ht Hd Hm.
    eapply (manifest_put_frame B Hlaws); [exact E3 | exact Ht |].
    eapply (manifest_put_frame B Hlaws); [exact E2 | exact Hd |].
    rewrite (Hapart Put repo d ct buf (world s) None (snd r1) reference Hcap E1).
    exact Hm.
Qed.

(** X18.  A manifest that was pushed satisfies the dependency check of an
    index.  After a PUT of body B that returned no error, with stores that
    keep their contract, the PUT of an index whose sub-manifests to be
    recorded all carry the digest sha256(B), whatever the target B was
    pushed under, passes the look-ups: when its body also passes the
    non-compliance check, it goes on to put its blob, with those
    sub-manifests as its dependencies. *)
Theorem handlePut_index_after_manifest
    (req : Request) (repo target : string) (s s' : St W) (buf : bytes)
    (ireq : Request) (itarget : string) (t : St W) (ibuf : bytes) (im : v1_IndexManifest) :
  store_laws B ->
  handlePut req repo target s = (Some None, s') ->
  io_Copy (Body req) = (buf, None) ->
  world t = world s' ->
  io_Copy (Body ireq) = (ibuf, None) ->
  IsIndex (Header_Get (Header ireq) "Content-Type") = true ->
  ParseIndexManifest ibuf = inr im ->
  (forall desc,
     In desc (Manifests im) -> must_be_recorded desc = true -> Digest desc = SHA256 buf) ->
  checkIncompatibleManifest ibuf = None ->
  (forall desc, In desc (Manifests im) -> missing repo (world t) desc = false)
  /\ exists r t' cs,
       handlePut ireq repo itarget t = (Some r, t')
       /\ calls t'
          = (calls t ++ index_calls repo (Manifests im)
               ++ CBlobPut repo (SHA256 ibuf) (Header_Get (Header ireq) "Content-Type") ibuf
               :: cs)%list
       /\ (r = None ->
           cs = [CTxBegin;
                 CManifestPut repo (Hash_String (SHA256 ibuf)) (put_record ireq ibuf)
                   (map blob_of (filter must_be_recorded (Manifests im)));
                 CManifestPut repo itarget (put_record ireq ibuf)
                   (map blob_of (filter must_be_recorded (Manifests im)));
                 CTxCommit]).
Proof.
  intros Hlaws Hput Hbody Hworld Hibody Hindex Hparse Hdescs Hcheck.
  destruct (handlePut_records req repo target s s' buf Hlaws Hput Hbody)
    as (_ & Hd & Hcap & _).
  assert (Hall : forall desc, In desc (Manifests im) -> missing repo (world t) desc = false).
  { intros desc Hin. unfold missing.
    destruct (must_be_recorded desc) eqn:Hmust; [|reflexivity].
    rewrite (Hdescs desc Hin Hmust), Hworld, Hd. reflexivity. }
  split; [exact Hall|].
  assert (Hdeps : collect_dependencies repo (Header_Get (Header ireq) "Content-Type") ibuf t
                  = (Some (inr (map blob_of (filter must_be_recorded (Manifests im)))),
                     mkSt (world t) (resp t) (calls t ++ index_calls repo (Manifests im)))).
  { unfold collect_dependencies. rewrite Hindex, Hparse.
    now rewrite index_dependencies_ok. }
  rewrite (handlePut_after_checks ireq repo itarget t _ ibuf _ Hibody Hdeps Hcheck).
  destruct blobHandler_Put as [Put|]; [|now contradiction Hcap].
  cbv zeta. cbn [world resp calls].
  destruct (fst (Put _ _ _ _ _)).
  { do 3 eexists. split; [reflexivity|]. cbn [calls].
    split; [rewrite <- app_assoc; reflexivity|discriminate]. }
  destruct (multierr_Combine _ _).
  - do 3 eexists. split; [reflexivity|]. cbn [calls].
    split; [rewrite <- app_assoc; reflexivity|discriminate].
  - do 3 eexists. split; [reflexivity|]. cbn [calls].
    split; [rewrite <- app_assoc; reflexivity|reflexivity].
Qed.

(** X19.  A tag moves, a digest stays.  When body B1 and then body B2 are
    pushed to the same tag, with stores that keep their contract and a blob
    store apart from the records, the tag resolves to the record of B2, and
    sha256(B1) still resolves to the record of B1: pushing to a tag replaces
    what the tag names, and nothing else. *)
Theorem handlePut_moves_tag
    (req1 req2 : Request) (repo tag : string) (s s1 t s2 : St W) (b1 b2 : bytes) :
  store_laws B ->
  blob_put_keeps_records B ->
  handlePut req1 repo tag s = (Some None, s1) ->
  io_Copy (Body req1) = (b1, None) ->
  world t = world s1 ->
  handlePut req2 repo tag t = (Some None, s2) ->
  io_Copy (Body req2) = (b2, None) ->
  Hash_String (SHA256 b1) <> tag ->
  Hash_String (SHA256 b1) <> Hash_String (SHA256 b2) ->
  manifestHandler_Get repo tag (world s2) = inr (put_record req2 b2)
  /\ manifestHandler_Get repo (Hash_String (SHA256 b2)) (world s2) = inr (put_record req2 b2)
  /\ manifestHandler_Get repo (Hash_String (SHA256 b1)) (world s2) = inr (put_record req1 b1).
Proof.
  intros Hlaws Hapart Hput1 Hbody1 Hworld Hput2 Hbody2 Htag Hdigest.
  destruct (handlePut_records req1 repo tag s s1 b1 Hlaws Hput1 Hbody1) as (_ & Hd1 & _).
  destruct (handlePut_records req2 repo tag t s2 b2 Hlaws Hput2 Hbody2)
    as (Ht2 & Hd2 & _ & Hframe).
  conjuncts; [exact Ht2|exact Hd2|].
  apply (Hframe Hapart); [exact Htag|exact Hdigest|].
  rewrite Hworld. exact Hd1.
Qed.

(** X20.  A connection that fails while the body is written.  A GET whose
    record and blob are found has sent the status 200 when it copies the
    body; when that write fails the handler returns the internal error of the
    write error after the 200, with no byte of the body written, and the pull
    is not audited.  A manifest with an empty body is not written at all, so
    its GET returns no error on such a connection and is audited. *)
Theorem handleGet_write_failure
    (req : Request) (repo target : string) (s : St W) (m : Manifest) (buf : bytes)
    (err : error) :
  manifestHandler_Get repo target (world s) = inr m ->
  blobHandler_Get repo (Blob_Digest (Manifest_Blob m)) true (world s)
  = inr {| delivered := buf; read_err := None |} ->
  sent (resp s) = None ->
  conn_err (resp s) = Some err ->
  let looked_up := [CManifestGet repo target;
                    CBlobGet repo (Blob_Digest (Manifest_Blob m)) true] in
  exists s',
    handleGet req repo target s
    = (Some (match buf with [] => None | _ => Some (regErrInternal err) end), s')
    /\ sent_status (resp s') = Some 200
    /\ written (resp s') = written (resp s)
    /\ calls s'
       = (calls s ++ looked_up
            ++ match buf with
               | [] => audit_calls repo target (fst (audit_AuditPull repo target (world s)))
               | _ => []
               end)%list
    /\ (buf <> [] -> world s' = world s).
Proof.
  intros Hm Hb Hfresh Hconn looked_up. subst looked_up.
  unfold handleGet. step. rewrite Hm. step. rewrite Hb. cbn [io_Copy delivered read_err].
  repeat step.
  assert (Hcopy : forall r,
             conn_err r = Some err ->
             Response_Copy buf r = (match buf with [] => None | _ => Some err end, r)).
  { intros r Hr. unfold Response_Copy. destruct buf; [reflexivity|now rewrite Hr]. }
  rewrite Hcopy by (now rewrite conn_err_WriteHeader).
  cbn [fst snd].
  assert (Hsent : forall r, sent r = None ->
                  sent_status (Response_WriteHeader StatusOK r) = Some 200
                  /\ written (Response_WriteHeader StatusOK r) = written r).
  { intros r Hr. unfold Response_WriteHeader, sent_status. rewrite Hr. split; reflexivity. }
  match goal with
  | |- context [Response_WriteHeader StatusOK ?r] =>
      destruct (Hsent r) as [Hstatus Hwritten]; [exact Hfresh|]
  end.
  cbn [written Response_Set] in Hwritten.
  destruct buf as [|x xs].
  - rewrite bind_run with (1 := audit_pull_calls repo target _). unfold ret.
    eexists. split; [reflexivity|]. cbn [resp calls world].
    conjuncts; [exact Hstatus|exact Hwritten|now rewrite <- !app_assoc|].
    intros Hne. now contradiction Hne.
  - unfold ret. eexists. split; [reflexivity|]. cbn [resp calls world].
    conjuncts; [exact Hstatus|exact Hwritten|now rewrite <- !app_assoc|reflexivity].
Qed.

End Pushes.

(* ===================================================================== *)
(** ** What the non-compliance check lets through *)
(* ===================================================================== *)

Section Compliance.

Context `{L : Lib}.

(** A member leaves decoding without error exactly when there was none and
    the member decodes. *)
Lemma decode_Blobs_member_error (st : option error * list json) (kv : string * json) :
  fst (decode_Blobs_member st kv) = None
  <-> fst st = None /\ blobs_member_ok kv = true.
Proof.
  unfold decode_Blobs_member, blobs_member_ok.
  destruct (json_key_matches "blobs" (fst kv)); cbn [negb orb]; [|tauto].
  destruct (snd kv) as [| | | |elems|]; cbn [fst];
    try tauto;
    try (split; [intros H; destruct (fst st); discriminate|intros [_ H]; discriminate]).
  destruct (valueInterface_refused (JArray elems)); destruct (fst st); cbn [option_map];
    split; try tauto; try (intros H; discriminate); intros [H1 H2]; discriminate.
Qed.

(** Decoding fails exactly when it had failed or meets a member it cannot
    decode. *)
Lemma decode_Blobs_error (members : list (string * json)) :
  forall st : option error * list json,
  fst (fold_left decode_Blobs_member members st) = None
  <-> fst st = None /\ forallb blobs_member_ok members = true.
Proof.
  induction members as [|kv rest IH]; intros st; cbn [fold_left forallb].
  - tauto.
  - rewrite IH, decode_Blobs_member_error, andb_true_iff. tauto.
Qed.

(** The slice decoded from members that all decode is the one of the last
    member that selects the field. *)
Lemma decode_Blobs_slice (members : list (string * json)) (before : list json) :
  forall (st : option error * list json) (cur : option json),
  forallb blobs_member_ok members = true ->
  (cur = None /\ snd st = before
   \/ cur = Some JNull /\ snd st = []
   \/ cur = Some (JArray (snd st))) ->
  match last_blobs_member members cur with
  | None => snd (fold_left decode_Blobs_member members st) = before
  | Some (JArray xs) => snd (fold_left decode_Blobs_member members st) = xs
  | Some _ => snd (fold_left decode_Blobs_member members st) = []
  end.
Proof.
  induction members as [|kv rest IH]; intros st cur Hok Hcur; cbn [fold_left forallb] in *.
  - cbn [last_blobs_member].
    destruct Hcur as [[-> Hs]|[[-> Hs]| ->]]; [exact Hs|exact Hs|reflexivity].
  - apply andb_true_iff in Hok as [Hkv Hrest].
    cbn [last_blobs_member]. unfold blobs_member_ok in Hkv.
    destruct (json_key_matches "blobs" (fst kv)) eqn:Hk; cbn [negb orb] in Hkv.
    + destruct (snd kv) as [| | | |elems|] eqn:Hv; try discriminate.
      * apply IH; [exact Hrest|]. right. left. split; [reflexivity|].
        unfold decode_Blobs_member. now rewrite Hk, Hv.
      * apply IH; [exact Hrest|]. right. right.
        unfold decode_Blobs_member. now rewrite Hk, Hv.
    + replace (decode_Blobs_member st kv) with st
        by (unfold decode_Blobs_member; now rewrite Hk).
      apply IH; assumption.
Qed.

(** X21.  What the non-compliance check lets through.  A body that does not
    scan as JSON is refused with the scanner's error.  A body that scans is
    let through exactly when it is [null], or an object in which every member
    that selects [blobs] is [null] or an array all of whose numbers, at any
    depth, fit a [float64], and the last such member is not an array with an
    element: an earlier [blobs] array with entries is let through when a
    later member empties it, unless it holds a number out of range, and a
    [blobs] of any other type is refused. *)
Theorem checkIncompatibleManifest_lets_through (buf : bytes) :
  (forall err, json_scan buf = inl err ->
               checkIncompatibleManifest buf = Some (regErrManifestInvalid err))
  /\ (forall j, json_scan buf = inr j ->
                (checkIncompatibleManifest buf = None <-> blobs_compliant j = true)).
Proof.
  unfold checkIncompatibleManifest, json_Unmarshal_Blobs. split.
  - intros err ->. reflexivity.
  - intros j ->. destruct j as [| | | | |members]; cbn [decode_Blobs blobs_compliant];
      try (split; [reflexivity|reflexivity]); try (split; discriminate).
    pose proof (decode_Blobs_error members (None, [])) as Herr.
    pose proof (decode_Blobs_slice members [] (None, []) None) as Hslice.
    destruct (fold_left decode_Blobs_member members (None, [])) as [e bl].
    cbn [fst snd] in *.
    destruct (forallb blobs_member_ok members); cbn [andb].
    2:{ destruct e; [split; discriminate|].
        destruct Herr as [Herr _]. destruct (Herr eq_refl). discriminate. }
    destruct e as [e|].
    { destruct Herr as [_ Herr]. specialize (Herr (conj eq_refl eq_refl)). discriminate. }
    specialize (Hslice eq_refl (or_introl (conj eq_refl eq_refl))).
    destruct (last_blobs_member members None) as [[| | | |[|x xs]|]|]; subst bl;
      cbn; split; intros; try reflexivity; discriminate.
Qed.

End Compliance.

(* ===================================================================== *)
(** ** Concrete cases on the in-memory stores *)
(* ===================================================================== *)

Lemma Mem_blob_put_keeps_records : blob_put_keeps_records Mem.backend.
Proof.
  intros Put repo d contentType data w e w' reference [= <-] [= <- <-]. reflexivity.
Qed.

Lemma pull_lookup_failure_witness :
  handleGet (L := Mini.lib) (B := Mem.backend) (Fixture.get "v9") Fixture.repo "v9"
    (Mem.start Mem.empty)
  = (Some (Some regErrNameUnknown),
     mkSt Mem.empty (new_Response None) [CManifestGet Fixture.repo "v9"])
  /\ handleHead (L := Mini.lib) (B := Mem.backend) (Fixture.get "v9") Fixture.repo "v9"
       (Mem.start Mem.empty)
     = (Some (Some regErrNameUnknown),
        mkSt Mem.empty (new_Response None) [CManifestGet Fixture.repo "v9"]).
Proof.
  exact (pull_lookup_failure (L := Mini.lib) (B := Mem.backend) (Fixture.get "v9")
           Fixture.repo "v9" (Mem.start Mem.empty) (Sentinel ErrNameUnknown) eq_refl).
Defined.

Lemma handleHead_agrees_with_handleGet_witness :
  exists g h,
    handleGet (L := Mini.lib) (B := Mem.backend) (Fixture.get "v1") Fixture.repo "v1"
      (Mem.start Fixture.pushed_image) = (Some None, g)
    /\ handleHead (L := Mini.lib) (B := Mem.backend) (Fixture.get "v1") Fixture.repo "v1"
         (Mem.start Fixture.pushed_image) = (Some None, h)
    /\ sent (resp h) = sent (resp g)
    /\ sent_header (resp h) "Content-Length" = Some "189".
Proof.
  destruct (handleHead_agrees_with_handleGet (L := Mini.lib) (B := Mem.backend)
              (Fixture.get "v1") Fixture.repo "v1" (Mem.start Fixture.pushed_image)
              Fixture.image_record Fixture.image_body Mem.blob_Stat)
    as (g & h & Hg & Hh & Hsent & _ & Hlen & _); try (vm_compute; reflexivity).
  exists g, h. conjuncts; assumption.
Defined.

Lemma handlePut_blob_store_failures_witness :
  fst (handlePut (L := Mini.lib) (B := Faulty.backend)
         (Fixture.put "v1" OCIManifestSchema1 Fixture.image_body) Fixture.repo "v1"
         (Mem.start Mem.empty))
  = Some (Some (regErrInternal (L := Mini.lib) (ErrorNew "no space left on device"))).
Proof.
  destruct (handlePut_blob_store_failures (L := Mini.lib) (B := Faulty.backend)
              (Fixture.put "v1" OCIManifestSchema1 Fixture.image_body) Fixture.repo "v1"
              (Mem.start Mem.empty)) as [_ H].
  edestruct H with (buf := Fixture.image_body) (cs := @nil Call) as [_ Hput];
    [reflexivity | vm_compute; reflexivity | vm_compute; reflexivity |].
  rewrite (Hput Faulty.blob_Put (ErrorNew "no space left on device") Mem.empty
             eq_refl eq_refl).
  reflexivity.
Defined.

Lemma handlePut_transaction_failure_witness :
  fst (handlePut (L := Mini.lib) (B := Mem.backend)
         (Fixture.put "v1" OCIManifestSchema1 Fixture.image_body) Fixture.repo "v1"
         (Mem.start Faulty.full))
  = Some (Some regErrDeniedQuotaExceeded).
Proof.
  edestruct (handlePut_transaction_failure (L := Mini.lib) (B := Mem.backend))
    with (req := Fixture.put "v1" OCIManifestSchema1 Fixture.image_body)
         (repo := Fixture.repo) (target := "v1") (s := Mem.start Faulty.full)
         (buf := Fixture.image_body) (cs := @nil Call) (Put := Mem.blob_Put)
    as (err & _ & His & Hrun);
    [reflexivity | vm_compute; reflexivity | vm_compute; reflexivity | reflexivity
    | reflexivity | left; vm_compute; discriminate |].
  rewrite Hrun. cbn [fst]. rewrite His. vm_compute. reflexivity.
Defined.

Lemma handlePut_index_dependencies_witness :
  exists m,
    manifestHandler_Get (Backend := Mem.backend) Fixture.repo
      (Hash_String Fixture.image_digest) Fixture.pushed_image
    = inr m.
Proof.
  destruct (handlePut_index_dependencies (L := Mini.lib) (B := Mem.backend)
              (Fixture.put "multi" OCIImageIndex Fixture.index_body) Fixture.repo "multi"
              (Mem.start Fixture.pushed_image)
              (snd (handlePut (L := Mini.lib) (B := Mem.backend)
                      (Fixture.put "multi" OCIImageIndex Fixture.index_body) Fixture.repo
                      "multi" (Mem.start Fixture.pushed_image)))
              Fixture.index_body Fixture.index_manifest)
    as [Hfound _]; try (vm_compute; reflexivity).
  apply (Hfound {| MediaType := OCIManifestSchema1; Size := 189;
                   Digest := Fixture.image_digest; ArtifactType := "" |}).
  - left. reflexivity.
  - reflexivity.
Defined.


Lemma handlePut_unparseable_witness :
  exists err,
    handlePut (L := Mini.lib) (B := Mem.backend)
      (Fixture.put "v1" OCIManifestSchema1 Fixture.not_json) Fixture.repo "v1"
      (Mem.start Mem.empty)
    = (Some (Some (regErrManifestInvalid (L := Mini.lib) err)), Mem.start Mem.empty).
Proof.
  eexists.
  apply (handlePut_unparseable (L := Mini.lib) (B := Mem.backend)
           (Fixture.put "v1" OCIManifestSchema1 Fixture.not_json) Fixture.repo "v1"
           (Mem.start Mem.empty) Fixture.not_json).
  - reflexivity.
  - right. conjuncts; vm_compute; reflexivity.
Defined.

Lemma handle_refusals_witness :
  handle (L := Mini.lib) (B := Mem.backend) (Fixture.get "v1") (Mem.start Faulty.closed)
  = (Some (Some regErrDenied),
     mkSt Faulty.closed (new_Response None)
       [CAuthorizeReference Fixture.repo "v1" ActionRead]).
Proof.
  destruct (handle_refusals (L := Mini.lib) (B := Mem.backend) (Fixture.get "v1")
              Fixture.repo "v1" (Mem.start Faulty.closed) eq_refl eq_refl)
    as (_ & Hrefused & _).
  exact (Hrefused ActionRead (Sentinel ErrAccessDenied) eq_refl eq_refl).
Defined.

Lemma handle_panics_on_short_paths_witness :
  handle (L := Mini.lib) (B := Mem.backend) (Mem.request MethodGet "/v2/manifests" [] "" [])
    (Mem.start Mem.empty)
  = (None, Mem.start Mem.empty).
Proof.
  apply (handle_panics_on_short_paths (L := Mini.lib) (B := Mem.backend)).
  vm_compute. reflexivity.
Defined.

Lemma resource_path_classified_witness :
  path_repo (URL_Path (Fixture.get "v1")) = Some "acme/app"
  /\ path_target (URL_Path (Fixture.get "v1")) = Some "v1"
  /\ isManifest (Fixture.get "v1") = true.
Proof.
  destruct (resource_path_classified "v2" "acme/app" "manifests" "v1" (Fixture.get "v1")
              eq_refl eq_refl eq_refl eq_refl)
    as (_ & Hrepo & Htarget & Hmanifest & _).
  conjuncts; assumption.
Defined.

Lemma listings_only_look_up_witness :
  world (snd (handleCatalog (L := Mini.lib) (B := Mem.backend) (Fixture.list_catalog [])
                (Mem.start Fixture.pushed_image)))
  = Fixture.pushed_image.
Proof.
  destruct (listings_only_look_up (L := Mini.lib) (B := Mem.backend)
              (Fixture.list_catalog []) (Mem.start Fixture.pushed_image))
    as (_ & Hcatalog & _).
  destruct (Hcatalog None
              (snd (handleCatalog (L := Mini.lib) (B := Mem.backend)
                      (Fixture.list_catalog []) (Mem.start Fixture.pushed_image))))
    as [Hworld _]; [vm_compute; reflexivity|].
  exact Hworld.
Defined.

Lemma handleCatalog_unguarded_witness :
  handleCatalog (L := Mini.lib) (B := Mem.backend)
    (Mem.request MethodPut "/v2/_catalog" [] "" []) (Mem.start Faulty.closed)
  = (Some (Some regErrMethodUnknown), Mem.start Faulty.closed).
Proof.
  apply (handleCatalog_unguarded (L := Mini.lib) (B := Mem.backend)). discriminate.
Defined.

Lemma handleTags_refusals_witness :
  handleTags (L := Mini.lib) (B := Mem.backend) (Fixture.list_tags [])
    (Mem.start Faulty.closed)
  = (Some (Some regErrDenied),
     mkSt Faulty.closed (new_Response None) [CAuthorize Fixture.repo ActionRead]).
Proof.
  destruct (handleTags_refusals (L := Mini.lib) (B := Mem.backend) (Fixture.list_tags [])
              (Mem.start Faulty.closed)) as [_ H].
  destruct (H Fixture.repo eq_refl) as (_ & Hrefused & _).
  exact (Hrefused (Sentinel ErrAccessDenied) eq_refl eq_refl).
Defined.

Lemma handleReferrers_checks_witness :
  handleReferrers (L := Mini.lib) (B := Mem.backend) (Fixture.referrers "v1")
    (Mem.start Fixture.pushed_image)
  = (Some (Some {| Status := 400; Code := "UNSUPPORTED";
                   Message := "Target must be a valid digest" |}),
     mkSt Fixture.pushed_image (new_Response None)
       [CAuthorizeReference Fixture.repo "v1" ActionRead]).
Proof.
  destruct (handleReferrers_checks (L := Mini.lib) (B := Mem.backend)
              (Fixture.referrers "v1") (Mem.start Fixture.pushed_image)) as (_ & H & _).
  destruct (H Fixture.repo "v1" eq_refl eq_refl eq_refl) as (_ & Hdigest & _).
  eapply Hdigest; vm_compute; reflexivity.
Defined.

Lemma handleReferrers_fetch_failure_witness :
  exists cs,
    handleReferrers (L := Mini.lib) (B := Mem.backend)
      (Fixture.referrers (Hash_String Fixture.image_digest)) (Mem.start Faulty.lost)
    = (Some (Some {| Status := 404; Code := "BAD_REQUEST";
                     Message := Error (Lib := Mini.lib) (ErrorNew "blob not found") |}),
       mkSt Faulty.lost (new_Response None)
         ([] ++ cs
            ++ [CManifestGet Fixture.repo (Hash_String Fixture.image_digest);
                CBlobGet Fixture.repo
                  (Blob_Digest (Manifest_Blob Fixture.image_record)) false])).
Proof.
  edestruct (handleReferrers_fetch_failure (L := Mini.lib) (B := Mem.backend))
    with (req := Fixture.referrers (Hash_String Fixture.image_digest))
         (repo := Fixture.repo) (target := Hash_String Fixture.image_digest)
         (s := Mem.start Faulty.lost) (served := @nil entry)
         (reference := Fixture.image_digest) (rest := @nil Hash)
    as [_ Hblob];
    [ reflexivity | vm_compute; reflexivity | vm_compute; reflexivity | reflexivity
    | vm_compute; reflexivity | vm_compute; reflexivity | constructor | ].
  apply (Hblob Fixture.image_record (ErrorNew "blob not found")); vm_compute; reflexivity.
Defined.

Lemma handlePut_index_after_manifest_witness :
  exists r t' cs,
    handlePut (L := Mini.lib) (B := Mem.backend)
      (Fixture.put "multi" OCIImageIndex Fixture.index_body) Fixture.repo "multi"
      (Mem.start Fixture.pushed_image)
    = (Some r, t')
    /\ calls t'
       = ([] ++ index_calls (L := Mini.lib) Fixture.repo (Manifests Fixture.index_manifest)
            ++ CBlobPut Fixture.repo (SHA256 (Lib := Mini.lib) Fixture.index_body)
                 (Header_Get (Header (Fixture.put "multi" OCIImageIndex Fixture.index_body))
                    "Content-Type")
                 Fixture.index_body
            :: cs)%list.
Proof.
  destruct (handlePut_index_after_manifest (L := Mini.lib) (B := Mem.backend)
              (Fixture.put "v1" OCIManifestSchema1 Fixture.image_body) Fixture.repo "v1"
              (Mem.start Mem.empty)
              (snd (handlePut (L := Mini.lib) (B := Mem.backend)
                      (Fixture.put "v1" OCIManifestSchema1 Fixture.image_body) Fixture.repo
                      "v1" (Mem.start Mem.empty)))
              Fixture.image_body
              (Fixture.put "multi" OCIImageIndex Fixture.index_body) "multi"
              (Mem.start Fixture.pushed_image) Fixture.index_body Fixture.index_manifest
              Mem_store_laws)
    as (_ & r & t' & cs & Hrun & Hcalls & _); try (vm_compute; reflexivity).
  { intros desc [<-|[]] _. reflexivity. }
  exists r, t', cs. split; assumption.
Defined.

Lemma handlePut_moves_tag_witness :
  let second := handlePut (L := Mini.lib) (B := Mem.backend)
                  (Fixture.put "v1" OCIManifestSchema1 Fixture.artifact_body) Fixture.repo
                  "v1" (Mem.start Fixture.pushed_image) in
  manifestHandler_Get (Backend := Mem.backend) Fixture.repo "v1" (world (snd second))
  = inr (put_record (L := Mini.lib)
           (Fixture.put "v1" OCIManifestSchema1 Fixture.artifact_body) Fixture.artifact_body)
  /\ manifestHandler_Get (Backend := Mem.backend) Fixture.repo
       (Hash_String (SHA256 (Lib := Mini.lib) Fixture.image_body)) (world (snd second))
     = inr (put_record (L := Mini.lib)
              (Fixture.put "v1" OCIManifestSchema1 Fixture.image_body) Fixture.image_body).
Proof.
  cbv zeta.
  destruct (handlePut_moves_tag (L := Mini.lib) (B := Mem.backend)
              (Fixture.put "v1" OCIManifestSchema1 Fixture.image_body)
              (Fixture.put "v1" OCIManifestSchema1 Fixture.artifact_body)
              Fixture.repo "v1" (Mem.start Mem.empty)
              (snd (handlePut (L := Mini.lib) (B := Mem.backend)
                      (Fixture.put "v1" OCIManifestSchema1 Fixture.image_body) Fixture.repo
                      "v1" (Mem.start Mem.empty)))
              (Mem.start Fixture.pushed_image)
              (snd (handlePut (L := Mini.lib) (B := Mem.backend)
                      (Fixture.put "v1" OCIManifestSchema1 Fixture.artifact_body)
                      Fixture.repo "v1" (Mem.start Fixture.pushed_image)))
              Fixture.image_body Fixture.artifact_body
              Mem_store_laws Mem_blob_put_keeps_records)
    as (Htag & _ & Hdigest); try (vm_compute; reflexivity).
  - apply String.eqb_neq. vm_compute. reflexivity.
  - apply String.eqb_neq. vm_compute. reflexivity.
  - split; assumption.
Defined.

Lemma handleGet_write_failure_witness :
  fst (handleGet (L := Mini.lib) (B := Mem.backend) (Fixture.get "v1") Fixture.repo "v1"
         (Faulty.broken Fixture.pushed_image))
  = Some (Some (regErrInternal (L := Mini.lib) (ErrorNew "broken pipe"))).
Proof.
  destruct (handleGet_write_failure (L := Mini.lib) (B := Mem.backend) (Fixture.get "v1")
              Fixture.repo "v1" (Faulty.broken Fixture.pushed_image) Fixture.image_record
              Fixture.image_body (ErrorNew "broken pipe"))
    as (s' & Hrun & _);
    [vm_compute; reflexivity | vm_compute; reflexivity | reflexivity | reflexivity |].
  rewrite Hrun. reflexivity.
Defined.

Lemma checkIncompatibleManifest_lets_through_witness :
  checkIncompatibleManifest (L := Mini.lib) Fixture.empty_blobs_body = None.
Proof.
  destruct (checkIncompatibleManifest_lets_through (L := Mini.lib) Fixture.empty_blobs_body)
    as [_ H].
  assert (Hscan : exists j,
             json_scan (Lib := Mini.lib) Fixture.empty_blobs_body = inr j
             /\ blobs_compliant (L := Mini.lib) j = true).
  { eexists. split; [vm_compute; reflexivity|]. vm_compute. reflexivity. }
  destruct Hscan as (j & Hscan & Hok).
  exact (proj2 (H j Hscan) Hok).
Defined.
